(** * Garbage Cleaner Pro: the rule-driven cleanup engine and its scheduler

    A shallow embedding of [garbage_cleaner_pro.py]: the rule and config
    records, [CleanerEngine] (scan, act, pause/stop), [SimpleScheduler]
    and the schedule form handler of [CleanerApp], over a model of the
    file system the engine works on; further on, the rule editor of
    [CleanerApp], its scan and clean workers, the ageing of its log
    files, and [human_bytes].

    Conventions.
    - A path is the list of its components from the root.
    - Python exceptions are values of [exn]; a call that may raise returns
      an [outcome].  [Hang] is the third outcome: a worker that polls
      the pause flag for ever because nobody clears it.
    - Timestamps ([time.time()], [st_mtime]) are exact numbers of seconds
      in [Z]; the rounding of Python floats is not modelled.
    - The [_stop] and [_pause] events are written by other threads.  The
      calls those threads will make are a list of batches in the world;
      one batch takes effect each time a worker reaches the head of a
      per-file loop, and one during each [time.sleep(0.1)].
    - What the host does beyond the entries of the file system is a
      field of [Platform]: the exception [resolve()] raises for a path
      text, the error with which the host refuses to look a base up, and
      what the handler of the application's logger writes for a line.
    - The engine is given its [log] callback: the facts about the
      engine alone are stated with a callback that keeps the line
      ([keep_line]), those about the workers with [_log_to_ui]. *)

From stdpp Require Import gmap strings list fin_maps sorting pretty.
From Stdlib Require Import Ascii ZArith Lia.

Local Open Scope Z_scope.

(* ================================================================== *)
(** * Python strings *)

Module PyStr.

(** [str.isspace] on ASCII: TAB..CR, FS..US and the space. *)
Definition isspace (c : ascii) : bool :=
  let n := nat_of_ascii c in
  ((9 <=? n)%nat && (n <=? 13)%nat) || ((28 <=? n)%nat && (n <=? 32)%nat).

Fixpoint lstrip (s : string) : string :=
  match s with
  | EmptyString => EmptyString
  | String c s' => if isspace c then lstrip s' else s
  end.

Definition rstrip (s : string) : string := String.rev (lstrip (String.rev s)).

Definition strip (s : string) : string := rstrip (lstrip s).

Definition lower_char (c : ascii) : ascii :=
  let n := nat_of_ascii c in
  if (65 <=? n)%nat && (n <=? 90)%nat then ascii_of_nat (n + 32)%nat else c.

Fixpoint lower (s : string) : string :=
  match s with
  | EmptyString => EmptyString
  | String c s' => String (lower_char c) (lower s')
  end.

(** [s.partition(sep)] for a one-character separator: the text before
    and after the first [sep], when there is one. *)
Fixpoint partition (sep : ascii) (s : string) : option (string * string) :=
  match s with
  | EmptyString => None
  | String c s' =>
      if decide (c = sep) then Some (EmptyString, s')
      else match partition sep s' with
           | Some (a, b) => Some (String c a, b)
           | None => None
           end
  end.

(** [s.split(sep, 1)]. *)
Definition split1 (sep : ascii) (s : string) : list string :=
  match partition sep s with
  | Some (a, b) => [a; b]
  | None => [s]
  end.

(** [s.split(sep)]. *)
Fixpoint split (sep : ascii) (s : string) : list string :=
  match s with
  | EmptyString => [EmptyString]
  | String c s' =>
      if decide (c = sep) then EmptyString :: split sep s'
      else match split sep s' with
           | w :: ws => String c w :: ws
           | [] => [String c EmptyString]
           end
  end.

(** The digits of a decimal literal, single underscores allowed between
    digits (PEP 515).  [after_digit] tells whether the previous character
    was a digit. *)
Fixpoint digits_value (acc : Z) (after_digit : bool) (s : string) : option Z :=
  match s with
  | EmptyString => if after_digit then Some acc else None
  | String c s' =>
      match Ascii.is_nat c with
      | Some d => digits_value (10 * acc + Z.of_nat d) true s'
      | None =>
          if decide (c = "_"%char) then
            if after_digit then digits_value acc false s' else None
          else None
      end
  end.

(** [int(s)]: surrounding white space, an optional sign, decimal digits.
    [None] stands for [ValueError]. *)
Definition int (s : string) : option Z :=
  match strip s with
  | String "+" r => digits_value 0 false r
  | String "-" r => Z.opp <$> digits_value 0 false r
  | t => digits_value 0 false t
  end.

(** [s.isascii()] *)
Fixpoint isascii (s : string) : bool :=
  match s with
  | EmptyString => true
  | String c s' => (nat_of_ascii c <? 128)%nat && isascii s'
  end.

(** [s.rfind(c)]: the index of the last [c]. *)
Fixpoint rfind_from (c : ascii) (i : nat) (s : string) : option nat :=
  match s with
  | EmptyString => None
  | String a s' =>
      match rfind_from c (S i) s' with
      | Some j => Some j
      | None => if decide (a = c) then Some i else None
      end
  end.

Definition rfind (c : ascii) (s : string) : option nat := rfind_from c 0 s.

(** [s[i:]] and [s[:i]]. *)
Fixpoint slice_from (i : nat) (s : string) : string :=
  match i, s with
  | O, _ => s
  | S i', String _ s' => slice_from i' s'
  | S _, EmptyString => EmptyString
  end.

Fixpoint slice_to (i : nat) (s : string) : string :=
  match i, s with
  | O, _ => EmptyString
  | S i', String c s' => String c (slice_to i' s')
  | S _, EmptyString => EmptyString
  end.

End PyStr.

(* ================================================================== *)
(** * Exceptions and outcomes *)

Inductive exn : Type :=
  | FileNotFoundError
  | PermissionError
  | FileExistsError
  | NotADirectoryError
  | IsADirectoryError
  | OSError            (* any other [OSError]: ELOOP, ENOTEMPTY, ... *)
  | ValueError
  | ShutilError        (* [shutil.Error] *)
  | RuntimeError.      (* a loop of links met by [resolve()], before Python 3.13 *)

#[global] Instance exn_eq_dec : EqDecision exn.
Proof. solve_decision. Defined.

Inductive outcome (A : Type) : Type :=
  | Ret (a : A)
  | Raise (e : exn)
  | Hang.

Arguments Ret {A} a.
Arguments Raise {A} e.
Arguments Hang {A}.

(* ================================================================== *)
(** * pathlib, POSIX flavour *)

Abbreviation Path := (list string).

Module Pathlib.

(** The components of a path written as a string: empty components and
    [.] are dropped, as [PurePosixPath] does. *)
Definition components (s : string) : Path :=
  filter (λ c, c ≠ EmptyString ∧ c ≠ ".") (PyStr.split "/" s).

Definition is_absolute (s : string) : bool :=
  match s with
  | String "/" _ => true
  | _ => false
  end.

(** [p / s]: an absolute right-hand side replaces the left. *)
Definition joinpath (p : Path) (s : string) : Path :=
  if is_absolute s then components s else p ++ components s.

(** [p.name]: the last component, empty for the root. *)
Definition name (p : Path) : string := List.last p EmptyString.

(** [p.parent]; the root is its own parent. *)
Definition parent (p : Path) : Path := removelast p.

(** [p.suffix], read off the name:
    [i = name.rfind('.'); name[i:] if 0 < i < len(name) - 1 else ''] *)
Definition suffix_of (nm : string) : string :=
  match PyStr.rfind "." nm with
  | Some i =>
      if (0 <? i)%nat && (i <? String.length nm - 1)%nat
      then PyStr.slice_from i nm else EmptyString
  | None => EmptyString
  end.

Definition suffix (p : Path) : string := suffix_of (name p).

(** [p.with_suffix(sfx)].  [ValueError] for a suffix holding a separator,
    not starting with a dot or being one dot, and for a path with an
    empty name. *)
Definition valid_suffix (sfx : string) : bool :=
  match sfx with
  | EmptyString => true
  | String "." EmptyString => false
  | String "." _ => bool_decide (PyStr.partition "/" sfx = None)
  | _ => false
  end.

Definition with_suffix (p : Path) (sfx : string) : outcome Path :=
  if negb (valid_suffix sfx) then Raise ValueError
  else
    let nm := name p in
    if decide (nm = EmptyString) then Raise ValueError
    else
      let old := suffix_of nm in
      let nm' :=
        if decide (old = EmptyString) then nm +:+ sfx
        else PyStr.slice_to (String.length nm - String.length old)%nat nm +:+ sfx in
      Ret (parent p ++ [nm']).

(** [p.relative_to(base)]: [ValueError] unless [base] is a prefix. *)
Definition relative_to (p base : Path) : outcome Path :=
  if decide (base `prefix_of` p) then Ret (drop (length base) p)
  else Raise ValueError.

(** [Path(p.name)]. *)
Definition of_name (p : Path) : Path := components (name p).

End Pathlib.

(* ================================================================== *)
(** * The file system

    A file system is a finite map from paths to nodes; the root is the
    entry at [[]].  A regular file carries its bytes, its modification
    time and its permission bits.  Symbolic links hold the path they
    point to; [stat] follows them, at most [MAXSYMLINKS] times. *)

Inductive node : Type :=
  | File (data : string) (mtime : Z) (mode : Z)
  | Dir
  | Symlink (target : Path).

#[global] Instance node_eq_dec : EqDecision node.
Proof. solve_decision. Defined.

Record stat_result : Type := {
  st_size : Z;
  st_mtime : Z;
  st_mode : Z;
  st_isdir : bool
}.

(** A call on the file system: an outcome and the file system it leaves. *)
Definition FsM (A : Type) : Type := gmap Path node → outcome A * gmap Path node.

Module Fs.

Definition S_IWRITE : Z := 128.
Definition MAXSYMLINKS : nat := 40.

(** The node a path leads to and where it really is, links followed. *)
Fixpoint follow (hops : nat) (fs : gmap Path node) (p : Path) : outcome (Path * node) :=
  match fs !! p with
  | None => Raise FileNotFoundError
  | Some (Symlink t) =>
      match hops with
      | O => Raise OSError
      | S h => follow h fs t
      end
  | Some nd => Ret (p, nd)
  end.

(** The engine reads [st_size], [st_mtime] and [st_mode] of regular files
    only; for a directory the model reports zeros. *)
Definition stat_of (nd : node) : stat_result :=
  match nd with
  | File d mt md =>
      {| st_size := Z.of_nat (String.length d); st_mtime := mt;
         st_mode := md; st_isdir := false |}
  | _ => {| st_size := 0; st_mtime := 0; st_mode := 0; st_isdir := true |}
  end.

(** [p.stat()] *)
Definition stat (fs : gmap Path node) (p : Path) : outcome stat_result :=
  match follow MAXSYMLINKS fs p with
  | Ret (_, nd) => Ret (stat_of nd)
  | Raise e => Raise e
  | Hang => Hang
  end.

(** Whether [stat] finds something at [p].  [p.exists()] and
    [p.is_dir()] answer [False] when [stat] fails with ENOENT, ENOTDIR,
    EBADF or ELOOP, which are the failures of [stat] above; any other
    error of the host is raised by them (see [base_exists]). *)
Definition exists_ (fs : gmap Path node) (p : Path) : bool :=
  match stat fs p with
  | Ret _ => true
  | _ => false
  end.

Definition is_dir (fs : gmap Path node) (p : Path) : bool :=
  match stat fs p with
  | Ret st => st_isdir st
  | _ => false
  end.

(** [p.is_symlink()] looks at the entry itself. *)
Definition is_symlink (fs : gmap Path node) (p : Path) : bool :=
  match fs !! p with
  | Some (Symlink _) => true
  | _ => false
  end.

(** The order in which the file system lists its entries. *)
Definition listing (fs : gmap Path node) : list Path := (map_to_list fs).*1.

Definition strictly_under (base p : Path) : bool :=
  bool_decide (base `prefix_of` p) && negb (bool_decide (p = base)).

(** The entries of directory [d]. *)
Definition children (fs : gmap Path node) (d : Path) : list Path :=
  filter (λ k, k ≠ [] ∧ Pathlib.parent k = d) (listing fs).

(** [p.chmod(mode)] *)
Definition chmod (p : Path) (mode : Z) : FsM unit := λ fs,
  match follow MAXSYMLINKS fs p with
  | Ret (q, File d mt _) => (Ret tt, <[q := File d mt mode]> fs)
  | Ret _ => (Ret tt, fs)
  | Raise e => (Raise e, fs)
  | Hang => (Hang, fs)
  end.

(** The nearest ancestor of [p] that is there: the entry at the longest
    prefix of [p] of at most [n] components. *)
Fixpoint nearest (fs : gmap Path node) (p : Path) (n : nat) : option (Path * node) :=
  match fs !! take n p with
  | Some nd => Some (take n p, nd)
  | None =>
      match n with
      | O => None
      | S m => nearest fs p m
      end
  end.

(** [p.unlink(missing_ok=True)]: of the errors of [os.unlink] only
    [FileNotFoundError] is swallowed.  When nothing is at [p], the
    nearest ancestor that is there decides: below a directory the path
    is missing (ENOENT, swallowed); below a regular file the call fails
    with ENOTDIR; below a link to a directory the call goes on at the
    place the link leads to. *)
Fixpoint unlink_from (hops : nat) (p : Path) : FsM unit := λ fs,
  match fs !! p with
  | Some Dir => (Raise IsADirectoryError, fs)
  | Some _ => (Ret tt, delete p fs)
  | None =>
      match nearest fs p (length p - 1) with
      | Some (_, File _ _ _) => (Raise NotADirectoryError, fs)
      | Some (a, Symlink _) =>
          match follow MAXSYMLINKS fs a with
          | Ret (q, Dir) =>
              match hops with
              | O => (Raise OSError, fs)
              | S h => unlink_from h (q ++ drop (length a) p) fs
              end
          | Ret _ => (Raise NotADirectoryError, fs)
          | Raise FileNotFoundError => (Ret tt, fs)
          | Raise e => (Raise e, fs)
          | Hang => (Hang, fs)
          end
      | _ => (Ret tt, fs)
      end
  end.

Definition unlink (p : Path) : FsM unit := unlink_from MAXSYMLINKS p.

(** [os.mkdir(p)] *)
Definition os_mkdir (p : Path) : FsM unit := λ fs,
  match fs !! p with
  | Some _ => (Raise FileExistsError, fs)
  | None =>
      match follow MAXSYMLINKS fs (Pathlib.parent p) with
      | Ret (_, Dir) => (Ret tt, <[p := Dir]> fs)
      | Ret _ => (Raise NotADirectoryError, fs)
      | Raise e => (Raise e, fs)
      | Hang => (Hang, fs)
      end
  end.

(** [p.mkdir(parents=False, exist_ok=True)] *)
Definition mkdir_exist_ok (p : Path) : FsM unit := λ fs,
  match os_mkdir p fs with
  | (Ret tt, fs') => (Ret tt, fs')
  | (Raise FileNotFoundError, fs') => (Raise FileNotFoundError, fs')
  | (Raise e, fs') => if is_dir fs' p then (Ret tt, fs') else (Raise e, fs')
  | (Hang, fs') => (Hang, fs')
  end.

(** [p.mkdir(parents=True, exist_ok=True)], as pathlib writes it: try
    [os.mkdir]; on [FileNotFoundError] make the parent the same way and
    try once more.  [fuel] bounds the climb; the length of [p] is enough. *)
Fixpoint mkdir_parents (fuel : nat) (p : Path) : FsM unit := λ fs,
  match os_mkdir p fs with
  | (Ret tt, fs') => (Ret tt, fs')
  | (Raise FileNotFoundError, fs') =>
      match fuel with
      | O => (Raise FileNotFoundError, fs')
      | S f =>
          if decide (Pathlib.parent p = p) then (Raise FileNotFoundError, fs')
          else
            match mkdir_parents f (Pathlib.parent p) fs' with
            | (Ret tt, fs1) => mkdir_exist_ok p fs1
            | other => other
            end
      end
  | (Raise e, fs') => if is_dir fs' p then (Ret tt, fs') else (Raise e, fs')
  | (Hang, fs') => (Hang, fs')
  end.

Definition mkdir (p : Path) : FsM unit := mkdir_parents (length p) p.

(** Moving a whole directory: every entry under [src] is re-rooted at
    [dst]. *)
Definition rebase (src dst : Path) (k : Path) : Path :=
  if decide (src `prefix_of` k) then dst ++ drop (length src) k else k.

Definition move_tree (src dst : Path) (fs : gmap Path node) : gmap Path node :=
  list_to_map (prod_map (rebase src dst) id <$> map_to_list fs).

(** [os.rename(src, dst)] on one device. *)
Definition rename (src dst : Path) : FsM unit := λ fs,
  match fs !! src with
  | None => (Raise FileNotFoundError, fs)
  | Some nd =>
      if negb (is_dir fs (Pathlib.parent dst)) then (Raise FileNotFoundError, fs)
      else if decide (src = dst) then (Ret tt, fs)
      else
        match nd, fs !! dst with
        | Dir, None => (Ret tt, move_tree src dst fs)
        | Dir, Some Dir =>
            if decide (children fs dst = []) then (Ret tt, move_tree src dst fs)
            else (Raise OSError, fs)
        | Dir, Some _ => (Raise NotADirectoryError, fs)
        | _, Some Dir => (Raise IsADirectoryError, fs)
        | _, _ => (Ret tt, <[dst := nd]> (delete src fs))
        end
  end.

(** [shutil.move(src, dst)]: into [dst] when [dst] is a directory, onto
    it otherwise.  The copy-and-remove that shutil falls back to when
    [os.rename] fails across devices leaves the same file system. *)
Definition move (src dst : Path) : FsM unit := λ fs,
  if is_dir fs dst then
    if decide (src = dst) then rename src dst fs
    else
      let real_dst := dst ++ [Pathlib.name src] in
      if bool_decide (is_Some (fs !! real_dst)) then (Raise ShutilError, fs)
      else rename src real_dst fs
  else rename src dst fs.

(** [p.iterdir()], read to the end. *)
Definition iterdir (fs : gmap Path node) (p : Path) : outcome (list Path) :=
  match stat fs p with
  | Ret st => if st_isdir st then Ret (children fs p) else Raise NotADirectoryError
  | Raise e => Raise e
  | Hang => Hang
  end.

(** [p.rmdir()] *)
Definition rmdir (p : Path) : FsM unit := λ fs,
  match fs !! p with
  | None => (Raise FileNotFoundError, fs)
  | Some Dir =>
      if decide (children fs p = []) then (Ret tt, delete p fs)
      else (Raise OSError, fs)
  | Some _ => (Raise NotADirectoryError, fs)
  end.

(** The directories [os.walk(base, topdown=False)] yields as [root]:
    [base] and every directory below it, each after the ones inside it.
    Symbolic links to directories are not walked. *)
Definition deeper (p q : Path) : Prop := (length q ≤ length p)%nat.

#[global] Instance deeper_dec : RelDecision deeper.
Proof. intros p q. unfold deeper. apply _. Defined.

Definition walk_bottom_up (fs : gmap Path node) (base : Path) : list Path :=
  merge_sort deeper
    (filter (λ k, base `prefix_of` k ∧ fs !! k = Some Dir) (listing fs)).

(** [base.rglob(pattern)], read to the end: the entries below [base]
    whose path relative to [base] the compiled pattern accepts. *)
Definition rglob (accepts : Path → bool) (fs : gmap Path node) (base : Path) : list Path :=
  filter (λ k, strictly_under base k ∧ accepts (drop (length base) k)) (listing fs).

End Fs.

(* ================================================================== *)
(** * Rules, configuration, scan results *)

(** [action] is a string: [ActionType] is a type hint only, and a rule
    read from the rules file may carry any text there. *)
Record PathRule : Type := {
  name : string;
  path : string;
  patterns : list string;
  min_age_days : Z;
  remove_empty_dirs : bool;
  action : string;
  enabled : bool
}.

Record AppConfig : Type := {
  dry_run : bool;
  quarantine_enabled : bool;
  follow_symlinks : bool;
  max_delete_per_rule : Z;
  max_total_delete : Z;
  log_age_off_days : Z;
  hard_recycle_only : bool
}.

Record ScanResult : Type := {
  rule : PathRule;
  files : list Path;
  total_size : Z
}.

(** [AppConfig()] *)
Definition default_config : AppConfig := {|
  dry_run := true;
  quarantine_enabled := true;
  follow_symlinks := false;
  max_delete_per_rule := 50000;
  max_total_delete := 200000;
  log_age_off_days := 30;
  hard_recycle_only := false
|}.

(** A line handed to the [log] callback of the engine or to
    [_log_to_ui]: a text, or the engine's [f"Failed: {p} → {e}"], whose
    [str(e)] is not modelled. *)
Inductive log_line : Type :=
  | Said (msg : string)
  | FailedLine (p : Path) (e : exn).

(** What the host platform supplies. *)
Class Platform : Type := {
  (** pathlib's reading of an [rglob] pattern as a test on the path
      relative to the base; [None] when pathlib refuses the pattern. *)
  glob_compile : string → option (Path → bool);
  (** [Path(os.path.expandvars(os.path.expanduser(s))).resolve()], when
      [resolve()] returns. *)
  expand : string → Path;
  (** The exception [resolve()] raises for a path text instead of
      returning: [RuntimeError] for a loop of links (before Python
      3.13), [ValueError] for an embedded null character.  [None] when
      it returns. *)
  resolve_error : string → option exn;
  (** The error with which the host refuses to look up the base of a
      rule, when it is not one of those that [Path.exists()] answers
      [False] to (ENOENT, ENOTDIR, EBADF, ELOOP): ENAMETOOLONG for a
      name beyond the host's limits, EACCES behind a directory that may
      not be searched.  [None] when the host looks the path up.  The
      entries a file system lists lie within reach. *)
  base_error : Path → option exn;
  (** [Path.home()] *)
  home : Path;
  (** [send2trash], [None] when the import failed. *)
  send2trash : option (Path → FsM unit);
  (** What the handler that [_setup_logging] puts on the application's
      logger does to the file system with one line, at a given time: a
      [RotatingFileHandler] on [logs/garbage_cleaner.log], which appends
      the line and rotates the file past two million bytes.  Its own
      errors stay inside [logging]. *)
  log_handler : Z → log_line → gmap Path node → gmap Path node
}.

(** [QUARANTINE_DIR] *)
Definition QUARANTINE_DIR `{Platform} : Path :=
  Pathlib.joinpath home ".garbage_cleaner_quarantine".

(** [PathRule.resolve_base]: the path it returns, and the call, which
    raises what [resolve()] raises. *)
Definition resolve_base `{Platform} (r : PathRule) : Path := expand (path r).

Definition resolve_base_call `{Platform} (r : PathRule) : outcome Path :=
  match resolve_error (path r) with
  | Some e => Raise e
  | None => Ret (resolve_base r)
  end.

(* ================================================================== *)
(** * The engine object and the world around it *)

Record Engine : Type := {
  cfg : AppConfig;
  total_deleted : Z;
  _stop : bool;
  _pause : bool
}.

(** A call another thread makes on the engine. *)
Inductive flag_op : Type :=
  | CallStop                          (* [engine.stop()], from [cancel_ops] *)
  | CallTogglePause (value : bool)    (* [engine.toggle_pause(value)] *)
  | CallClearStop.                    (* [engine._stop.clear()], from [scan_async] and [clean_async] *)

Record world : Type := {
  w_fs : gmap Path node;
  w_now : Z;                           (* what [time.time()] returns *)
  w_self : Engine;
  w_others : list (list flag_op);      (* calls of other threads, to come *)
  w_log : list (Path * exn)            (* what the [log] callback was given *)
}.

Definition set_fs (fs : gmap Path node) (w : world) : world :=
  {| w_fs := fs; w_now := w_now w; w_self := w_self w;
     w_others := w_others w; w_log := w_log w |}.

Definition set_engine (e : Engine) (others : list (list flag_op)) (w : world) : world :=
  {| w_fs := w_fs w; w_now := w_now w; w_self := e;
     w_others := others; w_log := w_log w |}.

Definition add_log (p : Path) (e : exn) (w : world) : world :=
  {| w_fs := w_fs w; w_now := w_now w; w_self := w_self w;
     w_others := w_others w; w_log := w_log w ++ [(p, e)] |}.

(** ** Computations that read and write a state and may raise *)

Definition M (S A : Type) : Type := S → outcome A * S.

#[global] Instance M_ret {S} : MRet (M S) := λ A a s, (Ret a, s).

#[global] Instance M_bind {S} : MBind (M S) := λ A B k m s,
  match m s with
  | (Ret a, s') => k a s'
  | (Raise e, s') => (Raise e, s')
  | (Hang, s') => (Hang, s')
  end.

Definition raise {S A} (e : exn) : M S A := λ s, (Raise e, s).

(** [try: body except ...: handler]; a handler that does not match
    re-raises. *)
Definition try_except {S A} (body : M S A) (handler : exn → M S A) : M S A := λ s,
  match body s with
  | (Raise e, s') => handler e s'
  | other => other
  end.

Definition gets {S A} (f : S → A) : M S A := λ s, (Ret (f s), s).

Definition modify {S} (f : S → S) : M S unit := λ s, (Ret tt, f s).

(** An outcome computed without touching the state. *)
Definition pure_call {S A} (o : outcome A) : M S A := λ s, (o, s).

(** A read of the file system, and a call that changes it. *)
Definition fs_read {A} (f : gmap Path node → A) : M world A :=
  gets (λ w, f (w_fs w)).

Definition fs_try {A} (f : gmap Path node → outcome A) : M world A := λ w,
  (f (w_fs w), w).

Definition fs_call {A} (f : FsM A) : M world A := λ w,
  let '(o, fs') := f (w_fs w) in (o, set_fs fs' w).

(** A computation on the world, run beside local variables [L]. *)
Definition in_world {L A} (m : M world A) : M (world * L) A := λ s,
  let '(o, w') := m s.1 in (o, (w', s.2)).

(** [base.exists()] for the base of a rule: an error of the host other
    than ENOENT, ENOTDIR, EBADF and ELOOP is raised, not answered
    [False]. *)
Definition base_exists `{Platform} (base : Path) : M world bool :=
  match base_error base with
  | Some e => raise e
  | None => fs_read (λ fs, Fs.exists_ fs base)
  end.

(* ================================================================== *)
(** * CleanerEngine *)

(** The local variables of [enumerate_rule]: the result under
    construction and the set of paths already taken. *)
Record scan_vars : Type := {
  res : ScanResult;
  seen : gset Path
}.

(** How a loop body ends: on to the next item, out of the loop, or out
    of the function. *)
Inductive flow : Type := Continue | Break | Return.

Module CleanerEngine.

Section Methods.
Context `{Platform}.

(** [__init__] *)
Definition init (c : AppConfig) : Engine :=
  {| cfg := c; total_deleted := 0; _stop := false; _pause := false |}.

(** [stop]: [self._stop.set(); self._pause.clear()] *)
Definition stop (self : Engine) : Engine :=
  {| cfg := cfg self; total_deleted := total_deleted self;
     _stop := true; _pause := false |}.

(** [toggle_pause] *)
Definition toggle_pause (self : Engine) (value : bool) : Engine :=
  if value then
    {| cfg := cfg self; total_deleted := total_deleted self;
       _stop := _stop self; _pause := true |}
  else
    {| cfg := cfg self; total_deleted := total_deleted self;
       _stop := _stop self; _pause := false |}.

Definition apply_call (self : Engine) (op : flag_op) : Engine :=
  match op with
  | CallStop => stop self
  | CallTogglePause value => toggle_pause self value
  | CallClearStop =>
      {| cfg := cfg self; total_deleted := total_deleted self;
         _stop := false; _pause := _pause self |}
  end.

(** The other threads get to run: their next batch of calls is made. *)
Definition others_run (w : world) : world :=
  match w_others w with
  | [] => w
  | batch :: rest => set_engine (foldl apply_call (w_self w) batch) rest w
  end.

(** [wait_if_paused]:
    [while self._pause.is_set() and not self._stop.is_set(): time.sleep(0.1)].
    The other threads run during each sleep.  [None]: the loop is still
    waiting when no call of another thread is left to come. *)
Fixpoint wait_loop (self : Engine) (others : list (list flag_op))
  : option (Engine * list (list flag_op)) :=
  if _pause self && negb (_stop self) then
    match others with
    | [] => None
    | batch :: rest => wait_loop (foldl apply_call self batch) rest
    end
  else Some (self, others).

Definition wait_if_paused : M world unit := λ w,
  match wait_loop (w_self w) (w_others w) with
  | Some (e, others) => (Ret tt, set_engine e others w)
  | None => (Hang, w)
  end.

(** The head of every per-file loop: [if self._stop.is_set(): ...],
    read after the other threads had their turn. *)
Definition stop_is_set : M world bool :=
  modify others_run;; gets (λ w, _stop (w_self w)).

(** [older_than] *)
Definition older_than (p : Path) (cutoff : Z) : M world bool :=
  try_except
    (st ← fs_try (λ fs, Fs.stat fs p);
     mret (bool_decide (st_mtime st < cutoff)))
    (λ e, match e with
          | FileNotFoundError | PermissionError => mret false
          | _ => raise e
          end).

Definition add_file (p : Path) (v : scan_vars) : scan_vars :=
  {| res := {| rule := rule (res v); files := files (res v) ++ [p];
               total_size := total_size (res v) |};
     seen := {[p]} ∪ seen v |}.

Definition add_size (n : Z) (v : scan_vars) : scan_vars :=
  {| res := {| rule := rule (res v); files := files (res v);
               total_size := total_size (res v) + n |};
     seen := seen v |}.

(** The inner [try] of [enumerate_rule], for one path the generator
    yields. *)
Definition scan_file (r : PathRule) (cutoff : Z) (p : Path) : M (world * scan_vars) flow :=
  try_except
    (already ← gets (λ s, bool_decide (p ∈ seen s.2));
     d ← (if already : bool then mret true
          else in_world (fs_read (λ fs, Fs.is_dir fs p)));
     if d : bool then mret Continue else
     c ← gets (λ s, cfg (w_self s.1));
     l ← (if negb (follow_symlinks c)
          then in_world (fs_read (λ fs, Fs.is_symlink fs p))
          else mret false);
     if l : bool then mret Continue else
     young ← (if bool_decide (0 < min_age_days r)
              then (o ← in_world (older_than p cutoff); mret (negb o))
              else mret false);
     if young : bool then mret Continue else
     modify (λ s, (s.1, add_file p s.2));;
     try_except
       (st ← in_world (fs_try (λ fs, Fs.stat fs p));
        modify (λ s, (s.1, add_size (st_size st) s.2)))
       (λ _, mret tt);;
     n ← gets (λ s, Z.of_nat (length (files (res s.2))));
     if bool_decide (max_delete_per_rule c ≤ n) then mret Break else mret Continue)
    (λ e, match e with
          | PermissionError | FileNotFoundError => mret Continue
          | _ => raise e
          end).

(** [for p in base.rglob(pattern): ...] over what the generator yields. *)
Fixpoint scan_candidates (r : PathRule) (cutoff : Z) (cands : list Path)
  : M (world * scan_vars) flow :=
  match cands with
  | [] => mret Continue
  | p :: rest =>
      stopped ← in_world stop_is_set;
      if stopped : bool then mret Return else
      in_world wait_if_paused;;
      fl ← scan_file r cutoff p;
      match fl with
      | Continue => scan_candidates r cutoff rest
      | Break => mret Break
      | Return => mret Return
      end
  end.

(** [base.rglob(pattern)] *)
Definition rglob (base : Path) (pattern : string) : M world (list Path) :=
  match glob_compile pattern with
  | None => raise ValueError
  | Some accepts => fs_read (λ fs, Fs.rglob accepts fs base)
  end.

(** [for pattern in rule.patterns: try: ... except Exception: continue] *)
Fixpoint scan_patterns (r : PathRule) (base : Path) (cutoff : Z) (pats : list string)
  : M (world * scan_vars) unit :=
  match pats with
  | [] => mret tt
  | pattern :: rest =>
      fl ← try_except
             (cands ← in_world (rglob base pattern);
              scan_candidates r cutoff cands)
             (λ _, mret Continue);
      match fl with
      | Return => mret tt
      | _ => scan_patterns r base cutoff rest
      end
  end.

Definition with_locals {L A} (l : L) (m : M (world * L) A) : M world A := λ w,
  let '(o, s) := m (w, l) in (o, s.1).

(** [enumerate_rule] *)
Definition enumerate_rule (r : PathRule) : M world ScanResult :=
  let res0 := {| rule := r; files := []; total_size := 0 |} in
  if negb (enabled r) then mret res0 else
  base ← pure_call (resolve_base_call r);
  found ← base_exists base;
  if negb found then mret res0 else
  now ← gets w_now;
  let cutoff := now - min_age_days r * 86400 in
  with_locals {| res := res0; seen := ∅ |}
    (scan_patterns r base cutoff (patterns r);; gets (λ s, res s.2)).

(** [_resolve_action] *)
Definition _resolve_action (self : Engine) (r : PathRule) : string :=
  if hard_recycle_only (cfg self) then "recycle" else action r.

(** [ensure_quarantine] *)
Definition ensure_quarantine : M world Path :=
  fs_call (Fs.mkdir QUARANTINE_DIR);; mret QUARANTINE_DIR.

(** A [log] callback that does nothing but keep the line: it appends
    to [w_log]. *)
Definition keep_line (p : Path) (e : exn) : M world unit := modify (add_log p e).

(** [_recycle_or_quarantine_or_delete], with the [log] callback it is
    given; the callback gets the path and the exception of
    [f"Failed: {p} → {e}"]. *)
Definition _recycle_or_quarantine_or_delete_to (log : Path → exn → M world unit)
  (p : Path) (r : PathRule) : M world bool :=
  try_except
    (self ← gets w_self;
     if dry_run (cfg self) then mret true else
     let action := _resolve_action self r in
     match (if bool_decide (action = "recycle") then send2trash else None) with
     | Some trash => fs_call (trash p);; mret true
     | None =>
         if bool_decide (action = "delete") || negb (quarantine_enabled (cfg self)) then
           try_except
             (st ← fs_try (λ fs, Fs.stat fs p);
              fs_call (Fs.chmod p (Z.lor (st_mode st) Fs.S_IWRITE)))
             (λ _, mret tt);;
           fs_call (Fs.unlink p);;
           mret true
         else
           q ← ensure_quarantine;
           let qroot := Pathlib.joinpath q (name r) in
           fs_call (Fs.mkdir qroot);;
           rel ← try_except
                   (base ← pure_call (resolve_base_call r);
                    pure_call (Pathlib.relative_to p base))
                   (λ _, mret (Pathlib.of_name p));
           dest ← pure_call (Pathlib.with_suffix (qroot ++ rel) (Pathlib.suffix p));
           fs_call (Fs.mkdir (Pathlib.parent dest));;
           fs_call (Fs.move p dest);;
           mret true
     end)
    (λ e, log p e;; mret false).

(** The same with a callback that keeps the line. *)
Definition _recycle_or_quarantine_or_delete (p : Path) (r : PathRule) : M world bool :=
  _recycle_or_quarantine_or_delete_to keep_line p r.

(** [act_on_files]: the loop, with its two counters. *)
Fixpoint act_loop_to (log : Path → exn → M world unit) (r : PathRule) (ps : list Path)
  (deleted_files freed_bytes : Z) : M world (Z * Z) :=
  match ps with
  | [] => mret (deleted_files, freed_bytes)
  | p :: rest =>
      stopped ← stop_is_set;
      if stopped : bool then mret (deleted_files, freed_bytes) else
      wait_if_paused;;
      c ← gets (λ w, cfg (w_self w));
      if bool_decide (max_total_delete c ≤ deleted_files)
      then mret (deleted_files, freed_bytes) else
      size ← try_except
               (st ← fs_try (λ fs, Fs.stat fs p); mret (st_size st))
               (λ _, mret 0);
      ok ← _recycle_or_quarantine_or_delete_to log p r;
      if ok : bool then act_loop_to log r rest (deleted_files + 1) (freed_bytes + size)
      else act_loop_to log r rest deleted_files freed_bytes
  end.

Definition act_on_files_to (log : Path → exn → M world unit) (sr : ScanResult)
  : M world (Z * Z) :=
  act_loop_to log (rule sr) (files sr) 0 0.

(** The same with a callback that keeps the line. *)
Definition act_loop (r : PathRule) (ps : list Path) (deleted_files freed_bytes : Z)
  : M world (Z * Z) :=
  act_loop_to keep_line r ps deleted_files freed_bytes.

Definition act_on_files (sr : ScanResult) : M world (Z * Z) :=
  act_loop (rule sr) (files sr) 0 0.

(** [cleanup_empty_dirs]: the loop over what [os.walk] yields. *)
Fixpoint cleanup_loop (roots : list Path) : M world unit :=
  match roots with
  | [] => mret tt
  | root :: rest =>
      stopped ← stop_is_set;
      if stopped : bool then mret tt else
      wait_if_paused;;
      try_except
        (entries ← fs_try (λ fs, Fs.iterdir fs root);
         if bool_decide (entries = []) then fs_call (Fs.rmdir root) else mret tt)
        (λ _, mret tt);;
      cleanup_loop rest
  end.

Definition cleanup_empty_dirs (base : Path) : M world unit :=
  c ← gets (λ w, cfg (w_self w));
  if dry_run c then mret tt else
  roots ← fs_read (λ fs, Fs.walk_bottom_up fs base);
  cleanup_loop roots.

End Methods.

End CleanerEngine.

(* ================================================================== *)
(** * Local date and time *)

(** A naive [datetime]: the day as the ordinal of its date, and the time
    of day. *)
Record datetime : Type := {
  day : Z;
  hour : Z;
  minute : Z;
  second : Z;
  microsecond : Z
}.

Module Datetime.

(** Microseconds since the start of day 0. *)
Definition micros (d : datetime) : Z :=
  (((day d * 24 + hour d) * 60 + minute d) * 60 + second d) * 1000000
  + microsecond d.

(** [d.replace(hour=hh, minute=mm, second=0, microsecond=0)] *)
Definition replace_hm (d : datetime) (hh mm : Z) : outcome datetime :=
  if bool_decide (0 ≤ hh ≤ 23) && bool_decide (0 ≤ mm ≤ 59)
  then Ret {| day := day d; hour := hh; minute := mm; second := 0; microsecond := 0 |}
  else Raise ValueError.

(** [a >= b] and [a - b], the latter a [timedelta] in microseconds. *)
Definition ge (a b : datetime) : bool := bool_decide (micros b ≤ micros a).
Definition sub (a b : datetime) : Z := micros a - micros b.

(** [timedelta(seconds=s)] *)
Definition seconds (s : Z) : Z := s * 1000000.

End Datetime.

(* ================================================================== *)
(** * SimpleScheduler and the schedule form of CleanerApp *)

(** A schedule entry is a dict of strings. *)
Abbreviation task := (gmap string string).

(** The host application's entry points a schedule can start. *)
Inductive entry_point : Type :=
  | scan_async
  | clean_async
  | purge_pip_cache_async
  | purge_npm_cache_async.

(** The part of the application the scheduler and its form work on. *)
Record AppState : Type := {
  tasks : list task;                    (* [scheduler.tasks] *)
  _h : option nat;                      (* [scheduler._h] *)
  schedule_file : option (list task);   (* the schedule document *)
  s_name : string;                      (* the form's variables *)
  s_action : string;
  s_time : string;
  toasts : list string;                 (* what [_toast] showed *)
  txt_log : list string;                (* what [_log_to_ui] wrote *)
  started : list entry_point;           (* entry points called *)
  timers : list (nat * Z);              (* pending [root.after]: handle, ms *)
  _after_handles : list nat
}.



Definition set_timer (h : option nat) (ts : list (nat * Z)) (a : AppState) : AppState :=
  {| tasks := tasks a; _h := h; schedule_file := schedule_file a;
     s_name := s_name a; s_action := s_action a; s_time := s_time a;
     toasts := toasts a; txt_log := txt_log a; started := started a;
     timers := ts; _after_handles := _after_handles a |}.

Definition set_after_handles (hs : list nat) (a : AppState) : AppState :=
  {| tasks := tasks a; _h := _h a; schedule_file := schedule_file a;
     s_name := s_name a; s_action := s_action a; s_time := s_time a;
     toasts := toasts a; txt_log := txt_log a; started := started a;
     timers := timers a; _after_handles := hs |}.

Definition set_feedback (shown logged : list string) (calls : list entry_point)
  (a : AppState) : AppState :=
  {| tasks := tasks a; _h := _h a; schedule_file := schedule_file a;
     s_name := s_name a; s_action := s_action a; s_time := s_time a;
     toasts := shown; txt_log := logged; started := calls;
     timers := timers a; _after_handles := _after_handles a |}.

Module CleanerApp.


Definition _log_to_ui (msg : string) : M AppState unit :=
  modify (λ a, set_feedback (toasts a) (txt_log a ++ [msg]) (started a) a).

(** A call of one of the asynchronous entry points. *)
Definition start (ep : entry_point) : M AppState unit :=
  modify (λ a, set_feedback (toasts a) (txt_log a) (started a ++ [ep]) a).

(** [root.after(ms, callback)]: a fresh handle. *)
Definition fresh_handle (a : AppState) : nat :=
  S (foldr Nat.max 0%nat (timers a).*1).

Definition after (ms : Z) : M AppState nat := λ a,
  let h := fresh_handle a in
  (Ret h, set_timer (_h a) (timers a ++ [(h, ms)]) a).

(** [root.after_cancel(h)] *)
Definition after_cancel (h : nat) : M AppState unit :=
  modify (λ a, set_timer (_h a) (filter (λ t, t.1 ≠ h) (timers a)) a).

(** [register_after] *)
Definition register_after (h : nat) : M AppState unit :=
  modify (λ a, set_after_handles (_after_handles a ++ [h]) a).



End CleanerApp.

Module SimpleScheduler.

(** [stop] *)
Definition stop : M AppState unit :=
  h ← gets _h;
  match h with
  | Some id =>
      try_except (CleanerApp.after_cancel id) (λ _, mret tt);;
      modify (λ a, set_timer None (timers a) a)
  | None => mret tt
  end.



(** [_run_action] *)
Definition _run_action (action : string) : M AppState unit :=
  let a := PyStr.strip (PyStr.lower action) in
  if bool_decide (a = "scan") then CleanerApp.start scan_async
  else if bool_decide (a = "clean") then CleanerApp.start clean_async
  else if bool_decide (a = "purge_pip") then CleanerApp.start purge_pip_cache_async
  else if bool_decide (a = "purge_npm") then CleanerApp.start purge_npm_cache_async
  else CleanerApp._log_to_ui ("Unknown scheduled action: " +:+ action).

(** [hh, mm = [int(x) for x in time_str.split(":", 1)]] *)
Definition parse_hh_mm (time_str : string) : outcome (Z * Z) :=
  match mapM PyStr.int (PyStr.split1 ":" time_str) with
  | Some [hh; mm] => Ret (hh, mm)
  | _ => Raise ValueError
  end.

(** [now >= target and now - target < timedelta(seconds=30)] *)
Definition in_window (now target : datetime) : bool :=
  Datetime.ge now target
  && bool_decide (Datetime.sub now target < Datetime.seconds 30).

(** The body of [_tick]'s loop for one entry. *)
Definition tick_task (now : datetime) (t : task) : M AppState unit :=
  try_except
    ('(hh, mm) ← pure_call (parse_hh_mm (default "00:00" (t !! "time")));
     target ← pure_call (Datetime.replace_hm now hh mm);
     if in_window now target
     then _run_action (default "" (t !! "action"))
     else mret tt)
    (λ _, mret tt).

Fixpoint tick_tasks (now : datetime) (ts : list task) : M AppState unit :=
  match ts with
  | [] => mret tt
  | t :: rest => tick_task now t;; tick_tasks now rest
  end.

(** [_tick], run when the clock reads [now]. *)
Definition _tick (now : datetime) : M AppState unit :=
  ts ← gets tasks;
  tick_tasks now ts;;
  h ← CleanerApp.after 15000;
  modify (λ a, set_timer (Some h) (timers a) a);;
  CleanerApp.register_after h.

(** [start] *)
Definition start (now : datetime) : M AppState unit :=
  stop;; _tick now.

(** The timer at work: [_tick] runs once at each of the given clock
    readings. *)
Fixpoint run_ticks (nows : list datetime) : M AppState unit :=
  match nows with
  | [] => mret tt
  | now :: rest => _tick now;; run_ticks rest
  end.

End SimpleScheduler.

Module CleanerAppForm.


End CleanerAppForm.

(* ================================================================== *)
(** * A test bench: one platform and a few small worlds *)

Module Bench.

(** [fnmatch] for patterns of literal characters, [?] and [*]. *)
Fixpoint fnmatch (pat : string) : string → bool :=
  match pat with
  | EmptyString => λ s, bool_decide (s = EmptyString)
  | String c pat' =>
      if decide (c = "*"%char) then
        fix star (s : string) : bool :=
          fnmatch pat' s
          || match s with
             | EmptyString => false
             | String _ s' => star s'
             end
      else λ s,
        match s with
        | EmptyString => false
        | String c' s' =>
            (bool_decide (c = "?"%char) || bool_decide (c = c')) && fnmatch pat' s'
        end
  end.

(** A pattern, component by component, against a relative path; [**]
    stands for any number of directories. *)
Fixpoint match_parts (pats : list string) : Path → bool :=
  match pats with
  | [] => λ parts, bool_decide (parts = [])
  | pat :: pats' =>
      if decide (pat = "**") then
        fix skip (parts : Path) : bool :=
          match_parts pats' parts
          || match parts with
             | [] => false
             | _ :: parts' => skip parts'
             end
      else λ parts,
        match parts with
        | [] => false
        | x :: parts' => fnmatch pat x && match_parts pats' parts'
        end
  end.

(** [rglob(pattern)] is [glob("**/" + pattern)]; the empty and the
    absolute pattern are refused. *)
Definition glob (pattern : string) : option (Path → bool) :=
  if bool_decide (pattern = "") || Pathlib.is_absolute pattern then None
  else Some (match_parts ("**" :: PyStr.split "/" pattern)).

(** The limit of a POSIX host on the length of a name: a path with a
    component of more than 255 characters is refused with ENAMETOOLONG. *)
Definition name_too_long (p : Path) : option exn :=
  if existsb (λ c, 255 <? String.length c)%nat p then Some OSError else None.

(** A POSIX host with no [send2trash] module installed and no log file
    that could be opened. *)
Definition posix : Platform := {|
  glob_compile := glob;
  expand := Pathlib.components;
  resolve_error := λ _, None;
  base_error := name_too_long;
  home := ["home"; "u"];
  send2trash := None;
  log_handler := λ _ _ fs, fs
|}.

Definition mkfs (entries : list (Path * node)) : gmap Path node :=
  list_to_map entries.

Definition boot (fs : gmap Path node) (now : Z) (c : AppConfig) : world :=
  {| w_fs := fs; w_now := now; w_self := CleanerEngine.init c;
     w_others := []; w_log := [] |}.

Definition live_config : AppConfig := {|
  dry_run := false;
  quarantine_enabled := true;
  follow_symlinks := false;
  max_delete_per_rule := 50000;
  max_total_delete := 200000;
  log_age_off_days := 30;
  hard_recycle_only := false
|}.

Definition with_cap (n : Z) (c : AppConfig) : AppConfig := {|
  dry_run := dry_run c;
  quarantine_enabled := quarantine_enabled c;
  follow_symlinks := follow_symlinks c;
  max_delete_per_rule := n;
  max_total_delete := max_total_delete c;
  log_age_off_days := log_age_off_days c;
  hard_recycle_only := hard_recycle_only c
|}.

(** [/data/sub/a.txt], five bytes, and a home directory. *)
Definition fs_data : gmap Path node := mkfs [
  ([], Dir); (["home"], Dir); (["home"; "u"], Dir);
  (["data"], Dir); (["data"; "sub"], Dir);
  (["data"; "sub"; "a.txt"], File "hello" 100 420)
].

Definition rule_R (act : string) : PathRule := {|
  name := "R"; path := "/data"; patterns := ["*"]; min_age_days := 0;
  remove_empty_dirs := true; action := act; enabled := true
|}.

(** [/tmp/x] with one file ending in [.a] and one in [.b]. *)
Definition fs_ab : gmap Path node := mkfs [
  ([], Dir); (["tmp"], Dir); (["tmp"; "x"], Dir);
  (["tmp"; "x"; "one.a"], File "aaa" 100 420);
  (["tmp"; "x"; "two.b"], File "bb" 100 420)
].

Definition rule_ab : PathRule := {|
  name := "AB"; path := "/tmp/x"; patterns := ["*.a"; "*.b"]; min_age_days := 0;
  remove_empty_dirs := true; action := "delete"; enabled := true
|}.

(** [/tmp/x] with one file last written at second 100. *)
Definition fs_aged : gmap Path node := mkfs [
  ([], Dir); (["tmp"], Dir); (["tmp"; "x"], Dir);
  (["tmp"; "x"; "a.tmp"], File "hello" 100 420)
].

Definition rule_aged (days : Z) : PathRule := {|
  name := "Temp"; path := "/tmp/x"; patterns := ["*.tmp"]; min_age_days := days;
  remove_empty_dirs := true; action := "delete"; enabled := true
|}.

(** A rule whose base has a name of 256 characters. *)
Definition long_name : string :=
  let x16 := "aaaaaaaaaaaaaaaa" in
  let x64 := x16 +:+ x16 +:+ x16 +:+ x16 in
  x64 +:+ x64 +:+ x64 +:+ x64.

Definition rule_long : PathRule := {|
  name := "long"; path := "/data/" +:+ long_name; patterns := ["*"]; min_age_days := 0;
  remove_empty_dirs := true; action := "delete"; enabled := true
|}.

Definition src_a : Path := ["data"; "sub"; "a.txt"].


Definition w_live : world := boot fs_data 1000 live_config.

Definition w_dry : world := boot fs_data 1000 default_config.

Definition w_ab : world := boot fs_ab 1000 (with_cap 1 live_config).

(** [/tmp/x] with ten files ending in [.tmp]. *)
Definition fs_ten : gmap Path node := mkfs [
  ([], Dir); (["tmp"], Dir); (["tmp"; "x"], Dir);
  (["tmp"; "x"; "f0.tmp"], File "0" 100 420);
  (["tmp"; "x"; "f1.tmp"], File "1" 100 420);
  (["tmp"; "x"; "f2.tmp"], File "2" 100 420);
  (["tmp"; "x"; "f3.tmp"], File "3" 100 420);
  (["tmp"; "x"; "f4.tmp"], File "4" 100 420);
  (["tmp"; "x"; "f5.tmp"], File "5" 100 420);
  (["tmp"; "x"; "f6.tmp"], File "6" 100 420);
  (["tmp"; "x"; "f7.tmp"], File "7" 100 420);
  (["tmp"; "x"; "f8.tmp"], File "8" 100 420);
  (["tmp"; "x"; "f9.tmp"], File "9" 100 420)
].

Definition w_ten : world := boot fs_ten 1000 (with_cap 3 live_config).

(** A daily clean at half past two. *)
Definition entry_0230 : task :=
  {[ "name" := "nightly"; "action" := "clean"; "time" := "02:30" ]}.

(** An engine that is paused and not stopped. *)
Definition paused_engine : Engine :=
  CleanerEngine.toggle_pause (CleanerEngine.init live_config) true.

End Bench.

(* ================================================================== *)
(** * Vocabulary of the statements *)

(** No stop or pause is set and no other thread will call the engine. *)
Definition quiet (w : world) : Prop :=
  _stop (w_self w) = false ∧ _pause (w_self w) = false ∧ w_others w = [].

(** The same world with the clock reading [now]. *)
Definition at_time (now : Z) (w : world) : world :=
  {| w_fs := w_fs w; w_now := now; w_self := w_self w;
     w_others := w_others w; w_log := w_log w |}.

(** What [enumerate_rule] raises before it looks at any file: the
    exception of [resolve_base()] or, failing that, the error with which
    the host refuses [base.exists()]. *)
Definition base_refusal `{Platform} (r : PathRule) : option exn :=
  match resolve_error (path r) with
  | Some e => Some e
  | None => base_error (resolve_base r)
  end.

(** The result [enumerate_rule] starts from. *)
Definition empty_result (r : PathRule) : ScanResult :=
  {| rule := r; files := []; total_size := 0 |}.

(** What [act_on_files] adds to [freed_bytes] for a path:
    [p.stat().st_size], or 0 when [stat] raises. *)
Definition size_or_zero (fs : gmap Path node) (p : Path) : Z :=
  match Fs.stat fs p with
  | Ret st => st_size st
  | _ => 0
  end.

Definition total_bytes (fs : gmap Path node) (ps : list Path) : Z :=
  foldr (λ p acc, size_or_zero fs p + acc) 0 ps.

(** Whether [enumerate_rule] takes a path the generator yields:
    [Ret true] for taken, [Ret false] for skipped. *)
Definition verdict (r : PathRule) (cutoff : Z) (p : Path) (w : world) (v : scan_vars)
  : outcome bool :=
  if bool_decide (p ∈ seen v) || Fs.is_dir (w_fs w) p then Ret false
  else if negb (follow_symlinks (cfg (w_self w))) && Fs.is_symlink (w_fs w) p
  then Ret false
  else if bool_decide (0 < min_age_days r) then
    match Fs.stat (w_fs w) p with
    | Ret st => Ret (bool_decide (st_mtime st < cutoff))
    | Raise FileNotFoundError | Raise PermissionError => Ret false
    | Raise e => Raise e
    | Hang => Hang
    end
  else Ret true.

(** What holds of every path [enumerate_rule] takes. *)
Definition eligible (r : PathRule) (cutoff : Z) (fs : gmap Path node) (c : AppConfig)
  (p : Path) : Prop :=
  Fs.is_dir fs p = false
  ∧ (follow_symlinks c = false → Fs.is_symlink fs p = false)
  ∧ (0 < min_age_days r → ∃ st, Fs.stat fs p = Ret st ∧ st_mtime st < cutoff).

(** Two cutoffs that part the files of [fs] the same way; asked of
    rules with an age filter only. *)
Definition cutoffs_agree (r : PathRule) (fs : gmap Path node) (c1 c2 : Z) : Prop :=
  0 < min_age_days r →
  ∀ p st, Fs.stat fs p = Ret st → (st_mtime st < c1 ↔ st_mtime st < c2).

(** The local variables once a path is taken. *)
Definition take_file (p : Path) (w : world) (v : scan_vars) : scan_vars :=
  match Fs.stat (w_fs w) p with
  | Ret st => CleanerEngine.add_size (st_size st) (CleanerEngine.add_file p v)
  | _ => CleanerEngine.add_file p v
  end.

(** What the checks at a loop head leave alone: the file system, the
    clock, the log and the configuration. *)
Definition same_outside_flags (w w' : world) : Prop :=
  w_fs w' = w_fs w ∧ w_now w' = w_now w ∧ w_log w' = w_log w
  ∧ cfg (w_self w') = cfg (w_self w).



(** What [mkdir] may do to a file system on the way to [target]: keep
    every entry, and add directories at prefixes of [target] only. *)
Definition grown_by_dirs (target : Path) (fs fs' : gmap Path node) : Prop :=
  fs ⊆ fs'
  ∧ ∀ k, fs !! k = None →
         fs' !! k = None ∨ (fs' !! k = Some Dir ∧ k `prefix_of` target).

(** Where the quarantine branch of [_recycle_or_quarantine_or_delete]
    sends a path. *)
Definition quarantine_dest `{Platform} (p : Path) (r : PathRule) : outcome Path :=
  let qroot := Pathlib.joinpath QUARANTINE_DIR (name r) in
  let rel :=
    match resolve_base_call r with
    | Ret base =>
        match Pathlib.relative_to p base with
        | Ret rel => rel
        | _ => Pathlib.of_name p
        end
    | _ => Pathlib.of_name p
    end in
  Pathlib.with_suffix (qroot ++ rel) (Pathlib.suffix p).

(** The calls the quarantine branch makes on the file system, and those
    of the delete branch. *)
Definition quarantine_calls `{Platform} (p : Path) (r : PathRule) : FsM unit := λ fs,
  match Fs.mkdir QUARANTINE_DIR fs with
  | (Ret _, fs1) =>
      match Fs.mkdir (Pathlib.joinpath QUARANTINE_DIR (name r)) fs1 with
      | (Ret _, fs2) =>
          match quarantine_dest p r with
          | Ret dest =>
              match Fs.mkdir (Pathlib.parent dest) fs2 with
              | (Ret _, fs3) => Fs.move p dest fs3
              | other => other
              end
          | Raise e => (Raise e, fs2)
          | Hang => (Hang, fs2)
          end
      | other => other
      end
  | other => other
  end.

Definition delete_calls (p : Path) : FsM unit := λ fs,
  let fs1 :=
    match Fs.stat fs p with
    | Ret st => (Fs.chmod p (Z.lor (st_mode st) Fs.S_IWRITE) fs).2
    | _ => fs
    end in
  Fs.unlink p fs1.

(** How [_recycle_or_quarantine_or_delete] reports what the calls of a
    branch did. *)
Definition reported (p : Path) (w : world) (done : outcome unit * gmap Path node)
  : outcome bool * world :=
  match done with
  | (Ret _, fs') => (Ret true, set_fs fs' w)
  | (Raise e, fs') => (Ret false, add_log p e (set_fs fs' w))
  | (Hang, fs') => (Hang, set_fs fs' w)
  end.

(** What [_recycle_or_quarantine_or_delete] does before it logs: the
    call with a callback that raises the exception again; and what the
    calls of a branch come to there. *)
Definition attempt `{Platform} (p : Path) (r : PathRule) : M world bool :=
  CleanerEngine._recycle_or_quarantine_or_delete_to (λ _ e, raise e) p r.

Definition attempted (w : world) (done : outcome unit * gmap Path node)
  : outcome bool * world :=
  match done with
  | (Ret _, fs') => (Ret true, set_fs fs' w)
  | (Raise e, fs') => (Raise e, set_fs fs' w)
  | (Hang, fs') => (Hang, set_fs fs' w)
  end.

(** A [log] callback that keeps the line and, that apart, does no more
    than write to the file system. *)
Definition keeps_the_line (log : Path → exn → M world unit) : Prop :=
  ∀ p e w, ∃ fs', log p e w = (Ret tt, add_log p e (set_fs fs' w)).





(** Today's target of an entry, when [_tick] manages to compute one. *)
Definition target_of (now : datetime) (t : task) : outcome datetime :=
  match SimpleScheduler.parse_hh_mm (default "00:00" (t !! "time")) with
  | Ret (hh, mm) => Datetime.replace_hm now hh mm
  | Raise e => Raise e
  | Hang => Hang
  end.

(** How [_tick] reads a time string: the texts before and after its
    first colon, each through [int]. *)
Definition reads_as (time_str : string) (hh mm : Z) : Prop :=
  ∃ a b, PyStr.partition ":" time_str = Some (a, b)
         ∧ PyStr.int a = Some hh ∧ PyStr.int b = Some mm.


(** The time strings on which [PyStr.int] is Python's [int]: ASCII
    characters, and no more of them than [int] converts (4300 digits by
    default). *)
Definition plain_time (time_str : string) : Prop :=
  PyStr.isascii time_str = true ∧ (String.length time_str ≤ 4300)%nat.


(** An application whose schedule is the one entry given. *)
Definition app_with (t : task) : AppState :=
  {| tasks := [t]; _h := None; schedule_file := Some [t];
     s_name := ""; s_action := ""; s_time := "";
     toasts := []; txt_log := []; started := [];
     timers := []; _after_handles := [] |}.

Definition clock (h m s us : Z) : datetime :=
  {| day := 739000; hour := h; minute := m; second := s; microsecond := us |}.

(** ** Vocabulary of the further facts *)

(** What [enumerate_rule] keeps true of its local variables: no path is
    taken twice, [seen] holds exactly the paths taken, and [total_size]
    is the sum of their sizes. *)
Definition tidy (fs : gmap Path node) (v : scan_vars) : Prop :=
  NoDup (files (res v))
  ∧ (∀ p, p ∈ files (res v) ↔ p ∈ seen v)
  ∧ total_size (res v) = total_bytes fs (files (res v)).

(** A path that one of the rule's patterns yields. *)
Definition matched `{Platform} (r : PathRule) (fs : gmap Path node) (p : Path) : Prop :=
  ∃ pattern accepts,
    pattern ∈ patterns r ∧ glob_compile pattern = Some accepts
    ∧ p ∈ Fs.rglob accepts fs (resolve_base r).

(** The calls [_recycle_or_quarantine_or_delete] makes on the file
    system when dry run is off: [send2trash] for a recycle when there is
    one, else the delete branch or the quarantine branch. *)
Definition branch_calls `{Platform} (p : Path) (r : PathRule) (self : Engine) : FsM unit :=
  λ fs,
  match (if bool_decide (CleanerEngine._resolve_action self r = "recycle")
         then send2trash else None) with
  | Some trash => trash p fs
  | None =>
      if bool_decide (CleanerEngine._resolve_action self r = "delete")
         || negb (quarantine_enabled (cfg self))
      then delete_calls p fs
      else quarantine_calls p r fs
  end.




(** No entry of [fs] lies directly inside [d]. *)
Definition hollow (fs : gmap Path node) (d : Path) : Prop :=
  ∀ k, is_Some (fs !! k) → k ≠ [] → Pathlib.parent k ≠ d.

(** One turn of the loop of [cleanup_empty_dirs] on the file system:
    [root] goes when it is a directory with no entry inside. *)
Definition sweep (root : Path) (fs : gmap Path node) : gmap Path node :=
  if decide (fs !! root = Some Dir ∧ Fs.children fs root = [])
  then delete root fs else fs.

(** The entry point [_run_action] starts for an action text, [None] for
    a text it does not know. *)
Definition action_entry (action : string) : option entry_point :=
  let a := PyStr.strip (PyStr.lower action) in
  if bool_decide (a = "scan") then Some scan_async
  else if bool_decide (a = "clean") then Some clean_async
  else if bool_decide (a = "purge_pip") then Some purge_pip_cache_async
  else if bool_decide (a = "purge_npm") then Some purge_npm_cache_async
  else None.

(** An entry is due at [now]: today's target can be computed and [now]
    is inside its window. *)
Definition due (now : datetime) (t : task) : bool :=
  match target_of now t with
  | Ret target => SimpleScheduler.in_window now target
  | _ => false
  end.

(** What a due entry starts, and what it writes to the log instead when
    its action is unknown. *)
Definition fired (now : datetime) (t : task) : option entry_point :=
  if due now t then action_entry (default "" (t !! "action")) else None.

Definition complained (now : datetime) (t : task) : option string :=
  if due now t then
    match action_entry (default "" (t !! "action")) with
    | Some _ => None
    | None => Some ("Unknown scheduled action: " +:+ default "" (t !! "action"))
    end
  else None.

(** The timers that are left when the scheduler's pending one is
    cancelled. *)
Definition others_timers (a : AppState) : list (nat * Z) :=
  match _h a with
  | Some id => filter (λ t, t.1 ≠ id) (timers a)
  | None => timers a
  end.

(* ================================================================== *)
(** * The rule editor of CleanerApp *)

(** [sep.join(items)] *)
Fixpoint join (sep : string) (items : list string) : string :=
  match items with
  | [] => ""
  | [x] => x
  | x :: rest => x +:+ sep +:+ join sep rest
  end.

(** Exceptions of the list and of the Tk variables, which no handler of
    the editor catches. *)
Inductive tk_exn : Type :=
  | IndexError
  | TclError.

(** How a handler ends: it returns, or an exception leaves it. *)
Inductive ended (S : Type) : Type :=
  | Returned (s : S)
  | Raised (e : tk_exn) (s : S).

Arguments Returned {S} s.
Arguments Raised {S} e s.

Module RuleEditor.

(** The rules, the list view and the form.  The rows of [lst_rules]
    carry their index in [self.rules] as item id, so the selection is
    kept as that index.  [var_age] is the reading of the [IntVar]:
    [None] when the field holds no number and [get()] raises. *)
Record state : Type := {
  rules : list PathRule;
  selection : option nat;
  var_name : string;
  var_path : string;
  var_patterns : string;
  var_age : option Z;
  var_action : string;
  var_enabled : bool;
  var_rm_empty : bool;
  errors : list string;      (* [messagebox.showerror] *)
  toasts : list string;      (* [_toast] *)
  log : list string          (* [_log_to_ui] *)
}.

Definition set_rules (rs : list PathRule) (s : state) : state :=
  {| rules := rs; selection := selection s;
     var_name := var_name s; var_path := var_path s;
     var_patterns := var_patterns s; var_age := var_age s;
     var_action := var_action s; var_enabled := var_enabled s;
     var_rm_empty := var_rm_empty s;
     errors := errors s; toasts := toasts s; log := log s |}.

(** [_refresh_rule_list] deletes every row and inserts the rules anew:
    no row is selected afterwards. *)
Definition _refresh_rule_list (s : state) : state :=
  {| rules := rules s; selection := None;
     var_name := var_name s; var_path := var_path s;
     var_patterns := var_patterns s; var_age := var_age s;
     var_action := var_action s; var_enabled := var_enabled s;
     var_rm_empty := var_rm_empty s;
     errors := errors s; toasts := toasts s; log := log s |}.

Definition say (shown logged : list string) (s : state) : state :=
  {| rules := rules s; selection := selection s;
     var_name := var_name s; var_path := var_path s;
     var_patterns := var_patterns s; var_age := var_age s;
     var_action := var_action s; var_enabled := var_enabled s;
     var_rm_empty := var_rm_empty s;
     errors := errors s; toasts := toasts s ++ shown; log := log s ++ logged |}.

Definition showerror (msg : string) (s : state) : state :=
  {| rules := rules s; selection := selection s;
     var_name := var_name s; var_path := var_path s;
     var_patterns := var_patterns s; var_age := var_age s;
     var_action := var_action s; var_enabled := var_enabled s;
     var_rm_empty := var_rm_empty s;
     errors := errors s ++ [msg]; toasts := toasts s; log := log s |}.

(** The form filled from a rule, as [_on_rule_select] does. *)
Definition show_rule (r : PathRule) (s : state) : state :=
  {| rules := rules s; selection := selection s;
     var_name := name r; var_path := path r;
     var_patterns := join ", " (patterns r);
     var_age := Some (min_age_days r);
     var_action := action r; var_enabled := enabled r;
     var_rm_empty := remove_empty_dirs r;
     errors := errors s; toasts := toasts s; log := log s |}.

(** [_on_rule_select] *)
Definition _on_rule_select (s : state) : ended state :=
  match selection s with
  | None => Returned s
  | Some idx =>
      match rules s !! idx with
      | None => Raised IndexError s
      | Some r => Returned (show_rule r s)
      end
  end.

(** [add_rule_dialog] *)
Definition add_rule_dialog (s : state) : state :=
  {| rules := rules s; selection := selection s;
     var_name := ""; var_path := "";
     var_patterns := "*"; var_age := Some 0;
     var_action := "quarantine"; var_enabled := true;
     var_rm_empty := true;
     errors := errors s; toasts := toasts s; log := log s |}.

(** [[s.strip() for s in text.split(',') if s.strip()]] *)
Definition split_patterns (text : string) : list string :=
  filter (λ x, x ≠ "") (PyStr.strip <$> PyStr.split "," text).

(** [update_rule_from_form] *)
Definition update_rule_from_form (s : state) : ended state :=
  let nm := PyStr.strip (var_name s) in
  if bool_decide (nm = "") then Returned (showerror "Rule name required" s)
  else
    match var_age s with
    | None => Raised TclError s
    | Some age =>
        let rule := {| name := nm;
                       path := PyStr.strip (var_path s);
                       patterns := split_patterns (var_patterns s);
                       min_age_days := age;
                       remove_empty_dirs := var_rm_empty s;
                       action := var_action s;
                       enabled := var_enabled s |} in
        match selection s with
        | Some idx =>
            if bool_decide (idx < length (rules s))%nat then
              Returned (say ["Rule saved"] ["Rule saved: " +:+ nm]
                          (_refresh_rule_list (set_rules (<[idx := rule]> (rules s)) s)))
            else Raised IndexError s
        | None =>
            Returned (say ["Rule saved"] ["Rule saved: " +:+ nm]
                        (_refresh_rule_list (set_rules (rules s ++ [rule]) s)))
        end
    end.

(** [delete_selected_rule] *)
Definition delete_selected_rule (s : state) : ended state :=
  match selection s with
  | None => Returned s
  | Some idx =>
      match rules s !! idx with
      | None => Raised IndexError s
      | Some r =>
          Returned (say ["Rule deleted"] ["Rule deleted: " +:+ name r]
                      (_refresh_rule_list (set_rules (delete idx (rules s)) s)))
      end
  end.

(** The loop of [add_browser_rules] and of [add_os_rules] over the rules
    the preset helper returned: a rule is appended when no rule of the
    list, as it is by then, has its name. *)
Fixpoint add_presets (found : list PathRule) (rs : list PathRule) (added : nat)
  : list PathRule * nat :=
  match found with
  | [] => (rs, added)
  | r :: rest =>
      if forallb (λ existing, bool_decide (name existing ≠ name r)) rs
      then add_presets rest (rs ++ [r]) (S added)
      else add_presets rest rs added
  end.

(** [add_browser_rules], given what [browser_cache_rules()] returned,
    and [add_os_rules], given what [os_specific_rules()] returned. *)
Definition add_browser_rules (found : list PathRule) (s : state) : state :=
  let '(rs, added) := add_presets found (rules s) 0 in
  say ["Added " +:+ pretty added +:+ " browser rule(s)"]
      ["Added " +:+ pretty added +:+ " browser cache rule(s)"]
      (_refresh_rule_list (set_rules rs s)).

Definition add_os_rules (found : list PathRule) (s : state) : state :=
  let '(rs, added) := add_presets found (rules s) 0 in
  say ["Added " +:+ pretty added +:+ " OS rule(s)"]
      ["Added " +:+ pretty added +:+ " OS cache rule(s)"]
      (_refresh_rule_list (set_rules rs s)).

End RuleEditor.

(** A pattern the form can show and read back: not empty, no comma, no
    white space at either end. *)
Definition plain (x : string) : Prop :=
  x ≠ "" ∧ PyStr.partition "," x = None ∧ PyStr.strip x = x.

(* ================================================================== *)
(** * Ageing off the application's logs *)

Module LogFiles.

(** [d.glob(pattern)] for a pattern of one component, read to the end:
    the entries of directory [d] whose name the pattern matches; nothing
    when [d] is no directory. *)
Definition glob (matches : string → bool) (fs : gmap Path node) (d : Path) : list Path :=
  if Fs.is_dir fs d
  then filter (λ k, matches (Pathlib.name k) = true) (Fs.children fs d)
  else [].




End LogFiles.


(* ================================================================== *)
(** * Sizes for the eye *)

(** Python floats, as far as [human_bytes] needs them.  An integer
    converts to the nearest float, ties to even; dividing a float of at
    least 1 by [1024.0] is exact; a format with a fixed number of
    decimals rounds the exact value of the float, ties to even. *)
Module Float.

(** The integer that [float(n)] holds: [n] rounded to 53 significant
    bits.  [None] stands for [OverflowError]. *)
Definition of_int (n : Z) : option Z :=
  let a := Z.abs n in
  let bits := Z.log2 a + 1 in
  if bits <=? 53 then Some n
  else
    let shift := bits - 53 in
    let q := a / 2 ^ shift in
    let r := a mod 2 ^ shift in
    let half := 2 ^ (shift - 1) in
    let q' := if (half <? r) || ((r =? half) && Z.odd q) then q + 1 else q in
    let v := q' * 2 ^ shift in
    if 2 ^ 1024 <=? v then None else Some (Z.sgn n * v).

(** The integer nearest to [num / den], ties to even; [0 < den]. *)
Definition round_half_even (num den : Z) : Z :=
  let q := num / den in
  let r := num mod den in
  if 2 * r <? den then q
  else if den <? 2 * r then q + 1
  else if Z.even q then q else q + 1.

(** The tenths shown for the float [m / 2^s], and [f"{x:.1f}"] of it;
    [0 ≤ m]. *)
Definition tenths (m s : Z) : Z := round_half_even (10 * m) (2 ^ s).

Definition fixed1 (m s : Z) : string :=
  pretty (tenths m s / 10) +:+ "." +:+ pretty (tenths m s mod 10).

End Float.

(** [human_bytes], from the second unit on: the float in [n] is
    [m / 1024^k]. *)
Fixpoint human_loop (units : list string) (m k : Z) : string :=
  match units with
  | [] => Float.fixed1 m (10 * k) +:+ " PB"
  | unit :: rest =>
      if m <? 1024 * 1024 ^ k
      then Float.fixed1 m (10 * k) +:+ " " +:+ unit
      else human_loop rest m (k + 1)
  end.

(** [human_bytes]; [None] stands for [OverflowError]. *)
Definition human_bytes (n : Z) : option string :=
  if n <? 1024 then
    m ← Float.of_int n; Some (pretty m +:+ " B")
  else
    m ← Float.of_int n; Some (human_loop ["KB"; "MB"; "GB"; "TB"] m 1).

(** The unit of the [k]-th power of 1024. *)
Definition unit_name (k : Z) : string :=
  if k =? 1 then "KB" else if k =? 2 then "MB" else if k =? 3 then "GB"
  else if k =? 4 then "TB" else "PB".

(* ================================================================== *)
(** * The worker threads of CleanerApp *)

(** The calls a worker makes on the widgets, in order: [_log_to_ui],
    [lbl_status.config], [_status], [_progress_stop], [lbl_total.config],
    and the rows of the results table.  The lines the engine hands to
    its [log] callback are kept in [w_log]. *)
Inductive ui_call : Type :=
  | LogToUi (msg : string)
  | LblStatus (text : string)
  | StatusLeft (text : string)
  | ProgressStop
  | LblTotal (text : string)
  | TreeClear
  | TreeInsert (rule_name : string) (count : nat) (size : string).

Record panel : Type := {
  scan_results : list ScanResult;
  ui : list ui_call
}.

(** How a step of a worker ends: it returns, it waits for ever in a
    pause, an exception of the engine leaves it, or [human_bytes] raises
    [OverflowError]. *)
Inductive finish (A : Type) : Type :=
  | Done (a : A)
  | Stuck
  | Died (e : exn)
  | Overflowed.

Arguments Done {A} a.
Arguments Stuck {A}.
Arguments Died {A} e.
Arguments Overflowed {A}.

Definition W (A : Type) : Type := world * panel → finish A * (world * panel).

#[global] Instance W_ret : MRet W := λ A a s, (Done a, s).

#[global] Instance W_bind : MBind W := λ A B k m s,
  match m s with
  | (Done a, s') => k a s'
  | (Stuck, s') => (Stuck, s')
  | (Died e, s') => (Died e, s')
  | (Overflowed, s') => (Overflowed, s')
  end.

Module Worker.

Section Threads.
Context `{Platform}.

(** A call of the engine. *)
Definition engine {A} (m : M world A) : W A := λ s,
  match m s.1 with
  | (Ret a, w') => (Done a, (w', s.2))
  | (Raise e, w') => (Died e, (w', s.2))
  | (Hang, w') => (Stuck, (w', s.2))
  end.

(** [try: ... except Exception: pass] around a call of the engine,
    with the base of the rule resolved inside the [try]. *)
Definition engine_pass (m : M world unit) : W unit := λ s,
  match m s.1 with
  | (Ret _, w') => (Done tt, (w', s.2))
  | (Raise _, w') => (Done tt, (w', s.2))
  | (Hang, w') => (Stuck, (w', s.2))
  end.

(** A text [human_bytes] is asked for. *)
Definition text (o : option string) : W string := λ s,
  match o with
  | Some t => (Done t, s)
  | None => (Overflowed, s)
  end.

(** A call on a widget. *)
Definition call (c : ui_call) : W unit := λ s,
  (Done tt, (s.1, {| scan_results := scan_results s.2; ui := ui s.2 ++ [c] |})).

(** [_log_to_ui]: the line goes into the log view, and then, stripped,
    to the logger, whose handler writes it to the log file. *)
Definition _log_to_ui (msg : string) : W unit := λ s,
  (Done tt,
   (set_fs (log_handler (w_now s.1) (Said (PyStr.strip msg)) (w_fs s.1)) s.1,
    {| scan_results := scan_results s.2; ui := ui s.2 ++ [LogToUi msg] |})).

Definition set_results (rs : list ScanResult) : W unit := λ s,
  (Done tt, (s.1, {| scan_results := rs; ui := ui s.2 |})).

Definition get_results : W (list ScanResult) := λ s, (Done (scan_results s.2), s).

(** [_log_to_ui] as the [log] callback of the engine: the line is
    shown, of which [w_log] keeps the record, and given to the logger,
    whose handler writes it to the log file. *)
Definition log_callback (p : Path) (e : exn) : M world unit :=
  modify (add_log p e);;
  modify (λ w, set_fs (log_handler (w_now w) (FailedLine p e) (w_fs w)) w).

(** The loop of [_refresh_results_tree] that fills the table. *)
Fixpoint tree_rows (rs : list ScanResult) : W unit :=
  match rs with
  | [] => mret tt
  | res :: rest =>
      size ← text (human_bytes (total_size res));
      call (TreeInsert (name (rule res)) (length (files res)) size);;
      tree_rows rest
  end.

(** [_refresh_results_tree] *)
Definition _refresh_results_tree : W unit :=
  call TreeClear;;
  rs ← get_results;
  tree_rows rs.

(** The loop of [_scan_worker], with its two counters. *)
Fixpoint scan_rules (rules : list PathRule) (total_files total_bytes : Z) : W (Z * Z) :=
  match rules with
  | [] => mret (total_files, total_bytes)
  | rule :: rest =>
      stopped ← engine CleanerEngine.stop_is_set;
      if stopped : bool then mret (total_files, total_bytes) else
      res ← engine (CleanerEngine.enumerate_rule rule);
      rs ← get_results;
      set_results (rs ++ [res]);;
      size ← text (human_bytes (total_size res));
      _log_to_ui ("Rule '" +:+ name rule +:+ "': " +:+ pretty (length (files res))
                  +:+ " files, " +:+ size);;
      scan_rules rest (total_files + Z.of_nat (length (files res)))
                      (total_bytes + total_size res)
  end.

(** [_scan_worker], over the rules of the application. *)
Definition _scan_worker (rules : list PathRule) : W unit :=
  set_results [];;
  '(total_files, total_bytes) ← scan_rules rules 0 0;
  _refresh_results_tree;;
  call (LblStatus "Scan complete");;
  call (StatusLeft "Scan complete");;
  call ProgressStop;;
  size ← text (human_bytes total_bytes);
  call (LblTotal ("Total: " +:+ pretty total_files +:+ " files, " +:+ size)).

(** The loop of [_clean_worker], with its two counters. *)
Fixpoint clean_results (rs : list ScanResult) (deleted_total freed_total : Z) : W (Z * Z) :=
  match rs with
  | [] => mret (deleted_total, freed_total)
  | res :: rest =>
      stopped ← engine CleanerEngine.stop_is_set;
      if stopped : bool then mret (deleted_total, freed_total) else
      '(d, b) ← engine (CleanerEngine.act_on_files_to log_callback res);
      (if remove_empty_dirs (rule res)
       then
         match resolve_base_call (rule res) with
         | Ret base => engine_pass (CleanerEngine.cleanup_empty_dirs base)
         | _ => mret tt
         end
       else mret tt);;
      _log_to_ui ("Cleaned '" +:+ name (rule res) +:+ "': " +:+ pretty d +:+ " files");;
      clean_results rest (deleted_total + d) (freed_total + b)
  end.

(** [str(b)] for a [bool] *)
Definition str_bool (b : bool) : string := if b then "True" else "False".

(** [_clean_worker] *)
Definition _clean_worker : W unit :=
  rs ← get_results;
  '(deleted_total, freed_total) ← clean_results rs 0 0;
  stopped ← engine CleanerEngine.stop_is_set;
  let done_text := if stopped : bool then "Cancelled" else "Clean complete" in
  call (LblStatus done_text);;
  size ← text (human_bytes freed_total);
  call (StatusLeft (done_text +:+ " — Freed ~" +:+ size));;
  call ProgressStop;;
  size' ← text (human_bytes freed_total);
  dry ← engine (gets (λ w, dry_run (cfg (w_self w))));
  _log_to_ui ("DONE. Freed approx " +:+ size' +:+ " (dry_run=" +:+ str_bool dry +:+ ")").

End Threads.

End Worker.

(** The file system after the log handler was given the lines, one by
    one, at time [now]. *)
Definition written `{Platform} (now : Z) (lines : list log_line) (fs : gmap Path node)
  : gmap Path node :=
  foldl (λ fs l, log_handler now l fs) fs lines.

(** The lines that calls of [_log_to_ui] gave to the logger. *)
Definition said (calls : list ui_call) : list log_line :=
  omap (λ c, match c with
             | LogToUi msg => Some (Said (PyStr.strip msg))
             | _ => None
             end) calls.





(** The sum of the numbers of files of the results. *)
Definition files_in (rs : list ScanResult) : Z :=
  foldr (λ sr acc, Z.of_nat (length (files sr)) + acc) 0 rs.

(* ================================================================== *)
(** * More of the test bench *)

Module Yard.




Definition one_a : Path := ["tmp"; "x"; "one.a"].
Definition two_b : Path := ["tmp"; "x"; "two.b"].

(** A host whose [send2trash] moves the entry into [~/.Trash]. *)
Definition to_trash (p : Path) : FsM unit := Fs.move p ["home"; "u"; ".Trash"].

Definition posix_trash : Platform := {|
  glob_compile := Bench.glob;
  expand := Pathlib.components;
  resolve_error := λ _, None;
  base_error := Bench.name_too_long;
  home := ["home"; "u"];
  send2trash := Some to_trash;
  log_handler := λ _ _ fs, fs
|}.

Definition recycle_only_config : AppConfig := {|
  dry_run := false;
  quarantine_enabled := true;
  follow_symlinks := false;
  max_delete_per_rule := 50000;
  max_total_delete := 200000;
  log_age_off_days := 30;
  hard_recycle_only := true
|}.

Definition w_recycle_only : world := Bench.boot Bench.fs_data 1000 recycle_only_config.

(** [/tmp/x] holding a chain of empty folders and one folder with a
    file. *)
Definition fs_folders : gmap Path node := Bench.mkfs [
  ([], Dir); (["tmp"], Dir); (["tmp"; "x"], Dir);
  (["tmp"; "x"; "a"], Dir); (["tmp"; "x"; "a"; "b"], Dir);
  (["tmp"; "x"; "keep"], Dir);
  (["tmp"; "x"; "keep"; "f.txt"], File "data" 100 420)
].

Definition w_folders : world := Bench.boot fs_folders 1000 Bench.live_config.

(** The editor with one rule, its row selected, and a form typed in
    with stray blanks. *)
Definition editor : RuleEditor.state := {|
  RuleEditor.rules := [Bench.rule_aged 1];
  RuleEditor.selection := Some 0%nat;
  RuleEditor.var_name := "  Logs ";
  RuleEditor.var_path := " /var/log ";
  RuleEditor.var_patterns := " *.log , ,*.old";
  RuleEditor.var_age := Some 7;
  RuleEditor.var_action := "delete";
  RuleEditor.var_enabled := true;
  RuleEditor.var_rm_empty := false;
  RuleEditor.errors := [];
  RuleEditor.toasts := [];
  RuleEditor.log := []
|}.


(** Results of a scan, as [_scan_worker] leaves them. *)
Definition scanned : panel := {|
  scan_results := [ {| rule := Bench.rule_R "delete"; files := [Bench.src_a];
                       total_size := 5 |} ];
  ui := []
|}.

(** Two results of one file each, and a configuration that allows one
    deletion. *)
Definition one_at_a_time : AppConfig := {|
  dry_run := false;
  quarantine_enabled := true;
  follow_symlinks := false;
  max_delete_per_rule := 50000;
  max_total_delete := 1;
  log_age_off_days := 30;
  hard_recycle_only := false
|}.

Definition rule_of (pattern : string) : PathRule := {|
  name := pattern; path := "/tmp/x"; patterns := [pattern]; min_age_days := 0;
  remove_empty_dirs := false; action := "delete"; enabled := true
|}.

Definition two_results : panel := {|
  scan_results := [ {| rule := rule_of "*.a"; files := [one_a]; total_size := 3 |};
                    {| rule := rule_of "*.b"; files := [two_b]; total_size := 2 |} ];
  ui := []
|}.



Definition rule_own_folder : PathRule := {|
  name := "R"; path := "/home/u/.garbage_cleaner_quarantine/R"; patterns := ["*"];
  min_age_days := 0; remove_empty_dirs := false; action := "quarantine";
  enabled := true
|}.

Definition fs_own_folder : gmap Path node := Bench.mkfs [
  ([], Dir); (["home"], Dir); (["home"; "u"], Dir);
  (["home"; "u"; ".garbage_cleaner_quarantine"], Dir);
  (["home"; "u"; ".garbage_cleaner_quarantine"; "R"], Dir);
  (["home"; "u"; ".garbage_cleaner_quarantine"; "R"; "sub"], Dir);
  (["home"; "u"; ".garbage_cleaner_quarantine"; "R"; "sub"; "a.txt"],
   File "hello" 100 420)
].

Definition w_own_folder : world := Bench.boot fs_own_folder 1000 Bench.live_config.

(** [/data/sub/a.txt] and a link [/data/other] to the directory
    [/data/sub]. *)
Definition fs_linked_dir : gmap Path node := Bench.mkfs [
  ([], Dir); (["home"], Dir); (["home"; "u"], Dir);
  (["data"], Dir); (["data"; "sub"], Dir);
  (["data"; "sub"; "a.txt"], File "hello" 100 420);
  (["data"; "other"], Symlink ["data"; "sub"])
].

Definition w_linked_dir : world := Bench.boot fs_linked_dir 1000 Bench.live_config.

(** Entries whose time is no ["HH:MM"] and is read as one all the same. *)
Definition entry_signed : task :=
  {[ "name" := "odd"; "action" := "clean"; "time" := "-0:+5" ]}.

Definition entry_underscored : task :=
  {[ "name" := "odd"; "action" := "scan"; "time" := "1_0 :3_0" ]}.

Definition entry_7pm : task :=
  {[ "name" := "nightly"; "action" := "clean"; "time" := "7pm" ]}.

(** A host with a log file: its handler appends the text of the line
    and a line feed to [/logs/garbage_cleaner.log], when that is a
    regular file, and stamps the file with the time. *)
Definition log_file : Path := ["logs"; "garbage_cleaner.log"].

Definition line_feed : string := String (Ascii.ascii_of_nat 10) EmptyString.

Definition line_text (l : log_line) : string :=
  match l with
  | Said msg => msg
  | FailedLine _ _ => "Failed"
  end.

Definition append_line (now : Z) (l : log_line) (fs : gmap Path node)
  : gmap Path node :=
  match fs !! log_file with
  | Some (File d _ md) => <[log_file := File (d +:+ line_text l +:+ line_feed) now md]> fs
  | _ => fs
  end.

Definition posix_logging : Platform := {|
  glob_compile := Bench.glob;
  expand := Pathlib.components;
  resolve_error := λ _, None;
  base_error := Bench.name_too_long;
  home := ["home"; "u"];
  send2trash := None;
  log_handler := append_line
|}.

Definition fs_logged : gmap Path node :=
  <[log_file := File "" 0 420]> (<[["logs"] := Dir]> Bench.fs_data).

Definition w_dry_logged : world := Bench.boot fs_logged 1000 default_config.

Definition fs_ab_logged : gmap Path node :=
  <[log_file := File "" 0 420]> (<[["logs"] := Dir]> Bench.fs_ab).

Definition w_ab_logged : world :=
  Bench.boot fs_ab_logged 1000 (Bench.with_cap 1 Bench.live_config).

End Yard.

(* ================================================================== *)
(** * Facts: the pause and stop flags *)

Ltac unfold_monad :=
  unfold mbind, mret, M_bind, M_ret, try_except, gets, modify, raise,
    pure_call, fs_read, fs_try, fs_call, in_world in *.

Lemma wait_loop_stopped (self : Engine) (others : list (list flag_op)) :
  _stop self = true → CleanerEngine.wait_loop self others = Some (self, others).
Proof.
  intros Hs. destruct others; simpl; rewrite Hs, andb_false_r; reflexivity.
Qed.

Lemma wait_loop_not_paused (self : Engine) (others : list (list flag_op)) :
  _pause self = false → CleanerEngine.wait_loop self others = Some (self, others).
Proof. intros Hp. destruct others; simpl; rewrite Hp; reflexivity. Qed.

Lemma calls_ending_in_stop (self : Engine) (batch : list flag_op) :
  foldl CleanerEngine.apply_call self (batch ++ [CallStop])
  = CleanerEngine.stop (foldl CleanerEngine.apply_call self batch).
Proof. rewrite foldl_app. reflexivity. Qed.

Lemma wait_loop_released (pre : list (list flag_op)) :
  ∀ (self : Engine) (batch : list flag_op) (others : list (list flag_op)),
    ∃ e rest,
      CleanerEngine.wait_loop self (pre ++ (batch ++ [CallStop]) :: others) = Some (e, rest)
      ∧ others `suffix_of` rest.
Proof.
  induction pre as [|b pre IH]; intros self batch others; simpl.
  - destruct (_pause self && negb (_stop self)).
    + rewrite calls_ending_in_stop, wait_loop_stopped by reflexivity.
      eexists _, _. split; [reflexivity|]. reflexivity.
    + eexists _, _. split; [reflexivity|]. apply suffix_cons_r. reflexivity.
  - destruct (_pause self && negb (_stop self)).
    + apply IH.
    + eexists _, _. split; [reflexivity|].
      apply suffix_cons_r, suffix_app_r. apply suffix_cons_r. reflexivity.
Qed.

Lemma set_engine_same (w : world) : set_engine (w_self w) (w_others w) w = w.
Proof. destruct w; reflexivity. Qed.

(** C10, as amended.  Requesting a stop releases a paused worker at
    its next poll when the stop flag is still set then: [stop] sets the
    stop flag and clears the pause flag; the polling loop of
    [wait_if_paused] returns at once, whatever calls are still to come,
    when it is entered after [stop] or with the stop flag set; and a
    worker polling from any engine state leaves the loop by the poll
    that follows a call of [stop], having consumed no later call, when
    [stop] is the last call made before that poll.  It does not hold
    of every stop: one that is followed, before the poll, by a new scan
    and a pause leaves the worker waiting. *)
Theorem stop_releases_paused_worker (self : Engine) (others : list (list flag_op)) :
  _stop (CleanerEngine.stop self) = true
  ∧ _pause (CleanerEngine.stop self) = false
  ∧ CleanerEngine.wait_loop (CleanerEngine.stop self) others
    = Some (CleanerEngine.stop self, others)
  ∧ (_stop self = true → CleanerEngine.wait_loop self others = Some (self, others))
  ∧ (∀ w : world, _stop (w_self w) = true → CleanerEngine.wait_if_paused w = (Ret tt, w))
  ∧ (∀ pre batch, ∃ e rest,
       CleanerEngine.wait_loop self (pre ++ (batch ++ [CallStop]) :: others) = Some (e, rest)
       ∧ others `suffix_of` rest).
Proof.
  repeat split.
  - apply wait_loop_stopped. reflexivity.
  - apply wait_loop_stopped.
  - intros w Hs. unfold CleanerEngine.wait_if_paused.
    rewrite wait_loop_stopped by exact Hs. rewrite set_engine_same. reflexivity.
  - intros pre batch. apply wait_loop_released.
Qed.

(** C10 refuted on the bench: a stop is requested while the worker
    sleeps in [wait_if_paused], and before the worker polls again the
    user starts a scan ([scan_async] clears the stop flag) and pauses.
    At its poll the worker finds the pause flag set and the stop flag
    clear, and waits on. *)
Lemma stop_then_restart_keeps_waiting :
  _pause Bench.paused_engine = true
  ∧ CleanerEngine.wait_loop Bench.paused_engine
      [[CallStop; CallClearStop; CallTogglePause true]] = None
  ∧ (CleanerEngine.wait_if_paused
       (set_engine Bench.paused_engine
          [[CallStop; CallClearStop; CallTogglePause true]] Bench.w_live)).1 = Hang.
Proof. split; [reflexivity|]. split; reflexivity. Qed.

(* ================================================================== *)
(** * Facts: scanning *)

Section ScanFacts.
Context `{Platform}.

Lemma quiet_others_run (w : world) : quiet w → CleanerEngine.others_run w = w.
Proof. intros (_ & _ & Ho). unfold CleanerEngine.others_run. rewrite Ho. reflexivity. Qed.

Lemma quiet_stop_is_set (w : world) : quiet w → CleanerEngine.stop_is_set w = (Ret false, w).
Proof.
  intros Hq. unfold CleanerEngine.stop_is_set. unfold_monad.
  rewrite quiet_others_run by exact Hq. destruct Hq as (Hs & _ & _).
  rewrite Hs. reflexivity.
Qed.

Lemma quiet_wait_if_paused (w : world) : quiet w → CleanerEngine.wait_if_paused w = (Ret tt, w).
Proof.
  intros (_ & Hp & _). unfold CleanerEngine.wait_if_paused.
  rewrite wait_loop_not_paused by exact Hp. rewrite set_engine_same. reflexivity.
Qed.

(** The flags are all another thread changes. *)
Lemma apply_call_cfg (self : Engine) (op : flag_op) :
  cfg (CleanerEngine.apply_call self op) = cfg self.
Proof. destruct op as [|[]|]; reflexivity. Qed.

Lemma calls_cfg (batch : list flag_op) (self : Engine) :
  cfg (foldl CleanerEngine.apply_call self batch) = cfg self.
Proof.
  revert self. induction batch as [|op batch IH]; intros self; simpl; [reflexivity|].
  rewrite IH. apply apply_call_cfg.
Qed.

Lemma wait_loop_cfg (others : list (list flag_op)) :
  ∀ self e rest, CleanerEngine.wait_loop self others = Some (e, rest) → cfg e = cfg self.
Proof.
  induction others as [|b others IH]; intros self e rest; simpl.
  - destruct (_pause self && negb (_stop self)); intros; simplify_eq; reflexivity.
  - destruct (_pause self && negb (_stop self)).
    + intros Hw. rewrite (IH _ _ _ Hw). apply calls_cfg.
    + intros; simplify_eq; reflexivity.
Qed.

Lemma same_outside_flags_refl (w : world) : same_outside_flags w w.
Proof. repeat split. Qed.

Lemma same_outside_flags_trans (w1 w2 w3 : world) :
  same_outside_flags w1 w2 → same_outside_flags w2 w3 → same_outside_flags w1 w3.
Proof. unfold same_outside_flags. intros (?&?&?&?) (?&?&?&?). repeat split; congruence. Qed.

Lemma others_run_same (w : world) : same_outside_flags w (CleanerEngine.others_run w).
Proof.
  unfold CleanerEngine.others_run. destruct (w_others w) as [|b rest].
  - apply same_outside_flags_refl.
  - repeat split. simpl. apply calls_cfg.
Qed.


Lemma wait_if_paused_same (w : world) o w' :
  CleanerEngine.wait_if_paused w = (o, w') →
  same_outside_flags w w' ∧ (o = Ret tt ∨ o = Hang).
Proof.
  unfold CleanerEngine.wait_if_paused.
  destruct (CleanerEngine.wait_loop _ _) as [[e rest]|] eqn:Hw; intros; simplify_eq.
  - split; [|by left]. repeat split. simpl. eapply wait_loop_cfg, Hw.
  - split; [apply same_outside_flags_refl | by right].
Qed.

(** The head of [enumerate_rule], in closed form: the rule is disabled,
    or its base is refused, or nothing is there, or the patterns are
    scanned. *)
Lemma enumerate_rule_eq (r : PathRule) (w : world) :
  CleanerEngine.enumerate_rule r w =
  if negb (enabled r) then (Ret (empty_result r), w)
  else
    match base_refusal r with
    | Some e => (Raise e, w)
    | None =>
        if negb (Fs.exists_ (w_fs w) (resolve_base r)) then (Ret (empty_result r), w)
        else
          CleanerEngine.with_locals {| res := empty_result r; seen := ∅ |}
            (CleanerEngine.scan_patterns r (resolve_base r)
               (w_now w - min_age_days r * 86400) (patterns r);;
             gets (λ s, res s.2)) w
    end.
Proof.
  unfold CleanerEngine.enumerate_rule, base_refusal, resolve_base_call, base_exists,
    empty_result.
  destruct (enabled r); simpl; [|reflexivity].
  unfold_monad. simpl.
  destruct (resolve_error (path r)) as [e|]; simpl; [reflexivity|].
  destruct (base_error (resolve_base r)) as [e|]; simpl; [reflexivity|].
  destruct (Fs.exists_ (w_fs w) (resolve_base r)); reflexivity.
Qed.


Lemma follow_not_hang (hops : nat) (fs : gmap Path node) :
  ∀ p, Fs.follow hops fs p ≠ Hang.
Proof.
  induction hops as [|h IH]; intros p; simpl;
    destruct (fs !! p) as [[| |t]|]; try discriminate. apply IH.
Qed.

Lemma stat_not_hang (fs : gmap Path node) (p : Path) : Fs.stat fs p ≠ Hang.
Proof.
  unfold Fs.stat. pose proof (follow_not_hang Fs.MAXSYMLINKS fs p) as Hf.
  destruct (Fs.follow _ fs p) as [[q nd]|e|]; [discriminate..|done].
Qed.

(** One path of the generator, in closed form. *)
Lemma scan_file_eq (r : PathRule) (cutoff : Z) (p : Path) (w : world) (v : scan_vars) :
  CleanerEngine.scan_file r cutoff p (w, v) =
  match verdict r cutoff p w v with
  | Ret true =>
      (Ret (if bool_decide (max_delete_per_rule (cfg (w_self w))
                            ≤ Z.of_nat (length (files (res v) ++ [p])))
            then Break else Continue),
       (w, take_file p w v))
  | Ret false => (Ret Continue, (w, v))
  | Raise e => (Raise e, (w, v))
  | Hang => (Hang, (w, v))
  end.
Proof.
  unfold CleanerEngine.scan_file, verdict, take_file, CleanerEngine.older_than.
  unfold_monad. simpl.
  destruct (bool_decide (p ∈ seen v)); simpl; [reflexivity|].
  destruct (Fs.is_dir (w_fs w) p); simpl; [reflexivity|].
  destruct (follow_symlinks (cfg (w_self w))); simpl;
    [|destruct (Fs.is_symlink (w_fs w) p); simpl; [reflexivity|]].
  all: destruct (bool_decide (0 < min_age_days r)); simpl.
  all: destruct (Fs.stat (w_fs w) p) as [st|e|] eqn:Hst; simpl; rewrite ?Hst; simpl.
  all: try destruct (bool_decide (st_mtime st < cutoff)); simpl; rewrite ?Hst; simpl.
  all: try (destruct e; simpl).
  all: try reflexivity.
  all: try (exfalso; eapply stat_not_hang; eassumption).
  all: destruct (bool_decide (max_delete_per_rule _ ≤ _)); reflexivity.
Qed.

Lemma verdict_true (r : PathRule) (cutoff : Z) (p : Path) (w : world) (v : scan_vars) :
  verdict r cutoff p w v = Ret true →
  (p ∉ seen v) ∧ eligible r cutoff (w_fs w) (cfg (w_self w)) p.
Proof.
  unfold verdict, eligible.
  destruct (bool_decide (p ∈ seen v)) eqn:Hseen; simpl; [discriminate|].
  apply bool_decide_eq_false in Hseen.
  destruct (Fs.is_dir (w_fs w) p); simpl; [discriminate|].
  destruct (follow_symlinks (cfg (w_self w))); simpl;
    [|destruct (Fs.is_symlink (w_fs w) p); simpl; [discriminate|]].
  all: case_bool_decide as Hage.
  all: destruct (Fs.stat (w_fs w) p) as [st|e|]; try destruct e; intros Hv;
    simplify_eq; repeat split; try done; try lia.
  all: intros _; eexists; split; [reflexivity|];
    match goal with Hb : bool_decide _ = true |- _ => apply bool_decide_eq_true in Hb; exact Hb end.
Qed.

Lemma take_file_files (p : Path) (w : world) (v : scan_vars) :
  files (res (take_file p w v)) = files (res v) ++ [p].
Proof. unfold take_file. destruct (Fs.stat _ _); reflexivity. Qed.

Lemma take_file_rule (p : Path) (w : world) (v : scan_vars) :
  rule (res (take_file p w v)) = rule (res v).
Proof. unfold take_file. destruct (Fs.stat _ _); reflexivity. Qed.

Lemma take_file_total_size (p : Path) (w : world) (v : scan_vars) :
  total_size (res (take_file p w v)) = total_size (res v) + size_or_zero (w_fs w) p.
Proof.
  unfold take_file, size_or_zero. destruct (Fs.stat _ _); simpl; lia.
Qed.

(** One turn of the loop over the generator. *)
Lemma scan_candidates_cons (r : PathRule) (cutoff : Z) (p : Path) (rest : list Path)
  (w : world) (v : scan_vars) :
  CleanerEngine.scan_candidates r cutoff (p :: rest) (w, v) =
  let w1 := CleanerEngine.others_run w in
  if _stop (w_self w1) then (Ret Return, (w1, v))
  else
    match CleanerEngine.wait_loop (w_self w1) (w_others w1) with
    | None => (Hang, (w1, v))
    | Some (e, others) =>
        match CleanerEngine.scan_file r cutoff p (set_engine e others w1, v) with
        | (Ret Continue, s') => CleanerEngine.scan_candidates r cutoff rest s'
        | (Ret Break, s') => (Ret Break, s')
        | (Ret Return, s') => (Ret Return, s')
        | (Raise e, s') => (Raise e, s')
        | (Hang, s') => (Hang, s')
        end
    end.
Proof.
  simpl. unfold CleanerEngine.stop_is_set, CleanerEngine.wait_if_paused.
  unfold_monad. simpl.
  destruct (_stop (w_self (CleanerEngine.others_run w))); [reflexivity|].
  destruct (CleanerEngine.wait_loop _ _) as [[e others]|]; simpl; [|reflexivity].
  destruct (CleanerEngine.scan_file r cutoff p _) as [[[]|e'|] s']; reflexivity.
Qed.

Lemma eligible_same (r : PathRule) (cutoff : Z) (w w' : world) (p : Path) :
  same_outside_flags w w' →
  eligible r cutoff (w_fs w') (cfg (w_self w')) p →
  eligible r cutoff (w_fs w) (cfg (w_self w)) p.
Proof. intros (Hfs & _ & _ & Hcfg). rewrite Hfs, Hcfg. done. Qed.

Lemma quiet_wait_loop (w : world) :
  quiet w → CleanerEngine.wait_loop (w_self w) (w_others w) = Some (w_self w, w_others w).
Proof. intros (_ & Hp & _). apply wait_loop_not_paused, Hp. Qed.

(** What a run of the loop over the generator does to the world and to
    the local variables. *)
Lemma scan_candidates_run (r : PathRule) (cutoff : Z) (cands : list Path) :
  ∀ (w : world) (v : scan_vars) o s',
    CleanerEngine.scan_candidates r cutoff cands (w, v) = (o, s') →
    same_outside_flags w s'.1
    ∧ rule (res s'.2) = rule (res v)
    ∧ (∃ added, files (res s'.2) = files (res v) ++ added
         ∧ Forall (eligible r cutoff (w_fs w) (cfg (w_self w))) added)
    ∧ (quiet w → s'.1 = w ∧ o ≠ Hang).
Proof.
  induction cands as [|p rest IH]; intros w v o s' Hrun.
  - simpl in Hrun. unfold_monad. simplify_eq. simpl.
    split; [apply same_outside_flags_refl|]. split; [done|].
    split; [exists []; by rewrite app_nil_r|]. done.
  - rewrite scan_candidates_cons in Hrun. simpl in Hrun.
    pose proof (others_run_same w) as H1.
    destruct (_stop (w_self (CleanerEngine.others_run w))) eqn:Hstop.
    { simplify_eq. simpl. split; [done|]. split; [done|].
      split; [exists []; by rewrite app_nil_r|].
      intros Hq. rewrite quiet_others_run in * by done. done. }
    destruct (CleanerEngine.wait_loop _ _) as [[e others]|] eqn:Hwait.
    2:{ simplify_eq. simpl. split; [done|]. split; [done|].
        split; [exists []; by rewrite app_nil_r|].
        intros Hq. rewrite quiet_others_run in Hwait by done.
        rewrite quiet_wait_loop in Hwait by done. done. }
    set (w2 := set_engine e others (CleanerEngine.others_run w)) in *.
    assert (same_outside_flags w w2) as H2.
    { eapply same_outside_flags_trans; [exact H1|].
      repeat split. simpl. eapply wait_loop_cfg, Hwait. }
    assert (quiet w → w2 = w) as Hq2.
    { intros Hq. subst w2. rewrite quiet_others_run in * by done.
      rewrite quiet_wait_loop in Hwait by done. simplify_eq.
      apply set_engine_same. }
    rewrite scan_file_eq in Hrun.
    destruct (verdict r cutoff p w2 v) as [[]|e'|] eqn:Hv.
    + apply verdict_true in Hv as [_ Hel].
      apply (eligible_same _ _ _ _ _ H2) in Hel.
      case_bool_decide.
      * simplify_eq. simpl. split; [done|]. split; [apply take_file_rule|].
        split; [exists [p]; split; [apply take_file_files|by constructor]|].
        intros Hq. by rewrite Hq2.
      * apply IH in Hrun as (Hs & Hr & (added & Hf & Hall) & Hquiet).
        split; [eapply same_outside_flags_trans; eassumption|].
        split; [by rewrite Hr, take_file_rule|].
        split.
        { exists (p :: added). rewrite Hf, take_file_files, <- app_assoc.
          split; [done|]. constructor; [done|].
          eapply Forall_impl; [exact Hall|]. intros q. apply eligible_same, H2. }
        intros Hq. rewrite Hq2 in Hquiet by done. auto.
    + apply IH in Hrun as (Hs & Hr & (added & Hf & Hall) & Hquiet).
      split; [eapply same_outside_flags_trans; eassumption|].
      split; [done|].
      split.
      { exists added. split; [done|].
        eapply Forall_impl; [exact Hall|]. intros q. apply eligible_same, H2. }
      intros Hq. rewrite Hq2 in Hquiet by done. auto.
    + simplify_eq. simpl. split; [done|]. split; [done|].
      split; [exists []; by rewrite app_nil_r|].
      intros Hq. by rewrite Hq2.
    + exfalso. unfold verdict in Hv.
      repeat (case_match; simplify_eq).
      eapply stat_not_hang; eassumption.
Qed.

(** One pattern of the rule. *)
Lemma scan_patterns_cons (r : PathRule) (base : Path) (cutoff : Z) (pattern : string)
  (rest : list string) (w : world) (v : scan_vars) :
  CleanerEngine.scan_patterns r base cutoff (pattern :: rest) (w, v) =
  match glob_compile pattern with
  | None => CleanerEngine.scan_patterns r base cutoff rest (w, v)
  | Some accepts =>
      match CleanerEngine.scan_candidates r cutoff (Fs.rglob accepts (w_fs w) base) (w, v) with
      | (Ret Return, s') => (Ret tt, s')
      | (Ret _, s') => CleanerEngine.scan_patterns r base cutoff rest s'
      | (Raise _, s') => CleanerEngine.scan_patterns r base cutoff rest s'
      | (Hang, s') => (Hang, s')
      end
  end.
Proof.
  simpl. unfold CleanerEngine.rglob. unfold_monad. simpl.
  destruct (glob_compile pattern) as [accepts|]; simpl; [|reflexivity].
  destruct (CleanerEngine.scan_candidates _ _ _ _) as [[[]|e|] s']; reflexivity.
Qed.

Lemma scan_patterns_run (r : PathRule) (base : Path) (cutoff : Z) (pats : list string) :
  ∀ (w : world) (v : scan_vars) o s',
    CleanerEngine.scan_patterns r base cutoff pats (w, v) = (o, s') →
    same_outside_flags w s'.1
    ∧ rule (res s'.2) = rule (res v)
    ∧ (∃ added, files (res s'.2) = files (res v) ++ added
         ∧ Forall (eligible r cutoff (w_fs w) (cfg (w_self w))) added)
    ∧ (o = Ret tt ∨ o = Hang)
    ∧ (quiet w → s'.1 = w ∧ o = Ret tt).
Proof.
  induction pats as [|pattern rest IH]; intros w v o s' Hrun.
  - simpl in Hrun. unfold_monad. simplify_eq. simpl.
    split; [apply same_outside_flags_refl|]. split; [done|].
    split; [exists []; by rewrite app_nil_r|]. auto.
  - rewrite scan_patterns_cons in Hrun.
    destruct (glob_compile pattern) as [accepts|]; [|by apply IH].
    destruct (CleanerEngine.scan_candidates _ _ _ _) as [o1 [w1 v1]] eqn:Hc.
    apply scan_candidates_run in Hc as (Hs1 & Hr1 & (added1 & Hf1 & Hall1) & Hq1).
    simpl in *.
    assert (∀ o2 s2,
      CleanerEngine.scan_patterns r base cutoff rest (w1, v1) = (o2, s2) →
      same_outside_flags w s2.1
      ∧ rule (res s2.2) = rule (res v)
      ∧ (∃ added, files (res s2.2) = files (res v) ++ added
           ∧ Forall (eligible r cutoff (w_fs w) (cfg (w_self w))) added)
      ∧ (o2 = Ret tt ∨ o2 = Hang)
      ∧ (quiet w → s2.1 = w ∧ o2 = Ret tt)) as Hnext.
    { intros o2 s2 Hrest.
      apply IH in Hrest as (Hs2 & Hr2 & (added2 & Hf2 & Hall2) & Ho2 & Hq2).
      split; [eapply same_outside_flags_trans; eassumption|].
      split; [congruence|].
      split.
      { exists (added1 ++ added2). rewrite Hf2, Hf1, <- app_assoc.
        split; [done|]. apply Forall_app. split; [done|].
        eapply Forall_impl; [exact Hall2|]. intros q. apply eligible_same, Hs1. }
      split; [done|].
      intros Hq. destruct (Hq1 Hq) as [-> _]. auto. }
    destruct o1 as [[]|e|]; try (by apply Hnext).
    + simplify_eq. simpl. split; [done|]. split; [done|].
      split; [by exists added1|]. split; [by left|].
      intros Hq. destruct (Hq1 Hq) as [-> _]. done.
    + simplify_eq. simpl. split; [done|]. split; [done|].
      split; [by exists added1|]. split; [by right|].
      intros Hq. by destruct (Hq1 Hq) as [_ ?].
Qed.

(** A whole scan: it leaves the file system, the clock, the log and the
    configuration as they were; it raises only what the look-up of the
    base raises; every path of the result is eligible; in a quiet world
    it does not wait, and the world is unchanged. *)
Lemma enumerate_rule_run (r : PathRule) (w : world) o w' :
  CleanerEngine.enumerate_rule r w = (o, w') →
  same_outside_flags w w'
  ∧ (∀ e, o = Raise e → enabled r = true ∧ base_refusal r = Some e ∧ w' = w)
  ∧ (∀ sr, o = Ret sr →
       rule sr = r
       ∧ Forall (eligible r (w_now w - min_age_days r * 86400) (w_fs w) (cfg (w_self w)))
           (files sr))
  ∧ (quiet w →
     w' = w
     ∧ ((∃ sr, o = Ret sr) ∨ (∃ e, o = Raise e))
     ∧ (enabled r = false ∨ base_refusal r = None → ∃ sr, o = Ret sr)).
Proof.
  rewrite enumerate_rule_eq.
  destruct (enabled r); simpl.
  2:{ intros; simplify_eq. split; [apply same_outside_flags_refl|].
      split; [done|]. split; [|eauto 6]. intros sr ?; simplify_eq. simpl. auto. }
  destruct (base_refusal r) as [e|] eqn:Href.
  { intros; simplify_eq. split; [apply same_outside_flags_refl|].
    split; [intros ? [= <-]; done|]. split; [done|].
    intros _. split; [done|]. split; [eauto|]. intros [|]; done. }
  destruct (Fs.exists_ (w_fs w) (resolve_base r)); simpl.
  2:{ intros; simplify_eq. split; [apply same_outside_flags_refl|].
      split; [done|]. split; [|eauto 6]. intros sr ?; simplify_eq. simpl. auto. }
  unfold CleanerEngine.with_locals. unfold_monad.
  destruct (CleanerEngine.scan_patterns _ _ _ _ _) as [o1 [w1 v1]] eqn:Hp.
  apply scan_patterns_run in Hp as (Hs & Hr & (added & Hf & Hall) & Ho & Hq).
  simpl in Hr, Hf. intros Hrun.
  destruct Ho as [-> | ->]; injection Hrun as <- <-.
  - split; [done|]. split; [done|]. split.
    + intros sr [= <-]. split; [done|]. by rewrite Hf.
    + intros Hquiet. destruct (Hq Hquiet) as [Hw _]. simpl in Hw. eauto 6.
  - split; [done|]. split; [done|]. split; [done|].
    intros Hquiet. by destruct (Hq Hquiet) as [_ ?].
Qed.

Lemma enumerate_rule_quiet (r : PathRule) (w : world) :
  quiet w → base_refusal r = None →
  ∃ sr, CleanerEngine.enumerate_rule r w = (Ret sr, w).
Proof.
  intros Hq Href. destruct (CleanerEngine.enumerate_rule r w) as [o w'] eqn:Hrun.
  apply enumerate_rule_run in Hrun as (_ & _ & _ & Hret).
  destruct (Hret Hq) as (-> & _ & Hsr). destruct Hsr as [sr ->]; eauto.
Qed.

(** ** The clock and the cutoff *)

Lemma others_run_at_time (n : Z) (w : world) :
  CleanerEngine.others_run (at_time n w) = at_time n (CleanerEngine.others_run w).
Proof.
  unfold CleanerEngine.others_run. simpl. destruct (w_others w); reflexivity.
Qed.

Lemma verdict_agree (r : PathRule) (c1 c2 n : Z) (p : Path) (w : world) (v : scan_vars) :
  cutoffs_agree r (w_fs w) c1 c2 →
  verdict r c2 p (at_time n w) v = verdict r c1 p w v.
Proof.
  intros Hagree. unfold verdict. simpl.
  destruct (bool_decide (p ∈ seen v) || Fs.is_dir (w_fs w) p); [reflexivity|].
  destruct (negb (follow_symlinks (cfg (w_self w))) && Fs.is_symlink (w_fs w) p);
    [reflexivity|].
  case_bool_decide as Hage; [|reflexivity].
  destruct (Fs.stat (w_fs w) p) as [st|e|] eqn:Hst; try reflexivity.
  f_equal. apply bool_decide_ext. symmetry. eapply Hagree; eassumption.
Qed.

(** With cutoffs that agree, the loop over the generator makes the same
    choices, whatever the clock reads. *)
Lemma scan_candidates_agree (r : PathRule) (c1 c2 n : Z) (cands : list Path) :
  ∀ (w : world) (v : scan_vars),
    cutoffs_agree r (w_fs w) c1 c2 →
    CleanerEngine.scan_candidates r c2 cands (at_time n w, v)
    = (let '(o, s') := CleanerEngine.scan_candidates r c1 cands (w, v) in
       (o, (at_time n s'.1, s'.2))).
Proof.
  induction cands as [|p rest IH]; intros w v Hagree; [reflexivity|].
  rewrite !scan_candidates_cons. cbv zeta.
  rewrite others_run_at_time.
  pose proof (others_run_same w) as H1.
  set (w1 := CleanerEngine.others_run w) in *.
  change (w_self (at_time n w1)) with (w_self w1).
  change (w_others (at_time n w1)) with (w_others w1).
  destruct (_stop (w_self w1)); [reflexivity|].
  destruct (CleanerEngine.wait_loop _ _) as [[e others]|] eqn:Hwait; [|reflexivity].
  change (set_engine e others (at_time n w1)) with (at_time n (set_engine e others w1)).
  set (w2 := set_engine e others w1) in *.
  assert (w_fs w2 = w_fs w) as Hfs by (subst w2; simpl; apply H1).
  rewrite !scan_file_eq.
  rewrite (verdict_agree r c1 c2 n p w2 v) by (rewrite Hfs; exact Hagree).
  change (cfg (w_self (at_time n w2))) with (cfg (w_self w2)).
  change (take_file p (at_time n w2) v) with (take_file p w2 v).
  destruct (verdict r c1 p w2 v) as [[]|e'|]; try reflexivity.
  - case_bool_decide; [reflexivity|]. apply IH. rewrite Hfs. exact Hagree.
  - apply IH. rewrite Hfs. exact Hagree.
Qed.

Lemma scan_patterns_agree (r : PathRule) (base : Path) (c1 c2 n : Z) (pats : list string) :
  ∀ (w : world) (v : scan_vars),
    cutoffs_agree r (w_fs w) c1 c2 →
    CleanerEngine.scan_patterns r base c2 pats (at_time n w, v)
    = (let '(o, s') := CleanerEngine.scan_patterns r base c1 pats (w, v) in
       (o, (at_time n s'.1, s'.2))).
Proof.
  induction pats as [|pattern rest IH]; intros w v Hagree; [reflexivity|].
  rewrite !scan_patterns_cons.
  destruct (glob_compile pattern) as [accepts|]; [|by apply IH].
  change (w_fs (at_time n w)) with (w_fs w).
  rewrite (scan_candidates_agree r c1 c2 n) by exact Hagree.
  destruct (CleanerEngine.scan_candidates r c1 _ _) as [o1 [w1 v1]] eqn:Hc.
  apply scan_candidates_run in Hc as ((Hfs & _) & _). simpl in Hfs |- *.
  destruct o1 as [[]|e|]; try reflexivity; apply IH; rewrite Hfs; exact Hagree.
Qed.

(** A scan started when the clock reads [n] instead: the same outcome
    when the two cutoffs agree on the files. *)
Lemma enumerate_rule_at_time (r : PathRule) (n : Z) (w : world) :
  cutoffs_agree r (w_fs w)
    (w_now w - min_age_days r * 86400) (n - min_age_days r * 86400) →
  CleanerEngine.enumerate_rule r (at_time n w)
  = (let '(o, w') := CleanerEngine.enumerate_rule r w in (o, at_time n w')).
Proof.
  intros Hagree. rewrite !enumerate_rule_eq.
  destruct (enabled r); simpl; [|reflexivity].
  destruct (base_refusal r); [reflexivity|].
  destruct (Fs.exists_ (w_fs w) (resolve_base r)); simpl; [|reflexivity].
  unfold CleanerEngine.with_locals. unfold_monad.
  rewrite (scan_patterns_agree r _ _ _ n) by exact Hagree.
  destruct (CleanerEngine.scan_patterns _ _ _ _ _) as [[[]|e|] [w1 v1]]; reflexivity.
Qed.

(** C8. The age filter.  When a rule has [min_age_days > 0], a file
    whose modification time is strictly newer than
    [now - min_age_days * 86400] is in no result [enumerate_rule] returns.
    When [min_age_days = 0] no age filter is applied: the outcome of the
    scan is the same whatever the clock reads, hence whatever the cutoff
    the modification times would be compared with. *)
Theorem age_filter (r : PathRule) (w : world) (sr : ScanResult) (w' : world) :
  CleanerEngine.enumerate_rule r w = (Ret sr, w') →
  (0 < min_age_days r →
   ∀ p st, Fs.stat (w_fs w) p = Ret st →
           w_now w - min_age_days r * 86400 < st_mtime st →
           p ∉ files sr)
  ∧ (min_age_days r = 0 →
     ∀ n, CleanerEngine.enumerate_rule r (at_time n w) = (Ret sr, at_time n w')).
Proof.
  intros Hrun. split.
  - intros Hage p st Hst Hnew Hin.
    apply enumerate_rule_run in Hrun as (_ & _ & Hres & _).
    destruct (Hres sr eq_refl) as [_ Hall].
    rewrite Forall_forall in Hall.
    destruct (Hall p Hin) as (_ & _ & Hold).
    destruct (Hold Hage) as (st' & Hst' & Hlt).
    rewrite Hst in Hst'. injection Hst' as <-. lia.
  - intros Hzero n. rewrite enumerate_rule_at_time, Hrun; [reflexivity|].
    intros Hage. lia.
Qed.

End ScanFacts.


(* ================================================================== *)
(** * Facts: how far the cap holds *)

Section CapFacts.
Context `{Platform}.

(** One pattern's matches end at most one file past what was there, or
    at the cap. *)
Lemma scan_candidates_cap (r : PathRule) (cutoff : Z) (cands : list Path) :
  ∀ (w : world) (v : scan_vars) o s',
    CleanerEngine.scan_candidates r cutoff cands (w, v) = (o, s') →
    Z.of_nat (length (files (res s'.2)))
    ≤ Z.max (Z.of_nat (length (files (res v))) + 1)
            (max_delete_per_rule (cfg (w_self w))).
Proof.
  induction cands as [|p rest IH]; intros w v o s' Hrun.
  - simpl in Hrun. unfold_monad. simplify_eq. simpl. lia.
  - rewrite scan_candidates_cons in Hrun. cbv zeta in Hrun.
    pose proof (others_run_same w) as (_ & _ & _ & Hcfg1).
    destruct (_stop (w_self (CleanerEngine.others_run w))).
    { simplify_eq. simpl. lia. }
    destruct (CleanerEngine.wait_loop _ _) as [[e others]|] eqn:Hwait.
    2:{ simplify_eq. simpl. lia. }
    apply wait_loop_cfg in Hwait.
    rewrite scan_file_eq in Hrun.
    change (cfg (w_self (set_engine e others (CleanerEngine.others_run w))))
      with (cfg e) in Hrun.
    destruct (verdict r cutoff p _ v) as [[]|e'|].
    + case_bool_decide as Hcap.
      * simplify_eq. simpl. rewrite take_file_files in *.
        rewrite Hwait, Hcfg1 in Hcap. rewrite length_app in *. simpl length in *. lia.
      * apply IH in Hrun. simpl in Hrun. rewrite take_file_files in *.
        rewrite Hwait, Hcfg1 in *. rewrite length_app in *. simpl length in *. lia.
    + apply IH in Hrun. simpl in Hrun. rewrite Hwait, Hcfg1 in Hrun. lia.
    + simplify_eq. simpl. lia.
    + simplify_eq. simpl. lia.
Qed.

Lemma scan_patterns_cap (r : PathRule) (base : Path) (cutoff : Z) (pats : list string) :
  ∀ (w : world) (v : scan_vars) o s',
    CleanerEngine.scan_patterns r base cutoff pats (w, v) = (o, s') →
    Z.of_nat (length (files (res s'.2)))
    ≤ Z.max (Z.of_nat (length (files (res v))))
            (Z.max (Z.of_nat (length (files (res v))) + 1)
                   (max_delete_per_rule (cfg (w_self w)))
             + (Z.of_nat (length pats) - 1)).
Proof.
  induction pats as [|pattern rest IH]; intros w v o s' Hrun.
  - simpl in Hrun. unfold_monad. simplify_eq. simpl. lia.
  - rewrite scan_patterns_cons in Hrun.
    destruct (glob_compile pattern) as [accepts|].
    2:{ apply IH in Hrun. simpl length. lia. }
    destruct (CleanerEngine.scan_candidates _ _ _ _) as [o1 [w1 v1]] eqn:Hc.
    pose proof (scan_candidates_run _ _ _ _ _ _ _ Hc) as ((_ & _ & _ & Hcfg) & _).
    apply scan_candidates_cap in Hc. simpl in Hc, Hcfg.
    assert (∀ o2 s2,
      CleanerEngine.scan_patterns r base cutoff rest (w1, v1) = (o2, s2) →
      Z.of_nat (length (files (res s2.2)))
      ≤ Z.max (Z.of_nat (length (files (res v))))
              (Z.max (Z.of_nat (length (files (res v))) + 1)
                     (max_delete_per_rule (cfg (w_self w)))
               + (Z.of_nat (length (pattern :: rest)) - 1))) as Hnext.
    { intros o2 s2 Hrest. apply IH in Hrest. rewrite Hcfg in Hrest.
      simpl length. destruct rest; simpl length in *; lia. }
    destruct o1 as [[]|e|]; simplify_eq;
      first [ exact (Hnext _ _ Hrun)
            | rewrite length_cons, Nat2Z.inj_succ; cbn [fst snd]; lia ].
Qed.

(** X1. The cap, as far as it holds.  With a cap of at least 1, a scan
    returns at most [max_delete_per_rule] files plus one for each pattern
    after the first; for a rule with a single pattern, at most
    [max_delete_per_rule]. *)
Theorem cap_holds_up_to_one_file_per_extra_pattern (r : PathRule) (w : world)
  (sr : ScanResult) (w' : world) :
  1 ≤ max_delete_per_rule (cfg (w_self w)) →
  CleanerEngine.enumerate_rule r w = (Ret sr, w') →
  Z.of_nat (length (files sr))
  ≤ max_delete_per_rule (cfg (w_self w))
    + Z.max 0 (Z.of_nat (length (patterns r)) - 1).
Proof.
  intros Hcap. rewrite enumerate_rule_eq.
  destruct (enabled r); simpl.
  2:{ intros; simplify_eq. simpl. lia. }
  destruct (base_refusal r); [discriminate|].
  destruct (Fs.exists_ (w_fs w) (resolve_base r)); simpl.
  2:{ intros; simplify_eq. simpl. lia. }
  unfold CleanerEngine.with_locals. unfold_monad.
  destruct (CleanerEngine.scan_patterns _ _ _ _ _) as [o1 [w1 v1]] eqn:Hp.
  apply scan_patterns_cap in Hp. simpl in Hp.
  destruct o1 as [[]|e|]; intros; simplify_eq. simpl. lia.
Qed.

End CapFacts.

(* ================================================================== *)
(** * Facts: acting on scanned files *)

Section ActFacts.
Context `{Platform}.

(** One turn of the loop of [act_on_files], whatever the callback. *)
Lemma act_loop_to_cons (log : Path → exn → M world unit) (r : PathRule) (p : Path) (rest : list Path) (d f : Z) (w : world) :
  CleanerEngine.act_loop_to log r (p :: rest) d f w =
  let w1 := CleanerEngine.others_run w in
  if _stop (w_self w1) then (Ret (d, f), w1)
  else
    match CleanerEngine.wait_loop (w_self w1) (w_others w1) with
    | None => (Hang, w1)
    | Some (e, others) =>
        let w2 := set_engine e others w1 in
        if bool_decide (max_total_delete (cfg (w_self w2)) ≤ d) then (Ret (d, f), w2)
        else
          match CleanerEngine._recycle_or_quarantine_or_delete_to log p r w2 with
          | (Ret true, w3) =>
              CleanerEngine.act_loop_to log r rest (d + 1) (f + size_or_zero (w_fs w2) p) w3
          | (Ret false, w3) => CleanerEngine.act_loop_to log r rest d f w3
          | (Raise e, w3) => (Raise e, w3)
          | (Hang, w3) => (Hang, w3)
          end
    end.
Proof.
  simpl. unfold CleanerEngine.stop_is_set, CleanerEngine.wait_if_paused.
  unfold_monad. simpl.
  destruct (_stop (w_self (CleanerEngine.others_run w))); [reflexivity|].
  destruct (CleanerEngine.wait_loop _ _) as [[e others]|]; simpl; [|reflexivity].
  case_bool_decide; [reflexivity|].
  unfold size_or_zero.
  pose proof (stat_not_hang (w_fs (CleanerEngine.others_run w)) p) as Hnh.
  destruct (Fs.stat _ p) as [st|e'|]; simpl; [| |done].
  all: destruct (CleanerEngine._recycle_or_quarantine_or_delete_to log p r _) as [[[]|e''|] w3];
    reflexivity.
Qed.

Lemma act_loop_cons (r : PathRule) (p : Path) (rest : list Path) (d f : Z) (w : world) :
  CleanerEngine.act_loop r (p :: rest) d f w =
  let w1 := CleanerEngine.others_run w in
  if _stop (w_self w1) then (Ret (d, f), w1)
  else
    match CleanerEngine.wait_loop (w_self w1) (w_others w1) with
    | None => (Hang, w1)
    | Some (e, others) =>
        let w2 := set_engine e others w1 in
        if bool_decide (max_total_delete (cfg (w_self w2)) ≤ d) then (Ret (d, f), w2)
        else
          match CleanerEngine._recycle_or_quarantine_or_delete p r w2 with
          | (Ret true, w3) =>
              CleanerEngine.act_loop r rest (d + 1) (f + size_or_zero (w_fs w2) p) w3
          | (Ret false, w3) => CleanerEngine.act_loop r rest d f w3
          | (Raise e, w3) => (Raise e, w3)
          | (Hang, w3) => (Hang, w3)
          end
    end.
Proof. apply act_loop_to_cons. Qed.

Lemma act_loop_nil (r : PathRule) (d f : Z) (w : world) :
  CleanerEngine.act_loop r [] d f w = (Ret (d, f), w).
Proof. reflexivity. Qed.

(** Under dry run a file is reported as done and nothing is touched. *)
Lemma dry_run_one_file_to (log : Path → exn → M world unit) (p : Path) (r : PathRule)
  (w : world) :
  dry_run (cfg (w_self w)) = true →
  CleanerEngine._recycle_or_quarantine_or_delete_to log p r w = (Ret true, w).
Proof.
  intros Hdry. unfold CleanerEngine._recycle_or_quarantine_or_delete_to.
  unfold_monad. simpl. rewrite Hdry. reflexivity.
Qed.

Lemma dry_run_one_file (p : Path) (r : PathRule) (w : world) :
  dry_run (cfg (w_self w)) = true →
  CleanerEngine._recycle_or_quarantine_or_delete p r w = (Ret true, w).
Proof. apply dry_run_one_file_to. Qed.

Lemma total_bytes_cons (fs : gmap Path node) (p : Path) (ps : list Path) :
  total_bytes fs (p :: ps) = size_or_zero fs p + total_bytes fs ps.
Proof. reflexivity. Qed.

(** The loop under dry run, in any world: whatever the other threads do,
    it stops after some [n] files, counts each of them and adds up their
    sizes, and leaves everything but the flags as it was. *)
Lemma act_loop_to_dry_run (log : Path → exn → M world unit) (r : PathRule)
  (ps : list Path) :
  ∀ (d f : Z) (w : world) o w',
    dry_run (cfg (w_self w)) = true →
    CleanerEngine.act_loop_to log r ps d f w = (o, w') →
    same_outside_flags w w'
    ∧ (o = Hang
       ∨ ∃ n : nat, (n ≤ length ps)%nat
           ∧ o = Ret (d + Z.of_nat n, f + total_bytes (w_fs w) (take n ps))).
Proof.
  induction ps as [|p rest IH]; intros d f w o w' Hdry Hrun.
  - simpl in Hrun. unfold_monad. simplify_eq.
    split; [apply same_outside_flags_refl|]. right. exists 0%nat.
    split; [done|]. simpl. unfold total_bytes. simpl. f_equal. f_equal; lia.
  - rewrite act_loop_to_cons in Hrun. cbv zeta in Hrun.
    pose proof (others_run_same w) as H1.
    destruct (_stop (w_self (CleanerEngine.others_run w))).
    { simplify_eq. split; [done|]. right. exists 0%nat. split; [simpl; lia|].
      unfold total_bytes. simpl. f_equal. f_equal; lia. }
    destruct (CleanerEngine.wait_loop _ _) as [[e others]|] eqn:Hwait.
    2:{ simplify_eq. split; [done|]. by left. }
    set (w2 := set_engine e others (CleanerEngine.others_run w)) in *.
    assert (same_outside_flags w w2) as H2.
    { eapply same_outside_flags_trans; [exact H1|].
      repeat split. simpl. eapply wait_loop_cfg, Hwait. }
    assert (dry_run (cfg (w_self w2)) = true) as Hdry2.
    { destruct H2 as (_ & _ & _ & ->). exact Hdry. }
    case_bool_decide.
    { simplify_eq. split; [done|]. right. exists 0%nat. split; [simpl; lia|].
      unfold total_bytes. simpl. f_equal. f_equal; lia. }
    rewrite dry_run_one_file_to in Hrun by exact Hdry2.
    apply IH in Hrun as [Hs Ho]; [|exact Hdry2].
    split; [eapply same_outside_flags_trans; eassumption|].
    destruct Ho as [-> | (n & Hn & ->)]; [by left|].
    right. exists (S n). split; [simpl; lia|].
    destruct H2 as (Hfs & _). rewrite Hfs.
    simpl take. rewrite total_bytes_cons. f_equal. f_equal; lia.
Qed.

Lemma act_loop_dry_run (r : PathRule) (ps : list Path) :
  ∀ (d f : Z) (w : world) o w',
    dry_run (cfg (w_self w)) = true →
    CleanerEngine.act_loop r ps d f w = (o, w') →
    same_outside_flags w w'
    ∧ (o = Hang
       ∨ ∃ n : nat, (n ≤ length ps)%nat
           ∧ o = Ret (d + Z.of_nat n, f + total_bytes (w_fs w) (take n ps))).
Proof. apply act_loop_to_dry_run. Qed.

(** The loop under dry run in a quiet world: every file up to the cap
    [max_total_delete] is counted, and the world does not change. *)
Lemma act_loop_dry_run_quiet (r : PathRule) (ps : list Path) :
  ∀ (d f : Z) (w : world),
    dry_run (cfg (w_self w)) = true → quiet w →
    let acted := take (Z.to_nat (max_total_delete (cfg (w_self w)) - d)) ps in
    CleanerEngine.act_loop r ps d f w
    = (Ret (d + Z.of_nat (length acted), f + total_bytes (w_fs w) acted), w).
Proof.
  induction ps as [|p rest IH]; intros d f w Hdry Hq; cbv zeta.
  - rewrite take_nil, act_loop_nil. simpl. unfold total_bytes. simpl.
    do 3 f_equal; lia.
  - rewrite act_loop_cons. cbv zeta.
    rewrite quiet_others_run by exact Hq.
    rewrite quiet_wait_loop by exact Hq. rewrite set_engine_same.
    destruct Hq as (Hs & Hp & Ho). rewrite Hs.
    case_bool_decide as Hcap.
    + replace (Z.to_nat (max_total_delete (cfg (w_self w)) - d)) with 0%nat by lia.
      simpl. unfold total_bytes. simpl. do 3 f_equal; lia.
    + rewrite dry_run_one_file by exact Hdry.
      rewrite IH by done. cbv zeta.
      replace (Z.to_nat (max_total_delete (cfg (w_self w)) - d))
        with (S (Z.to_nat (max_total_delete (cfg (w_self w)) - (d + 1)))) by lia.
      simpl take. simpl length. rewrite total_bytes_cons.
      do 3 f_equal; lia.
Qed.

(** C1. The dry-run invariant.  With [dry_run] set, [act_on_files]
    reports the files it went through as done, each with its size, and
    changes neither the file system nor the log, whatever the other
    threads do to the flags; in a quiet world it counts every file up to
    [max_total_delete] and leaves the world as it was; and
    [cleanup_empty_dirs] does nothing. *)
Theorem dry_run_changes_nothing (sr : ScanResult) (base : Path) (w : world) :
  dry_run (cfg (w_self w)) = true →
  (∀ o w', CleanerEngine.act_on_files sr w = (o, w') →
     w_fs w' = w_fs w ∧ w_log w' = w_log w
     ∧ (o = Hang
        ∨ ∃ n : nat, (n ≤ length (files sr))%nat
            ∧ o = Ret (Z.of_nat n, total_bytes (w_fs w) (take n (files sr)))))
  ∧ (quiet w →
     let acted := take (Z.to_nat (max_total_delete (cfg (w_self w)))) (files sr) in
     CleanerEngine.act_on_files sr w
     = (Ret (Z.of_nat (length acted), total_bytes (w_fs w) acted), w))
  ∧ CleanerEngine.cleanup_empty_dirs base w = (Ret tt, w).
Proof.
  intros Hdry. split; [|split].
  - intros o w' Hrun. unfold CleanerEngine.act_on_files in Hrun.
    apply act_loop_dry_run in Hrun as [(Hfs & _ & Hlog & _) Ho]; [|exact Hdry].
    split; [exact Hfs|]. split; [exact Hlog|].
    destruct Ho as [-> | (n & Hn & ->)]; [by left|].
    right. exists n. split; [exact Hn|]. reflexivity.
  - intros Hq. cbv zeta. unfold CleanerEngine.act_on_files.
    rewrite act_loop_dry_run_quiet by done. cbv zeta.
    rewrite Z.sub_0_r. reflexivity.
  - unfold CleanerEngine.cleanup_empty_dirs. unfold_monad. simpl.
    rewrite Hdry. reflexivity.
Qed.

End ActFacts.

(* ================================================================== *)
(** * Facts: the file system *)

Lemma follow_node (hops : nat) (fs : gmap Path node) :
  ∀ p q nd, Fs.follow hops fs p = Ret (q, nd) →
    fs !! q = Some nd ∧ ∀ t, nd ≠ Symlink t.
Proof.
  induction hops as [|h IH]; intros p q nd; simpl;
    destruct (fs !! p) as [[d mt md| |t]|] eqn:Hp; intros Hf; simplify_eq; eauto.
Qed.


Lemma is_dir_follow (fs : gmap Path node) (p : Path) :
  Fs.is_dir fs p = true ↔ ∃ q, Fs.follow Fs.MAXSYMLINKS fs p = Ret (q, Dir).
Proof.
  unfold Fs.is_dir, Fs.stat. split.
  - destruct (Fs.follow _ fs p) as [[q nd]|e|] eqn:Hf; try discriminate.
    destruct (follow_node _ _ _ _ _ Hf) as [_ Hns].
    destruct nd as [d mt md| |t]; simpl; try discriminate; [eauto|].
    by destruct (Hns t).
  - intros [q ->]. reflexivity.
Qed.


Lemma is_dir_at_dir (fs : gmap Path node) (p : Path) :
  fs !! p = Some Dir → Fs.is_dir fs p = true.
Proof.
  intros Hp. apply is_dir_follow. exists p. simpl. rewrite Hp. reflexivity.
Qed.

Lemma is_dir_absent (fs : gmap Path node) (p : Path) :
  fs !! p = None → Fs.is_dir fs p = false.
Proof. intros Hp. unfold Fs.is_dir, Fs.stat. simpl. rewrite Hp. reflexivity. Qed.


Lemma grown_by_dirs_refl (target : Path) (fs : gmap Path node) :
  grown_by_dirs target fs fs.
Proof. split; [done|]. intros k Hk. by left. Qed.

Lemma grown_by_dirs_trans (t1 t2 : Path) (fs1 fs2 fs3 : gmap Path node) :
  t1 `prefix_of` t2 →
  grown_by_dirs t1 fs1 fs2 → grown_by_dirs t2 fs2 fs3 → grown_by_dirs t2 fs1 fs3.
Proof.
  intros Ht [Hs1 Hn1] [Hs2 Hn2]. split; [by etrans|].
  intros k Hk. destruct (Hn1 k Hk) as [Hk2 | [Hk2 Hpre]].
  - apply Hn2, Hk2.
  - right. split; [eapply lookup_weaken; eassumption | by etrans].
Qed.

Lemma grown_by_insert (p : Path) (fs : gmap Path node) :
  fs !! p = None → grown_by_dirs p fs (<[p := Dir]> fs).
Proof.
  intros Hp. split; [by apply insert_subseteq|].
  intros k Hk. destruct (decide (p = k)) as [<-|Hne].
  - right. by rewrite lookup_insert_eq.
  - left. by rewrite lookup_insert_ne.
Qed.

Lemma os_mkdir_cases (p : Path) (fs : gmap Path node) o fs' :
  Fs.os_mkdir p fs = (o, fs') →
  (o = Ret tt ∧ fs !! p = None ∧ fs' = <[p := Dir]> fs
   ∧ Fs.is_dir fs (Pathlib.parent p) = true)
  ∨ (∃ e, o = Raise e ∧ fs' = fs).
Proof.
  unfold Fs.os_mkdir. destruct (fs !! p) as [nd|] eqn:Hp.
  { intros; simplify_eq; eauto. }
  pose proof (follow_not_hang Fs.MAXSYMLINKS fs (Pathlib.parent p)) as Hnh.
  destruct (Fs.follow _ fs (Pathlib.parent p)) as [[q nd]|e|] eqn:Hf; [| |done].
  - destruct nd; intros; simplify_eq; eauto.
    left. repeat split. apply is_dir_follow. eauto.
  - intros; simplify_eq; eauto.
Qed.

Lemma mkdir_exist_ok_spec (p : Path) (fs : gmap Path node) o fs' :
  Fs.mkdir_exist_ok p fs = (o, fs') →
  grown_by_dirs p fs fs' ∧ o ≠ Hang ∧ (o = Ret tt → Fs.is_dir fs' p = true).
Proof.
  unfold Fs.mkdir_exist_ok.
  destruct (Fs.os_mkdir p fs) as [o1 fs1] eqn:Hos.
  apply os_mkdir_cases in Hos as [(-> & Hp & -> & _) | (e & -> & ->)].
  - intros; simplify_eq. split; [by apply grown_by_insert|]. split; [done|].
    intros _. apply is_dir_at_dir. by rewrite lookup_insert_eq.
  - destruct e; try (destruct (Fs.is_dir fs p) eqn:Hd); intros; simplify_eq;
      (split; [apply grown_by_dirs_refl|]; split; done).
Qed.

Lemma parent_prefix (p : Path) : Pathlib.parent p `prefix_of` p.
Proof.
  unfold Pathlib.parent. destruct (decide (p = [])) as [->|Hne]; [done|].
  exists [List.last p ""]. by apply app_removelast_last.
Qed.

Lemma mkdir_parents_spec (fuel : nat) :
  ∀ (p : Path) (fs : gmap Path node) o fs',
    Fs.mkdir_parents fuel p fs = (o, fs') →
    grown_by_dirs p fs fs' ∧ o ≠ Hang ∧ (o = Ret tt → Fs.is_dir fs' p = true).
Proof.
  induction fuel as [|fuel IH]; intros p fs o fs'; simpl;
    destruct (Fs.os_mkdir p fs) as [o1 fs1] eqn:Hos;
    apply os_mkdir_cases in Hos as [(-> & Hp & -> & _) | (e & -> & ->)].
  1,3: intros; simplify_eq; (split; [by apply grown_by_insert|]); (split; [done|]);
       intros _; apply is_dir_at_dir; by rewrite lookup_insert_eq.
  - destruct e; try (destruct (Fs.is_dir fs p) eqn:Hd); intros; simplify_eq;
      (split; [apply grown_by_dirs_refl|]; split; done).
  - destruct e.
    2-9: destruct (Fs.is_dir fs p) eqn:Hd; intros; simplify_eq;
      (split; [apply grown_by_dirs_refl|]; split; done).
    destruct (decide (Pathlib.parent p = p)).
    { intros; simplify_eq. split; [apply grown_by_dirs_refl|]. split; done. }
    destruct (Fs.mkdir_parents fuel (Pathlib.parent p) fs) as [o2 fs2] eqn:Hrec.
    apply IH in Hrec as (Hg2 & Hnh2 & _).
    destruct o2 as [[]|e2|]; [| |done].
    + intros Hok. apply mkdir_exist_ok_spec in Hok as (Hg3 & Hnh3 & Hd3).
      split; [|done]. eapply grown_by_dirs_trans; [apply parent_prefix|done..].
    + intros; simplify_eq. split; [|done].
      eapply grown_by_dirs_trans; [apply parent_prefix|done|apply grown_by_dirs_refl].
Qed.

Lemma mkdir_spec (p : Path) (fs : gmap Path node) o fs' :
  Fs.mkdir p fs = (o, fs') →
  grown_by_dirs p fs fs' ∧ o ≠ Hang ∧ (o = Ret tt → Fs.is_dir fs' p = true).
Proof. apply mkdir_parents_spec. Qed.


(** [unlink], by what is at the path. *)
Lemma unlink_from_eq (hops : nat) (p : Path) (fs : gmap Path node) :
  Fs.unlink_from hops p fs =
  match fs !! p with
  | Some Dir => (Raise IsADirectoryError, fs)
  | Some _ => (Ret tt, delete p fs)
  | None =>
      match Fs.nearest fs p (length p - 1) with
      | Some (_, File _ _ _) => (Raise NotADirectoryError, fs)
      | Some (a, Symlink _) =>
          match Fs.follow Fs.MAXSYMLINKS fs a with
          | Ret (q, Dir) =>
              match hops with
              | O => (Raise OSError, fs)
              | S h => Fs.unlink_from h (q ++ drop (length a) p) fs
              end
          | Ret _ => (Raise NotADirectoryError, fs)
          | Raise FileNotFoundError => (Ret tt, fs)
          | Raise e => (Raise e, fs)
          | Hang => (Hang, fs)
          end
      | _ => (Ret tt, fs)
      end
  end.
Proof. destruct hops; reflexivity. Qed.


Lemma nearest_at (fs : gmap Path node) (p : Path) (n : nat) (nd : node) :
  fs !! take n p = Some nd → Fs.nearest fs p n = Some (take n p, nd).
Proof. intros Hn. destruct n; simpl in *; rewrite Hn; reflexivity. Qed.

Lemma take_parent (p : Path) : take (length p - 1) p = Pathlib.parent p.
Proof.
  unfold Pathlib.parent. rewrite Nat.sub_1_r. symmetry. apply removelast_firstn_len.
Qed.


(** Below a regular file, [unlink] fails. *)
Lemma unlink_below_a_file (p : Path) (fs : gmap Path node) d mt md :
  fs !! p = None → fs !! Pathlib.parent p = Some (File d mt md) →
  Fs.unlink p fs = (Raise NotADirectoryError, fs).
Proof.
  intros Hp Hd. unfold Fs.unlink. rewrite unlink_from_eq, Hp.
  rewrite (nearest_at fs p _ (File d mt md)) by (by rewrite take_parent). reflexivity.
Qed.











(* ================================================================== *)
(** * Facts: quarantine, delete and recycle *)

#[global] Arguments Fs.follow : simpl never.
#[global] Arguments Fs.unlink_from : simpl never.

Section BranchFacts.
Context `{Platform}.

(** Whatever the callback, [_recycle_or_quarantine_or_delete] attempts
    the same calls, and hands the exception, if any, to the callback. *)
Lemma act_one_to (log : Path → exn → M world unit) (p : Path) (r : PathRule) (w : world) :
  CleanerEngine._recycle_or_quarantine_or_delete_to log p r w =
  match attempt p r w with
  | (Raise e, w1) =>
      match log p e w1 with
      | (Ret _, w2) => (Ret false, w2)
      | (Raise e', w2) => (Raise e', w2)
      | (Hang, w2) => (Hang, w2)
      end
  | other => other
  end.
Proof.
  unfold attempt, CleanerEngine._recycle_or_quarantine_or_delete_to, try_except.
  match goal with
  | |- match ?body w with _ => _ end = _ => destruct (body w) as [[b|e|] w1]
  end; reflexivity.
Qed.

(** The branches of the attempt, in closed form: which calls are made. *)
Lemma attempt_branch (p : Path) (r : PathRule) (w : world) :
  dry_run (cfg (w_self w)) = false →
  (CleanerEngine._resolve_action (w_self w) r = "recycle" → send2trash = None) →
  attempt p r w =
  attempted w
    (if bool_decide (CleanerEngine._resolve_action (w_self w) r = "delete")
        || negb (quarantine_enabled (cfg (w_self w)))
     then delete_calls p (w_fs w)
     else quarantine_calls p r (w_fs w)).
Proof.
  intros Hdry Htrash.
  unfold attempt, CleanerEngine._recycle_or_quarantine_or_delete_to, attempted.
  unfold_monad. simpl. rewrite Hdry.
  assert ((if bool_decide (CleanerEngine._resolve_action (w_self w) r = "recycle")
           then send2trash else None) = None) as ->.
  { case_bool_decide; [by apply Htrash | done]. }
  destruct (bool_decide (CleanerEngine._resolve_action (w_self w) r = "delete")
            || negb (quarantine_enabled (cfg (w_self w)))).
  - unfold delete_calls, Fs.chmod. simpl.
    pose proof (stat_not_hang (w_fs w) p) as Hnh.
    destruct (Fs.stat (w_fs w) p) as [st|e|] eqn:Hst; simpl; [| |done].
    + pose proof (follow_not_hang Fs.MAXSYMLINKS (w_fs w) p) as Hnf.
      destruct (Fs.follow Fs.MAXSYMLINKS (w_fs w) p) as [[q [d mt md| |t]]|e|];
        simpl; try done.
      all: match goal with
           | |- context [Fs.unlink ?q ?fs] => destruct (Fs.unlink q fs) as [[[]|e'|] fs']
           end; reflexivity.
    + destruct (Fs.unlink p (w_fs w)) as [[[]|e'|] fs']; reflexivity.
  - unfold quarantine_calls, quarantine_dest, CleanerEngine.ensure_quarantine.
    unfold_monad. simpl.
    destruct (Fs.mkdir QUARANTINE_DIR (w_fs w)) as [[[]|e1|] fs1]; simpl; try reflexivity.
    destruct (Fs.mkdir (Pathlib.joinpath QUARANTINE_DIR (name r)) fs1)
      as [[[]|e2|] fs2]; simpl; try reflexivity.
    unfold Pathlib.relative_to, resolve_base_call.
    destruct (resolve_error (path r)) as [er|]; simpl;
      [|destruct (decide (resolve_base r `prefix_of` p)); simpl];
      (match goal with
       | |- context [Pathlib.with_suffix ?a ?b] =>
           destruct (Pathlib.with_suffix a b) as [dest|e4|]
       end); simpl; try reflexivity;
      (match goal with
       | |- context [Fs.mkdir (Pathlib.parent ?d) ?f] =>
           destruct (Fs.mkdir (Pathlib.parent d) f) as [[[]|e5|] fs3]
       end); simpl; try reflexivity;
      (match goal with
       | |- context [Fs.move ?a ?b ?c] =>
           destruct (Fs.move a b c) as [[[]|e6|] fs4]
       end); reflexivity.
Qed.


Lemma quarantine_dir_eq : QUARANTINE_DIR = home ++ [".garbage_cleaner_quarantine"].
Proof. reflexivity. Qed.



End BranchFacts.

Section RecycleFacts.
Context `{Platform}.






End RecycleFacts.

(* ================================================================== *)
(** * Facts: the scheduler *)

Lemma run_action_returns (action : string) (a : AppState) :
  ∃ a', SimpleScheduler._run_action action a = (Ret tt, a')
        ∧ tasks a' = tasks a ∧ schedule_file a' = schedule_file a.
Proof.
  unfold SimpleScheduler._run_action.
  repeat case_bool_decide; eexists; (split; [reflexivity|]); split; reflexivity.
Qed.

(** One entry at one tick, by whether a target can be computed and
    whether the clock is inside the window. *)
Lemma tick_task_eq (now : datetime) (t : task) (a : AppState) :
  SimpleScheduler.tick_task now t a =
  match target_of now t with
  | Ret target =>
      if SimpleScheduler.in_window now target
      then SimpleScheduler._run_action (default "" (t !! "action")) a
      else (Ret tt, a)
  | Raise _ => (Ret tt, a)
  | Hang => (Hang, a)
  end.
Proof.
  unfold SimpleScheduler.tick_task, target_of. unfold_monad.
  destruct (SimpleScheduler.parse_hh_mm _) as [[hh mm]|e|]; simpl; try reflexivity.
  destruct (Datetime.replace_hm now hh mm) as [target|e|]; simpl; try reflexivity.
  destruct (SimpleScheduler.in_window now target); [|reflexivity].
  destruct (run_action_returns (default "" (t !! "action")) a) as (a' & -> & _).
  reflexivity.
Qed.

Lemma target_of_not_hang (now : datetime) (t : task) : target_of now t ≠ Hang.
Proof.
  unfold target_of, SimpleScheduler.parse_hh_mm, Datetime.replace_hm.
  repeat case_match; done.
Qed.

Lemma in_window_spec (now target : datetime) :
  SimpleScheduler.in_window now target = true
  ↔ 0 ≤ Datetime.micros now - Datetime.micros target < 30000000.
Proof.
  unfold SimpleScheduler.in_window, Datetime.ge, Datetime.sub, Datetime.seconds.
  rewrite andb_true_iff, !bool_decide_eq_true. lia.
Qed.





(** C6, as amended.  At a tick an entry with a well-formed time fires
    its action exactly when the clock is at or after today's target and
    less than 30 seconds past it; [scan], [clean], [purge_pip] and
    [purge_npm] start the matching entry point.  It fires at every such
    tick: nothing records that the window was served, so with ticks 15
    seconds apart it may fire twice, and never at three ticks in a row. *)
Theorem tick_fires_inside_window (now : datetime) (t : task) (target : datetime)
  (a : AppState) :
  target_of now t = Ret target →
  (0 ≤ Datetime.micros now - Datetime.micros target < 30000000 →
   SimpleScheduler.tick_task now t a
   = SimpleScheduler._run_action (default "" (t !! "action")) a)
  ∧ (¬ 0 ≤ Datetime.micros now - Datetime.micros target < 30000000 →
     SimpleScheduler.tick_task now t a = (Ret tt, a))
  ∧ SimpleScheduler._run_action "scan" a = CleanerApp.start scan_async a
  ∧ SimpleScheduler._run_action "clean" a = CleanerApp.start clean_async a
  ∧ SimpleScheduler._run_action "purge_pip" a = CleanerApp.start purge_pip_cache_async a
  ∧ SimpleScheduler._run_action "purge_npm" a = CleanerApp.start purge_npm_cache_async a
  ∧ (∀ tick2 tick3 : datetime,
       Datetime.seconds 15 ≤ Datetime.micros tick2 - Datetime.micros now →
       Datetime.seconds 15 ≤ Datetime.micros tick3 - Datetime.micros tick2 →
       SimpleScheduler.in_window now target = true →
       SimpleScheduler.in_window tick3 target = false).
Proof.
  intros Htarget. rewrite !tick_task_eq, Htarget.
  split; [|split].
  - intros Hin. apply in_window_spec in Hin. by rewrite Hin.
  - intros Hout. destruct (SimpleScheduler.in_window now target) eqn:Hw; [|reflexivity].
    apply in_window_spec in Hw. done.
  - repeat split.
    intros tick2 tick3 H12 H23 Hin. apply in_window_spec in Hin.
    apply not_true_is_false. rewrite in_window_spec.
    unfold Datetime.seconds in *. lia.
Qed.

(* ================================================================== *)
(** * The claims on the test bench *)

(** C10 at work: a paused worker polls through an idle turn and leaves
    the loop at the poll after [stop] is called. *)
Lemma stop_releases_paused_worker_bench :
  ∃ e rest,
    CleanerEngine.wait_loop Bench.paused_engine ([[]] ++ ([] ++ [CallStop]) :: [[]])
    = Some (e, rest)
    ∧ [[]] `suffix_of` rest.
Proof.
  destruct (stop_releases_paused_worker Bench.paused_engine [[]])
    as (_ & _ & _ & _ & _ & Hrel).
  exact (Hrel [[]] []).
Defined.

(** Without any call to come, the same worker waits for ever. *)
Example paused_worker_waits :
  CleanerEngine.wait_loop Bench.paused_engine [] = None.
Proof. reflexivity. Qed.

(** C1 at work: a dry run over [/data/sub/a.txt] reports one file of
    five bytes, and [cleanup_empty_dirs] returns at once. *)
Lemma dry_run_changes_nothing_bench :
  dry_run (cfg (w_self Bench.w_dry)) = true
  ∧ (CleanerEngine.act_on_files (H := Bench.posix)
       {| rule := Bench.rule_R "delete"; files := [Bench.src_a]; total_size := 5 |}
       Bench.w_dry).1 = Ret (1, 5)
  ∧ CleanerEngine.cleanup_empty_dirs ["data"] Bench.w_dry = (Ret tt, Bench.w_dry).
Proof.
  destruct (dry_run_changes_nothing (H := Bench.posix)
              {| rule := Bench.rule_R "delete"; files := [Bench.src_a]; total_size := 5 |}
              ["data"] Bench.w_dry eq_refl) as (_ & Hquiet & Hclean).
  split; [reflexivity|]. split; [|exact Hclean].
  rewrite Hquiet by (repeat split). vm_compute. reflexivity.
Defined.



(** C3 on the bench: a cap of 1 and two patterns, each matching one
    file.  The [break] leaves the loop over the first pattern's matches
    only, and the scan goes on to take a second file. *)
Lemma cap_overrun_with_two_patterns :
  max_delete_per_rule (cfg (w_self Bench.w_ab)) = 1
  ∧ (CleanerEngine.enumerate_rule (H := Bench.posix) Bench.rule_ab Bench.w_ab).1
    = Ret {| rule := Bench.rule_ab;
             files := [["tmp"; "x"; "one.a"]; ["tmp"; "x"; "two.b"]];
             total_size := 5 |}.
Proof. vm_compute. split; reflexivity. Qed.

(** With one pattern the cap holds: three files out of ten. *)
Example cap_three_of_ten :
  ∃ sr, (CleanerEngine.enumerate_rule (H := Bench.posix) (Bench.rule_aged 0) Bench.w_ten).1
        = Ret sr
        ∧ length (files sr) = 3%nat.
Proof. eexists. split; [vm_compute; reflexivity | reflexivity]. Qed.

(** X1 at work on the two-pattern rule of the bench: cap 1, two
    patterns, at most two files. *)
Lemma cap_bound_bench :
  ∃ sr, CleanerEngine.enumerate_rule (H := Bench.posix) Bench.rule_ab Bench.w_ab
        = (Ret sr, Bench.w_ab)
        ∧ Z.of_nat (length (files sr)) ≤ 1 + Z.max 0 (2 - 1).
Proof.
  destruct (enumerate_rule_quiet (H := Bench.posix) Bench.rule_ab Bench.w_ab)
    as [sr Hrun]; [repeat split|reflexivity|].
  exists sr. split; [exact Hrun|].
  apply (cap_holds_up_to_one_file_per_extra_pattern (H := Bench.posix)
           Bench.rule_ab Bench.w_ab sr Bench.w_ab); [reflexivity | exact Hrun].
Defined.




(** A file in its rule's own quarantine folder: the call reports
    success and the file is where it was. *)
Example quarantine_of_a_quarantined_file :
  resolve_base (H := Bench.posix) Yard.rule_own_folder
  = QUARANTINE_DIR (H := Bench.posix) ++ ["R"]
  ∧ ∃ w',
      CleanerEngine._recycle_or_quarantine_or_delete (H := Bench.posix)
        (resolve_base (H := Bench.posix) Yard.rule_own_folder ++ ["sub"; "a.txt"])
        Yard.rule_own_folder Yard.w_own_folder = (Ret true, w')
      ∧ w_fs w' !! (resolve_base (H := Bench.posix) Yard.rule_own_folder ++ ["sub"; "a.txt"])
        = Some (File "hello" 100 420).
Proof.
  split; [vm_compute; reflexivity|].
  eexists. split; [vm_compute; reflexivity|]. vm_compute. reflexivity.
Qed.

(** C5, as amended, on the bench: ["7pm"] is read as no time and never
    fires; ["-0:+5"] and ["1_0 :3_0"] are read as 00:05 and 10:30, and
    the tick ten seconds after 00:05 starts the clean. *)
Example odd_times_at_the_tick :
  (∀ hh mm, ¬ reads_as "7pm" hh mm)
  ∧ (∀ now s, SimpleScheduler.tick_task now Yard.entry_7pm s = (Ret tt, s))
  ∧ plain_time "-0:+5" ∧ reads_as "-0:+5" 0 5
  ∧ plain_time "1_0 :3_0" ∧ reads_as "1_0 :3_0" 10 30
  ∧ started (SimpleScheduler.tick_task (clock 0 5 10 0) Yard.entry_signed
               (app_with Yard.entry_signed)).2 = [clean_async]
  ∧ started (SimpleScheduler.tick_task (clock 10 30 29 0) Yard.entry_underscored
               (app_with Yard.entry_underscored)).2 = [scan_async]
  ∧ started (SimpleScheduler.tick_task (clock 10 30 30 0) Yard.entry_underscored
               (app_with Yard.entry_underscored)).2 = [].
Proof.
  split; [intros hh mm (a & b & [=] & _)|].
  split; [intros now s; reflexivity|].
  split; [split; [reflexivity|vm_compute; lia]|].
  split; [by exists "-0", "+5"|].
  split; [split; [reflexivity|vm_compute; lia]|].
  split; [by exists "1_0 ", "3_0"|].
  split; [vm_compute; reflexivity|]. split; vm_compute; reflexivity.
Qed.


(** C6 refuted on the bench: two ticks 15.002 seconds apart, at
    02:30:10 and 02:30:25, both fall inside the window of a 02:30 entry,
    and the clean is started twice. *)
Lemma two_ticks_fire_twice :
  Datetime.micros (clock 2 30 25 2000) - Datetime.micros (clock 2 30 10 0) = 15002000
  ∧ started (SimpleScheduler.run_ticks [clock 2 30 10 0; clock 2 30 25 2000]
               (app_with Bench.entry_0230)).2
    = [clean_async; clean_async].
Proof. vm_compute. split; reflexivity. Qed.

(** C6, as amended, at work: the tick at 02:30:10 fires the clean. *)
Lemma tick_fires_inside_window_bench :
  SimpleScheduler.tick_task (clock 2 30 10 0) Bench.entry_0230 (app_with Bench.entry_0230)
  = SimpleScheduler._run_action (default "" (Bench.entry_0230 !! "action"))
      (app_with Bench.entry_0230).
Proof.
  assert (target_of (clock 2 30 10 0) Bench.entry_0230 = Ret (clock 2 30 0 0)) as Htarget
    by (vm_compute; reflexivity).
  destruct (tick_fires_inside_window (clock 2 30 10 0) Bench.entry_0230 (clock 2 30 0 0)
              (app_with Bench.entry_0230) Htarget) as [Hin _].
  apply Hin. vm_compute. split; [discriminate | reflexivity].
Defined.

(** The tick at 02:31:00 comes after the window and fires nothing. *)
Example tick_after_window :
  started (SimpleScheduler.tick_task (clock 2 31 0 0) Bench.entry_0230
             (app_with Bench.entry_0230)).2 = [].
Proof. vm_compute. reflexivity. Qed.



(** And a rule whose base path is not there. *)
Example enumerate_skips_missing_base :
  (CleanerEngine.enumerate_rule (H := Bench.posix)
     {| name := "gone"; path := "/nowhere"; patterns := ["*"]; min_age_days := 0;
        remove_empty_dirs := true; action := "delete"; enabled := true |}
     Bench.w_live).1
  = Ret {| rule := {| name := "gone"; path := "/nowhere"; patterns := ["*"];
                      min_age_days := 0; remove_empty_dirs := true;
                      action := "delete"; enabled := true |};
           files := []; total_size := 0 |}.
Proof. vm_compute. reflexivity. Qed.

Lemma bench_aged_quiet (now : Z) : quiet (Bench.boot Bench.fs_aged now Bench.live_config).
Proof. repeat split. Qed.

(** C8 at work: at second 86450 the file written at second 100 is
    younger than one day, and the scan leaves it out. *)
Lemma age_filter_bench :
  ∃ sr,
    CleanerEngine.enumerate_rule (H := Bench.posix) (Bench.rule_aged 1)
      (Bench.boot Bench.fs_aged 86450 Bench.live_config)
    = (Ret sr, Bench.boot Bench.fs_aged 86450 Bench.live_config)
    ∧ ["tmp"; "x"; "a.tmp"] ∉ files sr.
Proof.
  destruct (enumerate_rule_quiet (H := Bench.posix) (Bench.rule_aged 1) _
              (bench_aged_quiet 86450) eq_refl) as [sr Hrun].
  exists sr. split; [exact Hrun|].
  destruct (age_filter (H := Bench.posix) _ _ _ _ Hrun) as [Hnew _].
  apply (Hnew ltac:(reflexivity) ["tmp"; "x"; "a.tmp"]
           {| st_size := 5; st_mtime := 100; st_mode := 420; st_isdir := false |}).
  - vm_compute. reflexivity.
  - vm_compute. reflexivity.
Defined.




(* ================================================================== *)
(** * Facts: what a scan returns *)

Section ScanResultFacts.
Context `{Platform}.

Lemma total_bytes_snoc (fs : gmap Path node) (ps : list Path) (p : Path) :
  total_bytes fs (ps ++ [p]) = total_bytes fs ps + size_or_zero fs p.
Proof.
  induction ps as [|q ps IH]; simpl; [lia|].
  change (foldr (λ p acc, size_or_zero fs p + acc) 0 (ps ++ [p]))
    with (total_bytes fs (ps ++ [p])).
  rewrite IH. unfold total_bytes. lia.
Qed.

Lemma take_file_seen (p : Path) (w : world) (v : scan_vars) :
  seen (take_file p w v) = {[p]} ∪ seen v.
Proof. unfold take_file. destruct (Fs.stat _ _); reflexivity. Qed.

Lemma tidy_take_file (p : Path) (w : world) (v : scan_vars) :
  p ∉ seen v → tidy (w_fs w) v → tidy (w_fs w) (take_file p w v).
Proof.
  intros Hp (Hnd & Hseen & Hsize). unfold tidy.
  rewrite take_file_files, take_file_seen, take_file_total_size.
  split; [|split].
  - apply NoDup_app. split; [done|]. split; [|apply NoDup_singleton].
    intros q Hq ->%list_elem_of_singleton. by apply Hp, Hseen.
  - intros q. rewrite elem_of_app, list_elem_of_singleton, elem_of_union, elem_of_singleton.
    rewrite Hseen. tauto.
  - rewrite total_bytes_snoc. lia.
Qed.

(** The loop over one generator keeps the local variables tidy, and
    takes paths the generator yielded only. *)
Lemma scan_candidates_tidy (r : PathRule) (cutoff : Z) (cands : list Path) :
  ∀ (w : world) (v : scan_vars) o s',
    CleanerEngine.scan_candidates r cutoff cands (w, v) = (o, s') →
    tidy (w_fs w) v →
    tidy (w_fs w) s'.2
    ∧ ∃ added, files (res s'.2) = files (res v) ++ added
               ∧ ∀ q, q ∈ added → q ∈ cands.
Proof.
  induction cands as [|p rest IH]; intros w v o s' Hrun Ht.
  - simpl in Hrun. unfold_monad. simplify_eq. simpl.
    split; [done|]. exists []; rewrite app_nil_r; split; [done|]; intros q Hq; by apply elem_of_nil in Hq.
  - rewrite scan_candidates_cons in Hrun. cbv zeta in Hrun.
    destruct (_stop (w_self (CleanerEngine.others_run w))).
    { simplify_eq. simpl. split; [done|]. exists []; rewrite app_nil_r; split; [done|]; intros q Hq; by apply elem_of_nil in Hq. }
    destruct (CleanerEngine.wait_loop _ _) as [[e others]|].
    2:{ simplify_eq. simpl. split; [done|]. exists []; rewrite app_nil_r; split; [done|]; intros q Hq; by apply elem_of_nil in Hq. }
    pose proof (others_run_same w) as (Hfs & _).
    set (w2 := set_engine e others (CleanerEngine.others_run w)) in *.
    assert (w_fs w2 = w_fs w) as Hfs2 by exact Hfs.
    rewrite scan_file_eq in Hrun.
    destruct (verdict r cutoff p w2 v) as [[]|e'|] eqn:Hv.
    + apply verdict_true in Hv as [Hnew _].
      assert (tidy (w_fs w) (take_file p w2 v)) as Ht2.
      { rewrite <- Hfs2. apply tidy_take_file; [done|]. by rewrite Hfs2. }
      case_bool_decide.
      * simplify_eq. simpl. split; [done|].
        exists [p]. rewrite take_file_files. split; [done|].
        intros q ->%list_elem_of_singleton. left.
      * apply IH in Hrun as (Ht3 & added & Hf & Hin); [|by rewrite Hfs2].
        rewrite Hfs2 in Ht3. split; [done|].
        exists (p :: added). rewrite Hf, take_file_files, <- app_assoc.
        split; [done|]. intros q [->|Hq]%elem_of_cons; [left|right; auto].
    + apply IH in Hrun as (Ht3 & added & Hf & Hin); [|by rewrite Hfs2].
      rewrite Hfs2 in Ht3. split; [done|].
      exists added. split; [done|]. intros q Hq. right. auto.
    + simplify_eq. simpl. split; [done|]. exists []; rewrite app_nil_r; split; [done|]; intros q Hq; by apply elem_of_nil in Hq.
    + simplify_eq. simpl. split; [done|]. exists []; rewrite app_nil_r; split; [done|]; intros q Hq; by apply elem_of_nil in Hq.
Qed.

Lemma scan_patterns_tidy (r : PathRule) (cutoff : Z) (pats : list string) :
  ∀ (w : world) (v : scan_vars) o s',
    CleanerEngine.scan_patterns r (resolve_base r) cutoff pats (w, v) = (o, s') →
    tidy (w_fs w) v →
    tidy (w_fs w) s'.2
    ∧ ∃ added, files (res s'.2) = files (res v) ++ added
               ∧ ∀ q, q ∈ added →
                   ∃ pattern accepts,
                     pattern ∈ pats ∧ glob_compile pattern = Some accepts
                     ∧ q ∈ Fs.rglob accepts (w_fs w) (resolve_base r).
Proof.
  induction pats as [|pattern rest IH]; intros w v o s' Hrun Ht.
  - simpl in Hrun. unfold_monad. simplify_eq. simpl.
    split; [done|]. exists []. rewrite app_nil_r. split; [done|].
    intros q Hq. by apply elem_of_nil in Hq.
  - rewrite scan_patterns_cons in Hrun.
    destruct (glob_compile pattern) as [accepts|] eqn:Hg.
    2:{ apply IH in Hrun as (Ht2 & added & Hf & Hin); [|done].
        split; [done|]. exists added. split; [done|].
        intros q Hq. destruct (Hin q Hq) as (pt & ac & ? & ? & ?).
        exists pt, ac. split; [by right|done]. }
    destruct (CleanerEngine.scan_candidates _ _ _ _) as [o1 [w1 v1]] eqn:Hc.
    pose proof (scan_candidates_run _ _ _ _ _ _ _ Hc) as ((Hfs1 & _) & _).
    apply scan_candidates_tidy in Hc as (Ht1 & added1 & Hf1 & Hin1); [|done].
    simpl in Hfs1, Ht1, Hf1.
    assert (∀ q, q ∈ added1 →
              ∃ pt ac, pt ∈ pattern :: rest ∧ glob_compile pt = Some ac
                       ∧ q ∈ Fs.rglob ac (w_fs w) (resolve_base r)) as Hin1'.
    { intros q Hq. exists pattern, accepts. split; [left|]. auto. }
    assert (∀ o2 s2,
      CleanerEngine.scan_patterns r (resolve_base r) cutoff rest (w1, v1) = (o2, s2) →
      tidy (w_fs w) s2.2
      ∧ ∃ added, files (res s2.2) = files (res v) ++ added
                 ∧ ∀ q, q ∈ added →
                     ∃ pt ac, pt ∈ pattern :: rest ∧ glob_compile pt = Some ac
                              ∧ q ∈ Fs.rglob ac (w_fs w) (resolve_base r)) as Hnext.
    { intros o2 s2 Hrest.
      apply IH in Hrest as (Ht2 & added2 & Hf2 & Hin2); [|by rewrite Hfs1].
      rewrite Hfs1 in Ht2, Hin2. split; [done|].
      exists (added1 ++ added2). rewrite Hf2, Hf1, <- app_assoc. split; [done|].
      intros q [Hq|Hq]%elem_of_app; [auto|].
      destruct (Hin2 q Hq) as (pt & ac & ? & ? & ?).
      exists pt, ac. split; [by right|done]. }
    destruct o1 as [[]|e|]; simplify_eq;
      first [ exact (Hnext _ _ Hrun) | simpl; split; [done|]; by exists added1 ].
Qed.

Lemma elem_of_rglob (accepts : Path → bool) (fs : gmap Path node) (base p : Path) :
  p ∈ Fs.rglob accepts fs base
  ↔ base `prefix_of` p ∧ p ≠ base ∧ accepts (drop (length base) p) = true
    ∧ is_Some (fs !! p).
Proof.
  unfold Fs.rglob, Fs.listing, Fs.strictly_under.
  rewrite list_elem_of_filter, list_elem_of_fmap.
  rewrite andb_True, negb_True, !bool_decide_spec, Is_true_true.
  split.
  - intros [[[Hu Hne] Hacc] [[k nd] [-> Hin]]].
    apply elem_of_map_to_list in Hin. simpl in *. eauto 10.
  - intros (Hu & Hne & Hacc & [nd Hnd]). split; [done|].
    exists (p, nd). split; [done|]. by apply elem_of_map_to_list.
Qed.

(** The result of a scan is tidy, and each of its files was yielded by
    a pattern of the rule. *)
Lemma enumerate_rule_tidy (r : PathRule) (w : world) (sr : ScanResult) (w' : world) :
  CleanerEngine.enumerate_rule r w = (Ret sr, w') →
  NoDup (files sr)
  ∧ total_size sr = total_bytes (w_fs w) (files sr)
  ∧ ∀ p, p ∈ files sr → matched r (w_fs w) p.
Proof.
  rewrite enumerate_rule_eq.
  destruct (enabled r); simpl.
  2:{ intros [= <- <-]. simpl.
      split; [constructor|]. split; [done|]. intros p Hp. by apply elem_of_nil in Hp. }
  destruct (base_refusal r); [discriminate|].
  destruct (Fs.exists_ (w_fs w) (resolve_base r)); simpl.
  2:{ intros [= <- <-]. simpl.
      split; [constructor|]. split; [done|]. intros p Hp. by apply elem_of_nil in Hp. }
  unfold CleanerEngine.with_locals. unfold_monad.
  destruct (CleanerEngine.scan_patterns _ _ _ _ _) as [o1 [w1 v1]] eqn:Hp.
  apply scan_patterns_tidy in Hp as ((Hnd & _ & Hsize) & added & Hf & Hin).
  2:{ split; [constructor|]. split; [|done]. intros p. simpl.
      rewrite elem_of_nil, elem_of_empty. done. }
  simpl in *. destruct o1 as [[]|e|]; intros [= <- <-].
  split; [done|]. split; [done|].
  intros p Hp. rewrite Hf in Hp.
  destruct (Hin p Hp) as (pt & ac & Hpt & Hg & Hrg). by exists pt, ac.
Qed.

(** X2. What a scan returns.  Whatever other threads do with the stop
    and pause flags, a returned [ScanResult] names its rule, holds no
    path twice even when several patterns match it, and its
    [total_size] is the sum of the sizes of its files ([0] for a file
    whose [stat] fails).  Every file in it is an entry of the file
    system strictly below the rule's base that one of the rule's
    patterns yields, is not a directory, and is not a symbolic link
    unless [follow_symlinks] is set. *)
Theorem scan_result_is_consistent (r : PathRule) (w : world) (sr : ScanResult)
  (w' : world) :
  CleanerEngine.enumerate_rule r w = (Ret sr, w') →
  rule sr = r
  ∧ NoDup (files sr)
  ∧ total_size sr = total_bytes (w_fs w) (files sr)
  ∧ ∀ p, p ∈ files sr →
      matched r (w_fs w) p
      ∧ resolve_base r `prefix_of` p ∧ p ≠ resolve_base r
      ∧ is_Some (w_fs w !! p)
      ∧ Fs.is_dir (w_fs w) p = false
      ∧ (follow_symlinks (cfg (w_self w)) = false → Fs.is_symlink (w_fs w) p = false).
Proof.
  intros Hrun.
  pose proof (enumerate_rule_run _ _ _ _ Hrun) as (_ & _ & Hel & _).
  destruct (Hel sr eq_refl) as [Hrule Hall].
  destruct (enumerate_rule_tidy _ _ _ _ Hrun) as (Hnd & Hsize & Hm).
  do 3 (split; [done|]).
  intros p Hp. split; [by apply Hm|].
  destruct (Hm p Hp) as (pt & ac & _ & _ & Hrg).
  apply elem_of_rglob in Hrg as (Hu & Hne & _ & Hsome).
  rewrite Forall_forall in Hall. destruct (Hall p Hp) as (Hd & Hl & _). auto.
Qed.

(** ** Completeness *)

Lemma follow_eq (hops : nat) (fs : gmap Path node) (p : Path) :
  Fs.follow hops fs p =
  match fs !! p with
  | None => Raise FileNotFoundError
  | Some (Symlink t) =>
      match hops with
      | O => Raise OSError
      | S h => Fs.follow h fs t
      end
  | Some nd => Ret (p, nd)
  end.
Proof. destruct hops; reflexivity. Qed.









End ScanResultFacts.

(* ================================================================== *)
(** * Facts: what acting on files does *)

Section ActResultFacts.
Context `{Platform}.

Lemma set_fs_same (w : world) : set_fs (w_fs w) w = w.
Proof. by destruct w. Qed.

(** The attempt of [_recycle_or_quarantine_or_delete] in closed form. *)
Lemma attempt_eq (p : Path) (r : PathRule) (w : world) :
  attempt p r w =
  if dry_run (cfg (w_self w)) then (Ret true, w)
  else attempted w (branch_calls p r (w_self w) (w_fs w)).
Proof.
  destruct (dry_run (cfg (w_self w))) eqn:Hdry; [by apply dry_run_one_file_to|].
  unfold branch_calls.
  destruct (if bool_decide (CleanerEngine._resolve_action (w_self w) r = "recycle")
            then send2trash else None) as [trash|] eqn:Htrash.
  - unfold attempt, CleanerEngine._recycle_or_quarantine_or_delete_to, attempted.
    unfold_monad. simpl. rewrite Hdry, Htrash.
    destruct (trash p (w_fs w)) as [[[]|e|] fs']; reflexivity.
  - apply attempt_branch; [done|]. intros Hact.
    by rewrite Hact, bool_decide_eq_true_2 in Htrash.
Qed.

(** [_recycle_or_quarantine_or_delete] in closed form. *)
Lemma act_one_eq (p : Path) (r : PathRule) (w : world) :
  CleanerEngine._recycle_or_quarantine_or_delete p r w =
  if dry_run (cfg (w_self w)) then (Ret true, w)
  else reported p w (branch_calls p r (w_self w) (w_fs w)).
Proof.
  unfold CleanerEngine._recycle_or_quarantine_or_delete.
  rewrite act_one_to, attempt_eq.
  destruct (dry_run (cfg (w_self w))); [reflexivity|].
  destruct (branch_calls p r (w_self w) (w_fs w)) as [[[]|e|] fs']; reflexivity.
Qed.

Lemma keep_line_keeps : keeps_the_line CleanerEngine.keep_line.
Proof. intros p e w. exists (w_fs w). by rewrite set_fs_same. Qed.

(** One call changes the file system, and the log by at most one line
    about [p]; it never raises. *)
Lemma act_one_shape_to (log : Path → exn → M world unit) (p : Path) (r : PathRule)
  (w : world) :
  keeps_the_line log →
  ∃ fs',
    CleanerEngine._recycle_or_quarantine_or_delete_to log p r w = (Ret true, set_fs fs' w)
    ∨ (∃ e, CleanerEngine._recycle_or_quarantine_or_delete_to log p r w
            = (Ret false, add_log p e (set_fs fs' w)))
    ∨ CleanerEngine._recycle_or_quarantine_or_delete_to log p r w = (Hang, set_fs fs' w).
Proof.
  intros Hlog. rewrite act_one_to, attempt_eq. destruct (dry_run (cfg (w_self w))).
  { exists (w_fs w). left. by rewrite set_fs_same. }
  destruct (branch_calls p r (w_self w) (w_fs w)) as [[[]|e|] fs']; simpl.
  - exists fs'. by left.
  - destruct (Hlog p e (set_fs fs' w)) as [fs2 ->]. exists fs2. right. left. by exists e.
  - exists fs'. by right; right.
Qed.

Lemma act_one_shape (p : Path) (r : PathRule) (w : world) :
  ∃ fs',
    CleanerEngine._recycle_or_quarantine_or_delete p r w = (Ret true, set_fs fs' w)
    ∨ (∃ e, CleanerEngine._recycle_or_quarantine_or_delete p r w
            = (Ret false, add_log p e (set_fs fs' w)))
    ∨ CleanerEngine._recycle_or_quarantine_or_delete p r w = (Hang, set_fs fs' w).
Proof. apply act_one_shape_to, keep_line_keeps. Qed.

Lemma size_or_zero_nonneg (fs : gmap Path node) (p : Path) : 0 ≤ size_or_zero fs p.
Proof.
  unfold size_or_zero, Fs.stat.
  destruct (Fs.follow _ _ _) as [[q [d mt md| |t]]|e|]; simpl; lia.
Qed.

Lemma total_bytes_nonneg (fs : gmap Path node) (ps : list Path) : 0 ≤ total_bytes fs ps.
Proof.
  induction ps as [|p ps IH]; [done|].
  rewrite total_bytes_cons. pose proof (size_or_zero_nonneg fs p). lia.
Qed.

(** The loop of [act_on_files], whatever the files and the other
    threads: the counters only grow, every file passed is counted or
    logged at most once, and the count stays within [max_total_delete]. *)
Lemma act_loop_to_bounds (log : Path → exn → M world unit) (r : PathRule)
  (ps : list Path) :
  keeps_the_line log →
  ∀ (d f : Z) (w : world) o w',
    CleanerEngine.act_loop_to log r ps d f w = (o, w') →
    cfg (w_self w') = cfg (w_self w)
    ∧ w_now w' = w_now w
    ∧ ∃ logged,
        w_log w' = w_log w ++ logged
        ∧ Forall (λ x, x.1 ∈ ps) logged
        ∧ (o = Hang
           ∨ ∃ d' f', o = Ret (d', f')
               ∧ d ≤ d' ∧ f ≤ f'
               ∧ (d' - d) + Z.of_nat (length logged) ≤ Z.of_nat (length ps)
               ∧ d' ≤ Z.max d (max_total_delete (cfg (w_self w)))).
Proof.
  intros Hkeeps. induction ps as [|p rest IH]; intros d f w o w' Hrun.
  - simpl in Hrun. unfold_monad. simplify_eq.
    split; [done|]. split; [done|]. exists []. rewrite app_nil_r.
    split; [done|]. split; [constructor|]. right. exists d, f. simpl. repeat split; lia.
  - rewrite act_loop_to_cons in Hrun. cbv zeta in Hrun.
    pose proof (others_run_same w) as (_ & Hnow1 & Hlog1 & Hcfg1).
    destruct (_stop (w_self (CleanerEngine.others_run w))).
    { simplify_eq. split; [done|]. split; [done|]. exists []. rewrite app_nil_r.
      split; [done|]. split; [constructor|]. right. exists d, f.
      simpl length. repeat split; lia. }
    destruct (CleanerEngine.wait_loop _ _) as [[e others]|] eqn:Hwait.
    2:{ simplify_eq. split; [done|]. split; [done|]. exists []. rewrite app_nil_r.
        split; [done|]. split; [constructor|]. by left. }
    apply wait_loop_cfg in Hwait.
    set (w2 := set_engine e others (CleanerEngine.others_run w)) in *.
    assert (cfg (w_self w2) = cfg (w_self w)) as Hcfg2 by (simpl; congruence).
    assert (w_log w2 = w_log w) as Hlog2 by exact Hlog1.
    assert (w_now w2 = w_now w) as Hnow2 by exact Hnow1.
    case_bool_decide as Hcap.
    { simplify_eq. split; [done|]. split; [done|]. exists []. rewrite app_nil_r.
      split; [done|]. split; [constructor|]. right. exists d, f.
      simpl length. repeat split; lia. }
    pose proof (size_or_zero_nonneg (w_fs w2) p) as Hsize.
    destruct (act_one_shape_to log p r w2 Hkeeps) as (fs' & [Hone | [[e1 Hone] | Hone]]);
      rewrite Hone in Hrun.
    + apply IH in Hrun as (Hcfg3 & Hnow3 & logged & Hlog3 & Hall & Hres).
      simpl in Hcfg3, Hnow3, Hlog3.
      split; [congruence|]. split; [congruence|]. exists logged.
      split; [congruence|].
      split; [eapply Forall_impl; [exact Hall|]; intros x Hx; by right|].
      destruct Hres as [->|(d' & f' & -> & ? & ? & ? & Hmax)]; [by left|right].
      change (cfg (w_self (set_fs fs' w2))) with (cfg (w_self w2)) in Hmax.
      exists d', f'. rewrite Hcfg2 in *. simpl length. repeat split; lia.
    + apply IH in Hrun as (Hcfg3 & Hnow3 & logged & Hlog3 & Hall & Hres).
      simpl in Hcfg3, Hnow3, Hlog3.
      split; [congruence|]. split; [congruence|]. exists ((p, e1) :: logged).
      split.
      { transitivity ((w_log w ++ [(p, e1)]) ++ logged); [|by rewrite <- app_assoc].
        rewrite Hlog3. do 2 f_equal. exact Hlog2. }
      split.
      { constructor; [left|].
        eapply Forall_impl; [exact Hall|]; intros x Hx; by right. }
      destruct Hres as [->|(d' & f' & -> & ? & ? & ? & Hmax)]; [by left|right].
      change (cfg (w_self (add_log p e1 (set_fs fs' w2)))) with (cfg (w_self w2)) in Hmax.
      exists d', f'. rewrite Hcfg2 in *. simpl length. repeat split; lia.
    + simplify_eq. split; [done|]. split; [done|]. exists []. rewrite app_nil_r.
      split; [done|]. split; [constructor|]. by left.
Qed.

Lemma act_loop_bounds (r : PathRule) (ps : list Path) :
  ∀ (d f : Z) (w : world) o w',
    CleanerEngine.act_loop r ps d f w = (o, w') →
    cfg (w_self w') = cfg (w_self w)
    ∧ w_now w' = w_now w
    ∧ ∃ logged,
        w_log w' = w_log w ++ logged
        ∧ Forall (λ x, x.1 ∈ ps) logged
        ∧ (o = Hang
           ∨ ∃ d' f', o = Ret (d', f')
               ∧ d ≤ d' ∧ f ≤ f'
               ∧ (d' - d) + Z.of_nat (length logged) ≤ Z.of_nat (length ps)
               ∧ d' ≤ Z.max d (max_total_delete (cfg (w_self w)))).
Proof. apply act_loop_to_bounds, keep_line_keeps. Qed.

(** X5. [act_on_files] never raises, and its counts are bounded.
    Whatever the files, the file system and the other threads, the call
    returns or waits in a pause nobody ends.  It leaves the
    configuration and the clock alone and only appends to the log, each
    line about a file of the result.  When it returns [(deleted_files,
    freed_bytes)], both are at least 0, [deleted_files] is at most
    [max_total_delete] (at most 0 for a negative cap), and
    [deleted_files] plus the number of lines logged is at most the
    number of files of the result. *)
Theorem act_counts_are_bounded (sr : ScanResult) (w : world) :
  ∃ o w' logged,
    CleanerEngine.act_on_files sr w = (o, w')
    ∧ cfg (w_self w') = cfg (w_self w)
    ∧ w_now w' = w_now w
    ∧ w_log w' = w_log w ++ logged
    ∧ (∀ p e, (p, e) ∈ logged → p ∈ files sr)
    ∧ (o = Hang
       ∨ ∃ d f, o = Ret (d, f)
           ∧ 0 ≤ d ∧ 0 ≤ f
           ∧ d + Z.of_nat (length logged) ≤ Z.of_nat (length (files sr))
           ∧ d ≤ Z.max 0 (max_total_delete (cfg (w_self w)))).
Proof.
  unfold CleanerEngine.act_on_files.
  destruct (CleanerEngine.act_loop (rule sr) (files sr) 0 0 w) as [o w'] eqn:Hrun.
  apply act_loop_bounds in Hrun as (Hcfg & Hnow & logged & Hlog & Hall & Hres).
  exists o, w', logged. repeat (split; [done|]).
  split.
  { intros p e Hin. rewrite Forall_forall in Hall. exact (Hall _ Hin). }
  destruct Hres as [->|(d' & f' & -> & ? & ? & ? & ?)]; [by left|right].
  exists d', f'. repeat split; lia.
Qed.

(** ** The delete branch *)







Lemma quiet_set_fs (fs : gmap Path node) (w : world) : quiet w → quiet (set_fs fs w).
Proof. done. Qed.



End ActResultFacts.

(* ================================================================== *)
(** * Facts: strings and paths *)

Lemma append_cons (c : ascii) (a b : string) : String c a +:+ b = String c (a +:+ b).
Proof. reflexivity. Qed.










(* ================================================================== *)
(** * Facts: quarantine, links and the trash *)

Section QuarantineFacts.
Context `{Platform}.




(** X9. Hard recycle-only with a trash.  When [hard_recycle_only] is
    set, dry run is off and [send2trash] is there, every call hands the
    path to [send2trash] and does nothing else to the file system,
    whatever the rule's action and whether or not quarantine is
    enabled: it reports success when [send2trash] returns, and logs the
    exception and reports failure when it raises. *)
Theorem hard_recycle_only_hands_to_trash (trash : Path → FsM unit) (p : Path)
  (r : PathRule) (w : world) :
  send2trash = Some trash →
  dry_run (cfg (w_self w)) = false →
  hard_recycle_only (cfg (w_self w)) = true →
  CleanerEngine._recycle_or_quarantine_or_delete p r w
  = match trash p (w_fs w) with
    | (Ret _, fs') => (Ret true, set_fs fs' w)
    | (Raise e, fs') => (Ret false, add_log p e (set_fs fs' w))
    | (Hang, fs') => (Hang, set_fs fs' w)
    end.
Proof.
  intros Htrash Hdry Hhard. rewrite act_one_eq, Hdry.
  unfold branch_calls, CleanerEngine._resolve_action. rewrite Hhard, Htrash.
  reflexivity.
Qed.

End QuarantineFacts.

(* ================================================================== *)
(** * Facts: removing empty directories *)

Lemma filter_none {A} (P : A → Prop) `{∀ x, Decision (P x)} (l : list A) :
  (∀ x, x ∈ l → ¬ P x) → filter P l = [].
Proof.
  induction l as [|x l IH]; intros Hall; [done|].
  rewrite filter_cons_False by (apply Hall; left).
  apply IH. intros y Hy. apply Hall. by right.
Qed.

Lemma children_nil (fs : gmap Path node) (d : Path) :
  Fs.children fs d = [] ↔ hollow fs d.
Proof.
  unfold Fs.children, Fs.listing, hollow. split.
  - intros Hnil k [nd Hk] Hne Hpar.
    assert (k ∈ filter (λ k, k ≠ [] ∧ Pathlib.parent k = d) (map_to_list fs).*1) as Hin.
    { apply list_elem_of_filter. split; [done|].
      apply list_elem_of_fmap. exists (k, nd). split; [done|].
      by apply elem_of_map_to_list. }
    rewrite Hnil in Hin. by apply elem_of_nil in Hin.
  - intros Hh. apply filter_none.
    intros k [[k' nd] [-> Hin]]%list_elem_of_fmap [Hne Hpar].
    apply elem_of_map_to_list in Hin. by eapply Hh.
Qed.

Lemma hollow_subseteq (fs fs' : gmap Path node) (d : Path) :
  fs' ⊆ fs → hollow fs d → hollow fs' d.
Proof.
  intros Hsub Hh k [nd Hk]. apply Hh. exists nd. by eapply lookup_weaken.
Qed.

Lemma sweep_subseteq (root : Path) (fs : gmap Path node) : sweep root fs ⊆ fs.
Proof. unfold sweep. case_decide; [apply delete_subseteq|done]. Qed.


Lemma sweep_removed (root k : Path) (fs : gmap Path node) :
  is_Some (fs !! k) → sweep root fs !! k = None →
  k = root ∧ fs !! root = Some Dir ∧ hollow fs root.
Proof.
  intros [nd Hk] Hgone. unfold sweep in Hgone. case_decide as Hc; [|congruence].
  destruct Hc as [Hdir Hnil]. apply children_nil in Hnil.
  destruct (decide (k = root)) as [->|Hne]; [done|].
  rewrite lookup_delete_ne in Hgone by done. congruence.
Qed.

(** One turn of the loop of [cleanup_empty_dirs]. *)
Lemma cleanup_loop_cons (root : Path) (rest : list Path) (w : world) :
  CleanerEngine.cleanup_loop (root :: rest) w =
  let w1 := CleanerEngine.others_run w in
  if _stop (w_self w1) then (Ret tt, w1)
  else
    match CleanerEngine.wait_loop (w_self w1) (w_others w1) with
    | None => (Hang, w1)
    | Some (e, others) =>
        let w2 := set_engine e others w1 in
        CleanerEngine.cleanup_loop rest (set_fs (sweep root (w_fs w2)) w2)
    end.
Proof.
  simpl. unfold CleanerEngine.stop_is_set, CleanerEngine.wait_if_paused.
  unfold_monad. simpl.
  generalize (CleanerEngine.others_run w). intros w1.
  destruct (_stop (w_self w1)); [reflexivity|].
  destruct (CleanerEngine.wait_loop _ _) as [[e others]|]; simpl; [|reflexivity].
  unfold sweep, Fs.iterdir, Fs.rmdir, Fs.stat, Fs.MAXSYMLINKS.
  rewrite follow_eq.
  destruct w1 as [fs now self oth log]; simpl.
  destruct (fs !! root) as [[d mt md| |t]|] eqn:Hroot; simpl.
  - reflexivity.
  - destruct (decide (Fs.children fs root = [])) as [Hnil|Hsome].
    + rewrite bool_decide_eq_true_2 by done. simpl. rewrite Hroot.
      rewrite !decide_True by done. reflexivity.
    + rewrite bool_decide_eq_false_2 by done.
      rewrite decide_False by (by intros [_ ?]). reflexivity.
  - pose proof (follow_not_hang 39 fs t) as Hnh.
    destruct (Fs.follow 39 fs t) as [[q [d mt md| |t']]|e'|]; simpl;
      try case_bool_decide; simpl; rewrite ?Hroot; done.
  - reflexivity.
Qed.

(** What a run of the loop may do, whatever the other threads do. *)
Lemma cleanup_loop_safe (roots : list Path) :
  ∀ (w : world) o w',
    CleanerEngine.cleanup_loop roots w = (o, w') →
    (o = Ret tt ∨ o = Hang)
    ∧ w_now w' = w_now w ∧ w_log w' = w_log w ∧ cfg (w_self w') = cfg (w_self w)
    ∧ w_fs w' ⊆ w_fs w
    ∧ ∀ k, is_Some (w_fs w !! k) → w_fs w' !! k = None →
           w_fs w !! k = Some Dir ∧ k ∈ roots ∧ hollow (w_fs w') k.
Proof.
  induction roots as [|root rest IH]; intros w o w' Hrun.
  - simpl in Hrun. unfold_monad. simplify_eq. split; [by left|].
    repeat (split; [done|]). intros k [nd Hk] Hno. congruence.
  - rewrite cleanup_loop_cons in Hrun. cbv zeta in Hrun.
    pose proof (others_run_same w) as (Hfs1 & Hnow1 & Hlog1 & Hcfg1).
    destruct (_stop (w_self (CleanerEngine.others_run w))).
    { simplify_eq. split; [by left|]. repeat (split; [done|]).
      rewrite Hfs1. split; [done|]. intros k [nd Hk] Hno. congruence. }
    destruct (CleanerEngine.wait_loop _ _) as [[e others]|] eqn:Hwait.
    2:{ simplify_eq. split; [by right|]. repeat (split; [done|]).
        rewrite Hfs1. split; [done|]. intros k [nd Hk] Hno. congruence. }
    apply wait_loop_cfg in Hwait.
    apply IH in Hrun as (Ho & Hnow & Hlog & Hcfg & Hsub & Hgone).
    simpl in Hnow, Hlog, Hcfg, Hsub, Hgone. rewrite Hfs1 in Hsub, Hgone.
    split; [done|]. split; [congruence|]. split; [congruence|]. split; [congruence|].
    split; [etrans; [exact Hsub|apply sweep_subseteq]|].
    intros k Hk Hno.
    destruct (sweep root (w_fs w) !! k) as [nd|] eqn:Hsw.
    + destruct (Hgone k (mk_is_Some _ _ Hsw) Hno) as (Hdir & Hin & Hh).
      split; [eapply lookup_weaken; [exact Hdir|apply sweep_subseteq]|].
      split; [by right|done].
    + apply sweep_removed in Hsw as (-> & Hdir & Hh); [|done].
      split; [done|]. split; [left|]. eapply hollow_subseteq; [|exact Hh].
      etrans; [exact Hsub|apply sweep_subseteq].
Qed.

Lemma elem_of_walk_bottom_up (fs : gmap Path node) (base k : Path) :
  k ∈ Fs.walk_bottom_up fs base ↔ base `prefix_of` k ∧ fs !! k = Some Dir.
Proof.
  unfold Fs.walk_bottom_up, Fs.listing.
  rewrite merge_sort_Permutation, list_elem_of_filter, list_elem_of_fmap. split.
  - by intros [? _].
  - intros [Hpre Hdir]. split; [done|]. exists (k, Dir). split; [done|].
    by apply elem_of_map_to_list.
Qed.

(** X10. [cleanup_empty_dirs] removes empty directories only.
    Whatever the file system and the other threads, the call never
    raises.  It creates and changes nothing; every entry it removes was
    a directory at or below [base], and no entry of the file system it
    leaves lies inside a removed directory.  Regular files and symbolic
    links all stay.  The clock, the log and the configuration are left
    alone. *)
Theorem cleanup_removes_empty_dirs_only (base : Path) (w : world) :
  ∃ o w',
    CleanerEngine.cleanup_empty_dirs base w = (o, w')
    ∧ (o = Ret tt ∨ o = Hang)
    ∧ w_now w' = w_now w ∧ w_log w' = w_log w ∧ cfg (w_self w') = cfg (w_self w)
    ∧ w_fs w' ⊆ w_fs w
    ∧ ∀ k, is_Some (w_fs w !! k) → w_fs w' !! k = None →
           w_fs w !! k = Some Dir ∧ base `prefix_of` k ∧ hollow (w_fs w') k.
Proof.
  unfold CleanerEngine.cleanup_empty_dirs. unfold_monad. simpl.
  destruct (dry_run (cfg (w_self w))).
  { exists (Ret tt), w. split; [done|]. split; [by left|].
    repeat (split; [done|]). intros k [nd Hk] Hno. congruence. }
  destruct (CleanerEngine.cleanup_loop _ w) as [o w'] eqn:Hrun.
  apply cleanup_loop_safe in Hrun as (Ho & Hnow & Hlog & Hcfg & Hsub & Hgone).
  exists o, w'. repeat (split; [done|]).
  intros k Hk Hno. destruct (Hgone k Hk Hno) as (Hdir & Hin & Hh).
  apply elem_of_walk_bottom_up in Hin as [Hpre _]. done.
Qed.

(** ** In a quiet world *)




#[local] Instance deeper_trans : Transitive Fs.deeper.
Proof. intros p q s. unfold Fs.deeper. lia. Qed.

#[local] Instance deeper_total : Total Fs.deeper.
Proof. intros p q. unfold Fs.deeper. lia. Qed.


(* ================================================================== *)
(** * Facts: the quarantine folder *)

Section EnsureFacts.
Context `{Platform}.

Lemma mkdir_existing (p : Path) (fs : gmap Path node) :
  Fs.is_dir fs p = true → Fs.mkdir p fs = (Ret tt, fs).
Proof.
  intros Hdir. unfold Fs.mkdir.
  assert (is_Some (fs !! p)) as [nd Hp].
  { destruct (fs !! p) eqn:Hp; [by eexists|].
    by rewrite is_dir_absent in Hdir. }
  destruct (length p); simpl; unfold Fs.os_mkdir; rewrite Hp, Hdir; reflexivity.
Qed.

(** X12. [ensure_quarantine] only adds folders, and doing it again
    changes nothing.  The call never waits; it keeps every entry of the
    file system as it is and adds nothing but directories on the way to
    [QUARANTINE_DIR].  When it returns, it returns [QUARANTINE_DIR],
    which is then a directory, and a second call returns the same and
    leaves the world as the first one left it. *)
Theorem ensure_quarantine_is_idempotent (w : world) :
  ∃ o w',
    CleanerEngine.ensure_quarantine w = (o, w')
    ∧ o ≠ Hang
    ∧ w_log w' = w_log w ∧ w_self w' = w_self w
    ∧ w_fs w ⊆ w_fs w'
    ∧ (∀ k, w_fs w !! k = None →
            w_fs w' !! k = None
            ∨ (w_fs w' !! k = Some Dir ∧ k `prefix_of` QUARANTINE_DIR))
    ∧ (∀ q, o = Ret q →
            q = QUARANTINE_DIR
            ∧ Fs.is_dir (w_fs w') QUARANTINE_DIR = true
            ∧ CleanerEngine.ensure_quarantine w' = (Ret QUARANTINE_DIR, w')).
Proof.
  unfold CleanerEngine.ensure_quarantine. unfold_monad.
  destruct (Fs.mkdir QUARANTINE_DIR (w_fs w)) as [o1 fs1] eqn:Hm.
  apply mkdir_spec in Hm as ([Hsub Hnew] & Hnh & Hdir).
  destruct o1 as [[]|e|]; [| |done].
  - eexists _, _. split; [reflexivity|]. simpl. do 5 (split; [done|]).
    intros q [= <-]. split; [done|]. split; [by apply Hdir|].
    rewrite mkdir_existing by (by apply Hdir). simpl. by destruct w.
  - eexists _, _. split; [reflexivity|]. simpl. do 5 (split; [done|]).
    intros q [=].
Qed.

End EnsureFacts.

(* ================================================================== *)
(** * Facts: a whole tick, and the schedule list *)

Lemma run_action_eq (action : string) (a : AppState) :
  SimpleScheduler._run_action action a =
  match action_entry action with
  | Some ep => CleanerApp.start ep a
  | None => CleanerApp._log_to_ui ("Unknown scheduled action: " +:+ action) a
  end.
Proof.
  unfold SimpleScheduler._run_action, action_entry. simpl.
  repeat case_bool_decide; reflexivity.
Qed.

(** The loop of [_tick]: every entry is looked at, in order, and each
    due one starts its entry point or leaves a line in the log. *)
Lemma tick_tasks_eq (now : datetime) (ts : list task) :
  ∀ a : AppState,
    SimpleScheduler.tick_tasks now ts a
    = (Ret tt,
       set_feedback (toasts a)
         (txt_log a ++ omap (complained now) ts)
         (started a ++ omap (fired now) ts) a).
Proof.
  induction ts as [|t rest IH]; intros a.
  - simpl. unfold_monad. rewrite !app_nil_r. by destruct a.
  - simpl. unfold_monad. rewrite tick_task_eq.
    unfold fired, complained, due.
    pose proof (target_of_not_hang now t) as Hnh.
    destruct (target_of now t) as [target|e|]; [| |done].
    + destruct (SimpleScheduler.in_window now target).
      * rewrite run_action_eq.
        destruct (action_entry (default "" (t !! "action"))) as [ep|].
        -- unfold CleanerApp.start. unfold_monad. rewrite IH. simpl.
           by rewrite <- app_assoc.
        -- unfold CleanerApp._log_to_ui. unfold_monad. rewrite IH. simpl.
           by rewrite <- app_assoc.
      * rewrite IH. reflexivity.
    + rewrite IH. reflexivity.
Qed.

Lemma fresh_handle_is_fresh (a : AppState) :
  CleanerApp.fresh_handle a ∉ (fst <$> timers a).
Proof.
  unfold CleanerApp.fresh_handle.
  generalize (fst <$> timers a). intros hs Hin.
  assert (∀ l x, x ∈ l → (x ≤ foldr Nat.max 0 l)%nat) as Hmax.
  { induction l as [|y l IHl]; intros x Hx; [by apply elem_of_nil in Hx|].
    apply elem_of_cons in Hx as [->|Hx]; simpl; [lia|].
    specialize (IHl _ Hx). lia. }
  specialize (Hmax _ _ Hin). lia.
Qed.

(** [_tick] in closed form. *)
Lemma tick_eq (now : datetime) (a : AppState) :
  SimpleScheduler._tick now a =
  (Ret tt,
   {| tasks := tasks a; _h := Some (CleanerApp.fresh_handle a);
      schedule_file := schedule_file a;
      s_name := s_name a; s_action := s_action a; s_time := s_time a;
      toasts := toasts a;
      txt_log := txt_log a ++ omap (complained now) (tasks a);
      started := started a ++ omap (fired now) (tasks a);
      timers := timers a ++ [(CleanerApp.fresh_handle a, 15000)];
      _after_handles := _after_handles a ++ [CleanerApp.fresh_handle a] |}).
Proof.
  unfold SimpleScheduler._tick. unfold_monad. simpl.
  rewrite tick_tasks_eq.
  unfold CleanerApp.after, CleanerApp.register_after. unfold_monad. reflexivity.
Qed.

Lemma stop_eq (a : AppState) :
  SimpleScheduler.stop a = (Ret tt, set_timer None (others_timers a) a).
Proof.
  unfold SimpleScheduler.stop, others_timers, CleanerApp.after_cancel.
  unfold_monad. simpl.
  destruct a as [ts [id|] doc nm act tm to lg st tms hs]; reflexivity.
Qed.

(** X13. One tick, over the whole schedule.  [_tick] never raises and
    leaves the schedule and its document alone.  It looks at every
    entry in order: each entry that is due (its time parses to a valid
    hour and minute and the clock is in the 30 s window) starts the
    entry point of its action, or, when the action is unknown, writes
    "Unknown scheduled action: ..." to the log; entries that are
    malformed or not due are skipped and stop nothing that follows.
    Then it arms one new 15 000 ms timer with a fresh handle, keeps the
    handle in [_h], and registers it. *)
Theorem tick_runs_every_due_entry (now : datetime) (a : AppState) :
  ∃ a' h,
    SimpleScheduler._tick now a = (Ret tt, a')
    ∧ tasks a' = tasks a
    ∧ schedule_file a' = schedule_file a
    ∧ started a' = started a ++ omap (fired now) (tasks a)
    ∧ txt_log a' = txt_log a ++ omap (complained now) (tasks a)
    ∧ toasts a' = toasts a
    ∧ _h a' = Some h
    ∧ (h ∉ fst <$> timers a)
    ∧ timers a' = timers a ++ [(h, 15000)]
    ∧ _after_handles a' = _after_handles a ++ [h].
Proof.
  rewrite tick_eq. eexists _, _. split; [reflexivity|]. simpl.
  repeat (split; [done|]). split; [apply fresh_handle_is_fresh|done].
Qed.

(** X14. Restarting the scheduler does not double its ticks.  [start]
    never raises.  It first cancels the timer the scheduler had pending,
    if any, then runs one tick: afterwards the pending timers are those
    of before without the scheduler's old one, plus the one new 15 000
    ms timer, whose fresh handle is kept in [_h]. *)
Theorem start_cancels_the_pending_tick (now : datetime) (a : AppState) :
  ∃ a' h,
    SimpleScheduler.start now a = (Ret tt, a')
    ∧ _h a' = Some h
    ∧ (h ∉ fst <$> others_timers a)
    ∧ timers a' = others_timers a ++ [(h, 15000)]
    ∧ tasks a' = tasks a
    ∧ started a' = started a ++ omap (fired now) (tasks a).
Proof.
  unfold SimpleScheduler.start. unfold_monad. rewrite stop_eq, tick_eq.
  eexists _, _. split; [reflexivity|]. simpl. split; [done|].
  split; [|done].
  apply (fresh_handle_is_fresh (set_timer None (others_timers a) a)).
Qed.


(* ================================================================== *)
(** * Facts: stripping, splitting and joining *)

Lemma append_assoc (a b c : string) : (a +:+ b) +:+ c = a +:+ (b +:+ c).
Proof. induction a as [|x a IH]; [done|]. by rewrite !append_cons, IH. Qed.










Lemma partition_none_cons (sep c : ascii) (s : string) :
  PyStr.partition sep (String c s) = None ↔ c ≠ sep ∧ PyStr.partition sep s = None.
Proof.
  simpl. destruct (decide (c = sep)); [naive_solver|].
  destruct (PyStr.partition sep s) as [[a b]|]; naive_solver.
Qed.

Lemma partition_none_app (sep : ascii) (a b : string) :
  PyStr.partition sep (a +:+ b) = None
  ↔ PyStr.partition sep a = None ∧ PyStr.partition sep b = None.
Proof.
  induction a as [|c a IH]; [naive_solver|].
  rewrite append_cons, !partition_none_cons, IH. naive_solver.
Qed.





Lemma split_none (sep : ascii) (a : string) :
  PyStr.partition sep a = None → PyStr.split sep a = [a].
Proof.
  induction a as [|c a IH]; [done|]. intros [Hc Ha]%partition_none_cons.
  simpl. rewrite decide_False by done. by rewrite IH.
Qed.

Lemma split_app (sep : ascii) (a b : string) :
  PyStr.partition sep a = None →
  PyStr.split sep (a +:+ String sep b) = a :: PyStr.split sep b.
Proof.
  induction a as [|c a IH].
  - intros _. simpl. by rewrite decide_True.
  - intros [Hc Ha]%partition_none_cons. rewrite append_cons. simpl.
    rewrite decide_False by done. by rewrite IH.
Qed.

Lemma strip_after_space (b : string) : PyStr.strip (String " " b) = PyStr.strip b.
Proof. reflexivity. Qed.

(** What the form shows for a list of plain patterns reads back as the
    same list. *)
Lemma split_join_plain (pats : list string) :
  Forall plain pats →
  ∀ pre, pre = "" ∨ pre = " " →
    pats ≠ [] →
    PyStr.strip <$> PyStr.split "," (pre +:+ join ", " pats) = pats.
Proof.
  induction pats as [|x [|y rest] IH]; intros Hall pre Hpre Hne; [done| |].
  - apply Forall_cons in Hall as [(Hx & Hsep & Hstrip) _]. simpl.
    rewrite split_none.
    + simpl. f_equal. destruct Hpre as [-> | ->]; [done|].
      by rewrite append_cons, strip_after_space.
    + apply partition_none_app. split; [|done]. by destruct Hpre as [-> | ->].
  - apply Forall_cons in Hall as [(Hx & Hsep & Hstrip) Hall].
    change (join ", " (x :: y :: rest))
      with (x +:+ String "," (String " " "" +:+ join ", " (y :: rest))).
    rewrite <- append_assoc, split_app.
    + rewrite fmap_cons, (IH Hall " " (or_intror eq_refl)) by done. f_equal.
      destruct Hpre as [-> | ->]; [done|].
      by rewrite append_cons, strip_after_space.
    + apply partition_none_app. split; [|done]. by destruct Hpre as [-> | ->].
Qed.

Lemma filter_plain (pats : list string) :
  Forall plain pats → filter (λ x, x ≠ "") pats = pats.
Proof.
  induction 1 as [|y l (Hy & _) _ IH]; [done|].
  by rewrite filter_cons_True, IH.
Qed.

Lemma split_patterns_join (pats : list string) :
  Forall plain pats → RuleEditor.split_patterns (join ", " pats) = pats.
Proof.
  intros Hall. unfold RuleEditor.split_patterns.
  destruct pats as [|x rest]; [done|].
  pose proof (split_join_plain _ Hall "" (or_introl eq_refl)) as Heq.
  change ("" +:+ join ", " (x :: rest)) with (join ", " (x :: rest)) in Heq.
  rewrite Heq by done. by apply filter_plain.
Qed.


(* ================================================================== *)
(** * Facts: the rule editor *)


(** X17. Selecting a rule and saving it changes no rule.  For a rule of
    the list whose name is not empty, whose name and path carry no
    white space at either end and whose patterns are plain: after
    [_on_rule_select] has filled the form from it, [update_rule_from_form]
    returns and leaves the list of rules as it was; the patterns pass
    through [", ".join] and [split(',')] unchanged. *)
Theorem select_then_update_changes_no_rule (s : RuleEditor.state) (idx : nat)
  (r : PathRule) :
  RuleEditor.selection s = Some idx →
  RuleEditor.rules s !! idx = Some r →
  name r ≠ "" →
  PyStr.strip (name r) = name r →
  PyStr.strip (path r) = path r →
  Forall plain (patterns r) →
  ∃ s1 s2,
    RuleEditor._on_rule_select s = Returned s1
    ∧ RuleEditor.update_rule_from_form s1 = Returned s2
    ∧ RuleEditor.rules s2 = RuleEditor.rules s
    ∧ RuleEditor.split_patterns (join ", " (patterns r)) = patterns r.
Proof.
  intros Hsel Hr Hname Hsname Hspath Hpats.
  unfold RuleEditor._on_rule_select. rewrite Hsel, Hr.
  eexists _, _. split; [reflexivity|].
  unfold RuleEditor.update_rule_from_form. simpl.
  rewrite Hsname, Hspath, Hsel, split_patterns_join by done.
  rewrite bool_decide_eq_false_2 by done.
  rewrite bool_decide_eq_true_2 by (by eapply lookup_lt_Some).
  split; [reflexivity|]. simpl. split; [|done].
  apply list_insert_id. rewrite Hr. by destruct r.
Qed.

(** ** Presets *)

Lemma add_presets_run (found : list PathRule) :
  ∀ (rs : list PathRule) (added : nat),
    ∃ new,
      RuleEditor.add_presets found rs added = (rs ++ new, (added + length new)%nat)
      ∧ (∀ r, r ∈ new → r ∈ found)
      ∧ (∀ r, r ∈ found → name r ∈ name <$> (rs ++ new))
      ∧ (NoDup (name <$> rs) → NoDup (name <$> (rs ++ new))).
Proof.
  induction found as [|r rest IH]; intros rs added.
  - exists []. simpl. rewrite app_nil_r, Nat.add_0_r. split; [done|].
    split; [done|]. split; [|done]. intros r Hr. by apply elem_of_nil in Hr.
  - simpl. destruct (forallb _ rs) eqn:Hall.
    + destruct (IH (rs ++ [r]) (S added)) as (new & Hrun & Hfrom & Hnames & Hnd).
      exists (r :: new). rewrite Hrun, <- app_assoc. simpl.
      split; [f_equal; lia|].
      split; [intros x [->|Hx]%elem_of_cons; [left|right; auto]|].
      split.
      * intros x [->|Hx]%elem_of_cons.
        -- rewrite fmap_app, elem_of_app. right. simpl. left.
        -- specialize (Hnames x Hx). by rewrite <- app_assoc in Hnames.
      * intros Hrs. rewrite <- app_assoc in Hnd. apply Hnd.
        rewrite fmap_app. apply NoDup_app. split; [done|].
        split; [|apply NoDup_singleton].
        intros nm Hnm ->%list_elem_of_singleton.
        apply list_elem_of_fmap in Hnm as (e & Heq & He).
        rewrite forallb_forall in Hall. apply list_elem_of_In, Hall in He.
        apply bool_decide_eq_true in He. done.
    + destruct (IH rs added) as (new & Hrun & Hfrom & Hnames & Hnd).
      exists new. split; [done|].
      split; [intros x Hx; right; auto|]. split; [|done].
      intros x [->|Hx]%elem_of_cons; [|auto].
      rewrite fmap_app, elem_of_app. left.
      apply not_true_iff_false in Hall.
      destruct (decide (name r ∈ name <$> rs)) as [|Hout]; [done|].
      exfalso. apply Hall, forallb_forall. intros e He%list_elem_of_In.
      apply bool_decide_eq_true. intros Heq. apply Hout.
      apply list_elem_of_fmap. eauto.
Qed.

Lemma add_presets_nothing_new (found : list PathRule) :
  ∀ (rs : list PathRule) (added : nat),
    (∀ r, r ∈ found → name r ∈ name <$> rs) →
    RuleEditor.add_presets found rs added = (rs, added).
Proof.
  induction found as [|r rest IH]; intros rs added Hall; [done|].
  simpl. destruct (forallb _ rs) eqn:Hfb.
  - exfalso. specialize (Hall r ltac:(left)).
    apply list_elem_of_fmap in Hall as (e & Heq & He).
    rewrite forallb_forall in Hfb. apply list_elem_of_In, Hfb in He.
    apply bool_decide_eq_true in He. done.
  - apply IH. intros x Hx. apply Hall. by right.
Qed.

(** X18. Adding presets keeps rule names unique.  [add_browser_rules]
    and [add_os_rules] keep the rules of the list in place and append
    preset rules only; afterwards every preset's name is the name of a
    rule of the list, and if the names in the list were pairwise
    different they still are, even when the presets themselves repeat a
    name.  The number reported is the number of rules appended.  A
    second run with the same presets appends nothing and reports 0. *)
Theorem presets_keep_names_unique (found : list PathRule) (rs : list PathRule) :
  ∃ new,
    RuleEditor.add_presets found rs 0 = (rs ++ new, length new)
    ∧ (∀ s, RuleEditor.rules (RuleEditor.add_browser_rules found s)
            = (RuleEditor.add_presets found (RuleEditor.rules s) 0).1
            ∧ RuleEditor.rules (RuleEditor.add_os_rules found s)
              = (RuleEditor.add_presets found (RuleEditor.rules s) 0).1)
    ∧ (∀ r, r ∈ new → r ∈ found)
    ∧ (∀ r, r ∈ found → name r ∈ name <$> (rs ++ new))
    ∧ (NoDup (name <$> rs) → NoDup (name <$> (rs ++ new)))
    ∧ RuleEditor.add_presets found (rs ++ new) 0 = (rs ++ new, 0%nat).
Proof.
  destruct (add_presets_run found rs 0) as (new & Hrun & Hfrom & Hnames & Hnd).
  exists new. split; [done|].
  split.
  { intros s. unfold RuleEditor.add_browser_rules, RuleEditor.add_os_rules.
    by destruct (RuleEditor.add_presets found (RuleEditor.rules s) 0). }
  split; [done|]. split; [done|]. split; [done|].
  by apply add_presets_nothing_new.
Qed.

(* ================================================================== *)
(** * Facts: ageing off the logs *)















(* ================================================================== *)
(** * Facts: sizes for the eye *)

Lemma of_int_exact (n : Z) : Z.abs n < 2 ^ 53 → Float.of_int n = Some n.
Proof.
  intros Hn. unfold Float.of_int.
  assert (Z.log2 (Z.abs n) + 1 ≤ 53) as Hbits.
  { destruct (decide (Z.abs n = 0)) as [->|Hne]; [simpl; lia|].
    assert (Z.log2 (Z.abs n) < 53); [|lia].
    apply Z.log2_lt_pow2; lia. }
  destruct (Z.leb_spec (Z.log2 (Z.abs n) + 1) 53); [done|lia].
Qed.

Lemma round_half_even_near (num den : Z) :
  0 < den → 2 * Z.abs (Float.round_half_even num den * den - num) ≤ den.
Proof.
  intros Hden. unfold Float.round_half_even.
  pose proof (Z.div_mod num den ltac:(lia)) as Hdm.
  pose proof (Z.mod_pos_bound num den Hden) as Hr.
  destruct (Z.ltb_spec (2 * (num mod den)) den);
    [|destruct (Z.ltb_spec den (2 * (num mod den)));
      [|destruct (Z.even (num / den))]]; nia.
Qed.

(** X20. What [human_bytes] shows.  For a size below 1024 (and above
    [-2^53]) it is the number itself and "B".  For a size from 1024 up
    to [2^53], with [1024^k] the largest power of 1024 not above it
    ([k] at most 5), it is the size divided by [1024^k], rounded to one
    decimal with ties to even, and the unit KB, MB, GB, TB or PB; the
    number shown differs from the exact quotient by at most 0.05, is at
    least 1.0, and below PB is at most 1024.0. *)
Theorem human_bytes_shows_the_size :
  (∀ n, - 2 ^ 53 < n < 1024 → human_bytes n = Some (pretty n +:+ " B"))
  ∧ (∀ n k,
       1024 ≤ n < 2 ^ 53 → 1 ≤ k ≤ 5 →
       1024 ^ k ≤ n → (k < 5 → n < 1024 ^ (k + 1)) →
       let t := Float.tenths n (10 * k) in
       human_bytes n
       = Some (pretty (t / 10) +:+ "." +:+ pretty (t mod 10)
               +:+ " " +:+ unit_name k)
       ∧ 2 * Z.abs (t * 1024 ^ k - 10 * n) ≤ 1024 ^ k
       ∧ 10 ≤ t
       ∧ (k < 5 → t ≤ 10240)).
Proof.
  split.
  - intros n Hn. unfold human_bytes.
    destruct (Z.ltb_spec n 1024); [|lia].
    rewrite of_int_exact by lia. reflexivity.
  - intros n k Hn Hk Hlow Hhigh t.
    assert (2 * Z.abs (t * 1024 ^ k - 10 * n) ≤ 1024 ^ k) as Hnear.
    { subst t. unfold Float.tenths.
      replace (1024 ^ k) with (2 ^ (10 * k))
        by (rewrite Z.pow_mul_r by lia; reflexivity).
      apply round_half_even_near. apply Z.pow_pos_nonneg; lia. }
    split; [|split; [done|]].
    + unfold human_bytes. destruct (Z.ltb_spec n 1024); [lia|].
      rewrite of_int_exact by lia. simpl mbind. f_equal.
      assert (k = 1 ∨ k = 2 ∨ k = 3 ∨ k = 4 ∨ k = 5) as Hcases by lia.
      subst t. unfold Float.fixed1.
      destruct Hcases as [-> | [-> | [-> | [-> | ->]]]];
        simpl in Hlow, Hhigh; try specialize (Hhigh ltac:(lia));
        cbn [human_loop];
        repeat match goal with
               | |- context [?a <? ?b] =>
                   first [ rewrite (proj2 (Z.ltb_lt a b)) by (simpl; lia)
                         | rewrite (proj2 (Z.ltb_ge a b)) by (simpl; lia) ]
               end;
        rewrite !append_assoc; reflexivity.
    + assert (0 < 1024 ^ k) as Hpos by (apply Z.pow_pos_nonneg; lia).
      split; [nia|]. intros Hk5. specialize (Hhigh Hk5).
      replace (1024 ^ (k + 1)) with (1024 * 1024 ^ k) in Hhigh
        by (rewrite Z.pow_add_r by lia; lia).
      nia.
Qed.

(** The bound 1024.0 is reached: one byte short of a MB shows as KB. *)
Example human_bytes_1024_KB : human_bytes (1024 * 1024 - 1) = Some "1024.0 KB".
Proof. vm_compute. reflexivity. Qed.

Example human_bytes_half_even : human_bytes 1280 = Some "1.2 KB".
Proof. vm_compute. reflexivity. Qed.

(* ================================================================== *)
(** * Facts: the worker threads *)

Ltac unfold_worker :=
  unfold mbind, mret, W_bind, W_ret, Worker.engine, Worker.engine_pass,
    Worker.text, Worker.call, Worker._log_to_ui, Worker.set_results,
    Worker.get_results in *.



Section WorkerFacts.
Context `{Platform}.












(** ** The scan worker *)





(** ** The clean worker *)

Lemma log_callback_keeps : keeps_the_line Worker.log_callback.
Proof. intros p e w. eexists. reflexivity. Qed.

Lemma clean_results_cons (res : ScanResult) (rest : list ScanResult) (dt ft : Z)
  (w : world) (pn : panel) :
  Worker.clean_results (res :: rest) dt ft (w, pn) =
  let w1 := CleanerEngine.others_run w in
  if _stop (w_self w1) then (Done (dt, ft), (w1, pn))
  else
    match CleanerEngine.act_on_files_to Worker.log_callback res w1 with
    | (Ret (d, b), w2) =>
        let swept :=
          if remove_empty_dirs (rule res) then
            match resolve_base_call (rule res) with
            | Ret base => CleanerEngine.cleanup_empty_dirs base w2
            | _ => (Ret tt, w2)
            end
          else (Ret tt, w2) in
        match swept with
        | (Hang, w3) => (Stuck, (w3, pn))
        | (_, w3) =>
            let msg := "Cleaned '" +:+ name (rule res) +:+ "': " +:+ pretty d
                       +:+ " files" in
            Worker.clean_results rest (dt + d) (ft + b)
              (set_fs (log_handler (w_now w3) (Said (PyStr.strip msg)) (w_fs w3)) w3,
               {| scan_results := scan_results pn; ui := ui pn ++ [LogToUi msg] |})
        end
    | (Raise e, w2) => (Died e, (w2, pn))
    | (Hang, w2) => (Stuck, (w2, pn))
    end.
Proof.
  simpl. unfold CleanerEngine.stop_is_set. unfold_worker. unfold_monad. simpl.
  destruct (_stop (w_self (CleanerEngine.others_run w))); [reflexivity|].
  destruct (CleanerEngine.act_on_files_to _ res _) as [[[d b]|e|] w2]; simpl;
    try reflexivity.
  destruct (remove_empty_dirs (rule res)); simpl; [|reflexivity].
  destruct (resolve_base_call (rule res)) as [base|e|]; simpl; try reflexivity.
  destruct (CleanerEngine.cleanup_empty_dirs _ w2) as [[[]|e|] w3]; reflexivity.
Qed.

Lemma cleanup_facts (base : Path) (w : world) o w' :
  CleanerEngine.cleanup_empty_dirs base w = (o, w') →
  (o = Ret tt ∨ o = Hang)
  ∧ w_now w' = w_now w ∧ w_log w' = w_log w ∧ cfg (w_self w') = cfg (w_self w)
  ∧ (dry_run (cfg (w_self w)) = true → w_fs w' = w_fs w).
Proof.
  unfold CleanerEngine.cleanup_empty_dirs. unfold_monad. simpl.
  destruct (dry_run (cfg (w_self w))).
  { intros [= <- <-]. split; [by left|]. done. }
  intros Hrun. apply cleanup_loop_safe in Hrun as (Ho & Hnow & Hlog & Hcfg & _).
  done.
Qed.

Lemma clean_results_run (rs : list ScanResult) :
  ∀ (dt ft : Z) (w : world) (pn : panel) o s',
    Worker.clean_results rs dt ft (w, pn) = (o, s') →
    cfg (w_self s'.1) = cfg (w_self w)
    ∧ w_now s'.1 = w_now w
    ∧ scan_results s'.2 = scan_results pn
    ∧ (o = Stuck
       ∨ ∃ d f, o = Done (d, f)
           ∧ dt ≤ d ∧ ft ≤ f
           ∧ d - dt ≤ Z.of_nat (length rs) * Z.max 0 (max_total_delete (cfg (w_self w)))
           ∧ d - dt ≤ files_in rs)
    ∧ (dry_run (cfg (w_self w)) = true →
       w_log s'.1 = w_log w
       ∧ ∃ new, ui s'.2 = ui pn ++ new
                ∧ w_fs s'.1 = written (w_now w) (said new) (w_fs w)).
Proof.
  induction rs as [|res rest IH]; intros dt ft w pn o s' Hrun.
  - simpl in Hrun. injection Hrun as <- <-. simpl. do 3 (split; [done|]).
    split.
    + right. exists dt, ft. unfold files_in. simpl. repeat split; lia.
    + intros _. split; [done|]. exists []. by rewrite app_nil_r.
  - rewrite clean_results_cons in Hrun. cbv zeta in Hrun.
    pose proof (others_run_same w) as (Hfs1 & Hnow1 & Hlog1 & Hcfg1).
    assert (0 ≤ files_in rest) as Hrest.
    { clear. induction rest as [|x l IHl]; unfold files_in in *; simpl; lia. }
    destruct (_stop (w_self (CleanerEngine.others_run w))).
    { injection Hrun as <- <-. cbn [fst snd]. do 3 (split; [done|]).
      split.
      - right. exists dt, ft.
        change (files_in (res :: rest))
          with (Z.of_nat (length (files res)) + files_in rest).
        rewrite length_cons, Nat2Z.inj_succ.
        repeat split; first [lia | nia].
      - intros _. split; [done|]. exists []. by rewrite app_nil_r. }
    destruct (CleanerEngine.act_on_files_to _ res _) as [o1 w2] eqn:Hact.
    unfold CleanerEngine.act_on_files_to in Hact.
    pose proof (act_loop_to_bounds _ _ _ log_callback_keeps _ _ _ _ _ Hact)
      as (Hcfg2 & Hnow2 & logged & Hlog2 & _ & Hres2).
    assert (dry_run (cfg (w_self w)) = true → w_fs w2 = w_fs w ∧ w_log w2 = w_log w)
      as Hdry2.
    { intros Hdry.
      apply act_loop_to_dry_run in Hact as ((Hfs & _ & Hlog & _) & _);
        [|by rewrite Hcfg1].
      split; congruence. }
    destruct Hres2 as [-> | (d & b & -> & Hd & Hb & Hcount & Hcap)].
    { injection Hrun as <- <-. cbn [fst snd].
      split; [congruence|]. split; [congruence|]. split; [done|]. split; [by left|].
      intros Hdry. destruct (Hdry2 Hdry) as [Hf Hl]. split; [done|].
      exists []. by rewrite app_nil_r. }
    set (swept := if remove_empty_dirs (rule res) then _ else _) in Hrun.
    assert (∃ o3 w3, swept = (o3, w3)
              ∧ (o3 = Ret tt ∨ o3 = Hang)
              ∧ w_now w3 = w_now w2 ∧ cfg (w_self w3) = cfg (w_self w2)
              ∧ (dry_run (cfg (w_self w2)) = true → w_fs w3 = w_fs w2 ∧ w_log w3 = w_log w2))
      as (o3 & w3 & Hsw & Ho3 & Hnow3 & Hcfg3 & Hdry3).
    { subst swept. destruct (remove_empty_dirs (rule res)).
      - destruct (resolve_base_call (rule res)) as [base|e|].
        + destruct (CleanerEngine.cleanup_empty_dirs _ w2) as [o3 w3] eqn:Hc.
          apply cleanup_facts in Hc as (Ho & Hn & Hl & Hc & Hd3).
          exists o3, w3. split; [done|]. split; [done|]. split; [done|]. split; [done|].
          intros Hdry. split; [by apply Hd3|done].
        + exists (Ret tt), w2. split; [done|]. split; [by left|]. done.
        + exists (Ret tt), w2. split; [done|]. split; [by left|]. done.
      - exists (Ret tt), w2. split; [done|]. split; [by left|]. done. }
    rewrite Hsw in Hrun.
    destruct Ho3 as [-> | ->].
    2:{ injection Hrun as <- <-. cbn [fst snd].
        split; [congruence|]. split; [congruence|]. split; [done|]. split; [by left|].
        intros Hdry. destruct (Hdry2 Hdry) as [? ?].
        destruct Hdry3 as [? ?]; [congruence|]. split; [congruence|].
        exists []. rewrite app_nil_r. split; [done|]. simpl. congruence. }
    set (msg := "Cleaned '" +:+ name (rule res) +:+ "': " +:+ pretty d +:+ " files")
      in *.
    apply IH in Hrun as (Hcfg4 & Hnow4 & Hres4 & Hout & Hdry4).
    cbn [fst snd w_fs w_now w_log w_self set_fs scan_results ui] in *.
    split; [congruence|]. split; [congruence|]. split; [done|]. split.
    + destruct Hout as [-> | (d' & f' & -> & Hd' & Hf' & Hn' & Hfiles')]; [by left|].
      right. exists d', f'. split; [done|].
      rewrite Hcfg3, Hcfg2, Hcfg1 in Hn'.
      rewrite Hcfg1 in Hcap.
      change (files_in (res :: rest))
        with (Z.of_nat (length (files res)) + files_in rest).
      rewrite length_cons, Nat2Z.inj_succ.
      repeat split; first [lia | nia].
    + intros Hdry. destruct (Hdry2 Hdry) as [Hf2 Hl2].
      destruct Hdry3 as [Hf3 Hl3]; [congruence|].
      destruct Hdry4 as (Hl4 & new & Hui4 & Hfs4); [congruence|].
      split; [congruence|].
      exists (LogToUi msg :: new). split; [by rewrite Hui4, <- app_assoc|].
      rewrite Hfs4. simpl. rewrite Hnow3, Hnow2, Hnow1, Hf3, Hf2. reflexivity.
Qed.

(** X22. What the clean worker counts.  Whatever the stored results, the
    file system and the other threads, the loop of [_clean_worker] keeps
    the stored results, the configuration and the clock, and no
    exception of the engine leaves it.  When it returns, the number of
    files it reports as deleted and the number of bytes it reports as
    freed are at least 0; the number of files is at most the number of
    files in the results, and at most [max_total_delete] for each
    result, that is, up to the number of results times
    [max_total_delete] in all. *)
Theorem clean_worker_caps_each_result (rs : list ScanResult) (w : world) (pn : panel) :
  ∃ o s',
    Worker.clean_results rs 0 0 (w, pn) = (o, s')
    ∧ cfg (w_self s'.1) = cfg (w_self w)
    ∧ w_now s'.1 = w_now w
    ∧ scan_results s'.2 = scan_results pn
    ∧ (o = Stuck
       ∨ ∃ d f, o = Done (d, f)
           ∧ 0 ≤ d ∧ 0 ≤ f
           ∧ d ≤ Z.of_nat (length rs) * Z.max 0 (max_total_delete (cfg (w_self w)))
           ∧ d ≤ files_in rs).
Proof.
  destruct (Worker.clean_results rs 0 0 (w, pn)) as [o s'] eqn:Hrun.
  apply clean_results_run in Hrun as (Hcfg & Hnow & Hres & Hout & _).
  exists o, s'. do 4 (split; [done|]).
  destruct Hout as [-> | (d & f & -> & ? & ? & ? & ?)]; [by left|right].
  exists d, f. repeat split; lia.
Qed.


End WorkerFacts.

(* ================================================================== *)
(** * The further facts on the test bench *)

(** What a scan returns, at work on the two-pattern rule. *)
Lemma scan_result_is_consistent_bench :
  ∃ sr,
    CleanerEngine.enumerate_rule (H := Bench.posix) Bench.rule_ab Bench.w_ab
    = (Ret sr, Bench.w_ab)
    ∧ rule sr = Bench.rule_ab
    ∧ NoDup (files sr)
    ∧ total_size sr = total_bytes (w_fs Bench.w_ab) (files sr).
Proof.
  destruct (enumerate_rule_quiet (H := Bench.posix) Bench.rule_ab Bench.w_ab)
    as [sr Hrun]; [repeat split|reflexivity|].
  exists sr. split; [exact Hrun|].
  destruct (scan_result_is_consistent (H := Bench.posix) Bench.rule_ab Bench.w_ab
              sr Bench.w_ab Hrun) as (Hrule & Hnd & Hsize & _).
  auto.
Defined.





(** Deleting below a regular file: [unlink] raises, the path is logged
    as failed and not counted. *)
Example delete_below_a_regular_file :
  CleanerEngine.act_on_files (H := Bench.posix)
    {| rule := Bench.rule_R "delete"; files := [Bench.src_a ++ ["x"]]; total_size := 0 |}
    Bench.w_live
  = (Ret (0, 0), add_log (Bench.src_a ++ ["x"]) NotADirectoryError Bench.w_live).
Proof. vm_compute. reflexivity. Qed.

(** Deleting through a link to a directory removes the file the path
    leads to. *)
Example delete_through_a_linked_directory :
  w_fs Yard.w_linked_dir !! ["data"; "other"; "a.txt"] = None
  ∧ (CleanerEngine._recycle_or_quarantine_or_delete (H := Bench.posix)
       ["data"; "other"; "a.txt"] (Bench.rule_R "delete") Yard.w_linked_dir).1 = Ret true
  ∧ w_fs (CleanerEngine._recycle_or_quarantine_or_delete (H := Bench.posix)
            ["data"; "other"; "a.txt"] (Bench.rule_R "delete") Yard.w_linked_dir).2
      !! Bench.src_a = None.
Proof. split; [reflexivity|]. split; vm_compute; reflexivity. Qed.



(** Hard recycle-only with a trash, at work: the rule says "delete",
    the file goes to the trash. *)
Lemma hard_recycle_only_bench :
  CleanerEngine._recycle_or_quarantine_or_delete (H := Yard.posix_trash)
    Bench.src_a (Bench.rule_R "delete") Yard.w_recycle_only
  = match Yard.to_trash Bench.src_a (w_fs Yard.w_recycle_only) with
    | (Ret _, fs') => (Ret true, set_fs fs' Yard.w_recycle_only)
    | (Raise e, fs') => (Ret false, add_log Bench.src_a e (set_fs fs' Yard.w_recycle_only))
    | (Hang, fs') => (Hang, set_fs fs' Yard.w_recycle_only)
    end.
Proof.
  apply (hard_recycle_only_hands_to_trash (H := Yard.posix_trash) Yard.to_trash
           Bench.src_a (Bench.rule_R "delete") Yard.w_recycle_only);
    reflexivity.
Defined.


Example cleanup_on_the_bench :
  (CleanerEngine.cleanup_empty_dirs ["tmp"; "x"] Yard.w_folders).1 = Ret tt
  ∧ w_fs (CleanerEngine.cleanup_empty_dirs ["tmp"; "x"] Yard.w_folders).2
      !! ["tmp"; "x"; "a"] = None
  ∧ w_fs (CleanerEngine.cleanup_empty_dirs ["tmp"; "x"] Yard.w_folders).2
      !! ["tmp"; "x"; "keep"] = Some Dir.
Proof. vm_compute. repeat split. Qed.


(** Selecting a rule and saving it, at work. *)
Lemma select_then_update_bench :
  ∃ s1 s2,
    RuleEditor._on_rule_select Yard.editor = Returned s1
    ∧ RuleEditor.update_rule_from_form s1 = Returned s2
    ∧ RuleEditor.rules s2 = RuleEditor.rules Yard.editor
    ∧ RuleEditor.split_patterns (join ", " (patterns (Bench.rule_aged 1)))
      = patterns (Bench.rule_aged 1).
Proof.
  apply (select_then_update_changes_no_rule Yard.editor 0 (Bench.rule_aged 1)).
  - reflexivity.
  - reflexivity.
  - discriminate.
  - vm_compute. reflexivity.
  - vm_compute. reflexivity.
  - repeat constructor; [discriminate|vm_compute; reflexivity..].
Defined.


Example clean_worker_dry_run_says :
  ui (Worker._clean_worker (H := Yard.posix_logging)
        (Yard.w_dry_logged, Yard.scanned)).2.2
  = [ LogToUi "Cleaned 'R': 1 files";
      LblStatus "Clean complete";
      StatusLeft "Clean complete — Freed ~5 B";
      ProgressStop;
      LogToUi "DONE. Freed approx 5 B (dry_run=True)" ].
Proof. vm_compute. reflexivity. Qed.

Example clean_worker_dry_run_writes :
  w_fs (Worker._clean_worker (H := Yard.posix_logging)
          (Yard.w_dry_logged, Yard.scanned)).2.1 !! Yard.log_file
  = Some (File ("Cleaned 'R': 1 files" +:+ Yard.line_feed
                +:+ "DONE. Freed approx 5 B (dry_run=True)" +:+ Yard.line_feed)
            1000 420)
  ∧ w_fs (Worker._clean_worker (H := Yard.posix_logging)
            (Yard.w_dry_logged, Yard.scanned)).2.1 !! Bench.src_a
    = Some (File "hello" 100 420).
Proof. split; vm_compute; reflexivity. Qed.

(** [max_total_delete] bounds each result, not the sum: with a cap of 1
    and two results of one file each, two files are deleted. *)
Example clean_worker_two_results_two_files :
  max_total_delete Yard.one_at_a_time = 1
  ∧ (Worker.clean_results (H := Bench.posix) (scan_results Yard.two_results) 0 0
       (Bench.boot Bench.fs_ab 1000 Yard.one_at_a_time, Yard.two_results)).1
    = Done (2, 5).
Proof. split; [reflexivity|]. vm_compute. reflexivity. Qed.

Example scan_worker_says :
  ui (Worker._scan_worker (H := Yard.posix_logging) [Bench.rule_ab]
        (Yard.w_ab_logged, Yard.scanned)).2.2
  = [ LogToUi "Rule 'AB': 2 files, 5 B";
      TreeClear;
      TreeInsert "AB" 2 "5 B";
      LblStatus "Scan complete";
      StatusLeft "Scan complete";
      ProgressStop;
      LblTotal "Total: 2 files, 5 B" ].
Proof. vm_compute. reflexivity. Qed.

Example scan_worker_writes :
  w_fs (Worker._scan_worker (H := Yard.posix_logging) [Bench.rule_ab]
          (Yard.w_ab_logged, Yard.scanned)).2.1 !! Yard.log_file
  = Some (File ("Rule 'AB': 2 files, 5 B" +:+ Yard.line_feed) 1000 420).
Proof. vm_compute. reflexivity. Qed.

(** The scan worker and a base the host refuses: the exception leaves
    the worker, and nothing is stored for the rule. *)
Example scan_worker_dies_on_a_long_name :
  (Worker._scan_worker (H := Bench.posix) [Bench.rule_long]
     (Bench.w_live, Yard.scanned)).1 = Died OSError
  ∧ scan_results (Worker._scan_worker (H := Bench.posix) [Bench.rule_long]
                    (Bench.w_live, Yard.scanned)).2.2 = [].
Proof. split; vm_compute; reflexivity. Qed.

